(** * fide-cli: evidence-anchored identity resolution

    A shallow embedding of the statement-graph code of the fide command line
    tool: the reference matcher ([shared.ts]), the evidence closure builder,
    the consideration router and the vocabulary index of the
    [eval prompt-atomic] command, and the primary identity resolver of
    [scripts/smoke-local.ts].

    Strings are [string], JavaScript numbers that hold timestamps are [Z],
    [Set]s are [gset string], the vocabulary [Map] is a [gmap], and the
    insertion-ordered [Map] of the closure builder is an association list.
    Functions of the [@chris-test/fcp] package and of the host runtime are not
    part of the repository; they are the fields of the classes [Fcp] and
    [Host], and every definition that calls them is stated over an arbitrary
    instance. *)

From Stdlib Require Import ZArith List String Ascii Bool Lia Permutation Sorted.
From stdpp Require Import gmap strings.
Import ListNotations.

Local Open Scope string_scope.
Local Open Scope list_scope.
Local Open Scope Z_scope.

(** ** JavaScript strings *)

Module Js.

(** [s.startsWith(p)] *)
Definition startsWith (s p : string) : bool := String.prefix p s.

(** [s.includes(p)] *)
Definition includes (s p : string) : bool :=
  match String.index 0 p s with Some _ => true | None => false end.

(** [s.slice(n)] for [0 <= n] *)
Fixpoint slice (n : nat) (s : string) : string :=
  match n, s with
  | O, _ => s
  | S _, EmptyString => EmptyString
  | S n', String _ s' => slice n' s'
  end.

(** [s.slice(0, n)] *)
Fixpoint take (n : nat) (s : string) : string :=
  match n, s with
  | O, _ => EmptyString
  | S _, EmptyString => EmptyString
  | S n', String c s' => String c (take n' s')
  end.

(** [s.split(sep)] for a separator of one character: the result always has
    at least one element, and the empty string splits to one empty string. *)
Fixpoint split (sep : ascii) (s : string) : list string :=
  match s with
  | EmptyString => [EmptyString]
  | String c rest =>
      if Ascii.eqb c sep then EmptyString :: split sep rest
      else match split sep rest with
           | [] => [String c EmptyString]
           | hd :: tl => String c hd :: tl
           end
  end.

(** [s.endsWith(p)] *)
Definition endsWith (s p : string) : bool :=
  (String.length p <=? String.length s)%nat
  && String.eqb (slice (String.length s - String.length p) s) p.

Definition newline : string := String "010"%char EmptyString.

(** Truthiness of a [string | null] value: [null] and the empty string are
    falsy. *)
Definition truthy (v : option string) : bool :=
  match v with
  | Some s => negb (String.eqb s EmptyString)
  | None => false
  end.

(** [Number.MAX_SAFE_INTEGER] *)
Definition MAX_SAFE_INTEGER : Z := 2 ^ 53 - 1.

(** [array.sort(cmp)]: the sort is stable, and for a consistent comparator
    every stable sort returns the same array; it is written here as an
    insertion sort that keeps the input order of elements that compare
    equal. *)
Fixpoint insert {A : Type} (cmp : A -> A -> Z) (x : A) (l : list A) : list A :=
  match l with
  | [] => [x]
  | y :: l' => if cmp x y <=? 0 then x :: y :: l' else y :: insert cmp x l'
  end.

Fixpoint sort {A : Type} (cmp : A -> A -> Z) (l : list A) : list A :=
  match l with
  | [] => []
  | x :: l' => insert cmp x (sort cmp l')
  end.

(** [array.find(p)] *)
Definition find {A : Type} (p : A -> bool) (l : list A) : option A := List.find p l.

(** [array.some(p)] *)
Definition some {A : Type} (p : A -> bool) (l : list A) : bool := List.existsb p l.

(** Comparison of strings by code unit, as a number: negative, zero or
    positive. *)
Definition codeUnitCompare (a b : string) : Z :=
  match String.compare a b with
  | Lt => -1
  | Eq => 0
  | Gt => 1
  end.

End Js.

(** ** Collaborators outside the repository *)

(** The content-addressing package [@chris-test/fcp]. A call that throws is
    [None]. *)
Class Fcp := {
  buildStatementRawIdentifier : string -> string -> string -> string;
  calculateStatementFideId : string -> string -> string -> option string;
  calculateFideId : string -> string -> string -> option string;
  (** the pair is (entityType, sourceType) *)
  parseFideId : string -> option (string * string)
}.

(** The host runtime: [String.prototype.localeCompare], which the language
    leaves to the implementation, and [Date.parse], where [None] is [NaN]. *)
Class Host := {
  localeCompare : string -> string -> Z;
  dateParse : string -> option Z
}.

(** A host comparator is consistent when it is a total order on strings
    that answers zero on identical strings only. *)
Record ConsistentCompare (cmp : string -> string -> Z) : Prop := {
  cc_eq : forall a b, cmp a b = 0 <-> a = b;
  cc_anti : forall a b, cmp a b < 0 <-> 0 < cmp b a;
  cc_trans : forall a b c, cmp a b <= 0 -> cmp b c <= 0 -> cmp a c <= 0
}.

(** A comparator handed to [sort] orders the array when it is total and
    transitive. *)
Record Ordering {A : Type} (cmp : A -> A -> Z) : Prop := {
  ord_total : forall a b, cmp a b <= 0 \/ cmp b a <= 0;
  ord_trans : forall a b c, cmp a b <= 0 -> cmp b c <= 0 -> cmp a c <= 0
}.

(** ** shared.ts *)

Record FideIdStatement := {
  statementFideId : string;
  subjectFideId : string;
  subjectRawIdentifier : string;
  predicateFideId : string;
  predicateRawIdentifier : string;
  objectFideId : string;
  objectRawIdentifier : string
}.

Record StatementWire := {
  w_s : string; w_sr : string;
  w_p : string; w_pr : string;
  w_o : string; w_or : string
}.

Definition OWL_SAME_AS_IRI := "https://www.w3.org/2002/07/owl#sameAs".

Section Shared.
Context {fcp : Fcp}.

Definition matchesStatementReference (candidate target : FideIdStatement) : bool :=
  let raw := buildStatementRawIdentifier (subjectFideId target) (predicateFideId target) (objectFideId target) in
  String.eqb (subjectFideId candidate) (statementFideId target)
  || String.eqb (subjectRawIdentifier candidate) (statementFideId target)
  || String.eqb (subjectRawIdentifier candidate) raw.

(** [wiresToStatements]: the first identity computation that throws rejects
    the whole batch. *)
Fixpoint wiresToStatements (wires : list StatementWire) : option (list FideIdStatement) :=
  match wires with
  | [] => Some []
  | w :: rest =>
      match calculateStatementFideId (w_s w) (w_p w) (w_o w), wiresToStatements rest with
      | Some sid, Some sts =>
          Some ({| statementFideId := sid;
                   subjectFideId := w_s w; subjectRawIdentifier := w_sr w;
                   predicateFideId := w_p w; predicateRawIdentifier := w_pr w;
                   objectFideId := w_o w; objectRawIdentifier := w_or w |} :: sts)
      | _, _ => None
      end
  end.

End Shared.

(** [shortFideSuffix] *)
Definition shortFideSuffix (value : string) : string :=
  let hex := if Js.startsWith value "did:fide:0x"
             then Js.slice (String.length "did:fide:0x") value else value in
  Js.take 12 hex.

(** [value.replace(/[^a-zA-Z0-9]+/g, "-")] *)
Definition isAlnum (c : ascii) : bool :=
  let n := nat_of_ascii c in
  ((48 <=? n) && (n <=? 57) || (65 <=? n) && (n <=? 90) || (97 <=? n) && (n <=? 122))%nat.

Fixpoint dashRuns (inRun : bool) (s : string) : string :=
  match s with
  | EmptyString => EmptyString
  | String c rest =>
      if isAlnum c then String c (dashRuns false rest)
      else if inRun then dashRuns true rest
      else String "-"%char (dashRuns true rest)
  end.

(** [.replace(/^-+|-+$/g, "")] *)
Fixpoint dropLeadingDashes (s : string) : string :=
  match s with
  | String c rest => if Ascii.eqb c "-"%char then dropLeadingDashes rest else s
  | EmptyString => EmptyString
  end.

Fixpoint dropTrailingDashes (s : string) : string :=
  match s with
  | EmptyString => EmptyString
  | String c rest =>
      let rest' := dropTrailingDashes rest in
      if Ascii.eqb c "-"%char && String.eqb rest' EmptyString then EmptyString
      else String c rest'
  end.

Definition toLower (c : ascii) : ascii :=
  let n := nat_of_ascii c in
  if ((65 <=? n) && (n <=? 90))%nat then ascii_of_nat (n + 32) else c.

Fixpoint toLowerCase (s : string) : string :=
  match s with
  | EmptyString => EmptyString
  | String c rest => String (toLower c) (toLowerCase rest)
  end.

Definition slugifyIdentifier (value : string) : string :=
  toLowerCase (dropTrailingDashes (dropLeadingDashes (dashRuns false value))).

(** ** commands/eval: the evidence closure *)

Definition SCHEMA_VALID_FROM_IRI := "https://schema.org/validFrom".
Definition SCHEMA_VALID_THROUGH_IRI := "https://schema.org/validThrough".
Definition PROV_HAD_PRIMARY_SOURCE_IRI := "https://www.w3.org/ns/prov#hadPrimarySource".
Definition SCHEMA_ADDITIONAL_PROPERTY_IRI := "https://schema.org/additionalProperty".
Definition OWL_DIFFERENT_FROM_IRI := "https://www.w3.org/2002/07/owl#differentFrom".
Definition SCHEMA_NAME_IRI := "https://schema.org/name".

Definition PERSON_AFFILIATION_PREDICATES : gset string :=
  {[ "https://schema.org/worksFor"; "https://schema.org/memberOf"; "https://schema.org/affiliation" ]}.

(** A JavaScript [Map] keyed by strings: [set] overwrites the value of a key
    that is present and keeps its position, and appends a new key; [values]
    lists the values in insertion order of their keys. *)
Fixpoint mapSet {V : Type} (k : string) (v : V) (m : list (string * V)) : list (string * V) :=
  match m with
  | [] => [(k, v)]
  | (k', v') :: m' =>
      if String.eqb k' k then (k, v) :: m' else (k', v') :: mapSet k v m'
  end.

Definition mapValues {V : Type} (m : list (string * V)) : list V := map snd m.

(** [for (const statement of l) selected.set(statement.statementFideId, statement)] *)
Definition setAll (l : list FideIdStatement) (selected : list (string * FideIdStatement))
  : list (string * FideIdStatement) :=
  fold_left (fun acc statement => mapSet (statementFideId statement) statement acc) l selected.

(** The [{fideId, rawIdentifier}] pair of a statement's object. *)
Definition objectNode (statement : FideIdStatement) : string * string :=
  (objectFideId statement, objectRawIdentifier statement).

(** [nodes.some(node => statement.subjectFideId === node.fideId
                     || statement.subjectRawIdentifier === node.rawIdentifier)] *)
Definition subjectIsOneOf (nodes : list (string * string)) (statement : FideIdStatement) : bool :=
  Js.some (fun node =>
    String.eqb (subjectFideId statement) (fst node)
    || String.eqb (subjectRawIdentifier statement) (snd node)) nodes.

Section Closure.
Context {fcp : Fcp}.

Definition rawOf (statement : FideIdStatement) : string :=
  buildStatementRawIdentifier (subjectFideId statement) (predicateFideId statement) (objectFideId statement).

Definition validTemporalOf (target : FideIdStatement) (allStatements : list FideIdStatement) :=
  List.filter (fun statement =>
    (String.eqb (predicateRawIdentifier statement) SCHEMA_VALID_FROM_IRI
     || String.eqb (predicateRawIdentifier statement) SCHEMA_VALID_THROUGH_IRI)
    && matchesStatementReference statement target) allStatements.

Definition citationsOf (target : FideIdStatement) (allStatements : list FideIdStatement) :=
  let targetRaw := rawOf target in
  let validTemporal := validTemporalOf target allStatements in
  let validTemporalSet : gset string := list_to_set (map statementFideId validTemporal) in
  let validTemporalRawSet : gset string := list_to_set (map rawOf validTemporal) in
  List.filter (fun statement =>
    String.eqb (predicateRawIdentifier statement) PROV_HAD_PRIMARY_SOURCE_IRI
    && (bool_decide (subjectFideId statement ∈ validTemporalSet)
        || bool_decide (subjectRawIdentifier statement ∈ validTemporalSet)
        || bool_decide (subjectRawIdentifier statement ∈ validTemporalRawSet)
        || String.eqb (subjectFideId statement) (statementFideId target)
        || String.eqb (subjectRawIdentifier statement) (statementFideId target)
        || String.eqb (subjectRawIdentifier statement) targetRaw)) allStatements.

Definition onEndpoint (target statement : FideIdStatement) : bool :=
  String.eqb (subjectFideId statement) (subjectFideId target)
  || String.eqb (subjectFideId statement) (objectFideId target).

Definition namesOf (target : FideIdStatement) (allStatements : list FideIdStatement) :=
  List.filter (fun statement =>
    String.eqb (predicateRawIdentifier statement) SCHEMA_NAME_IRI
    && onEndpoint target statement) allStatements.

Definition affiliationsOf (target : FideIdStatement) (allStatements : list FideIdStatement) :=
  List.filter (fun statement =>
    bool_decide (predicateRawIdentifier statement ∈ PERSON_AFFILIATION_PREDICATES)
    && onEndpoint target statement) allStatements.

Definition contradictionsOf (target : FideIdStatement) (allStatements : list FideIdStatement) :=
  List.filter (fun statement =>
    String.eqb (predicateRawIdentifier statement) OWL_DIFFERENT_FROM_IRI
    && ((String.eqb (subjectFideId statement) (subjectFideId target)
         && String.eqb (objectFideId statement) (objectFideId target))
        || (String.eqb (subjectFideId statement) (objectFideId target)
            && String.eqb (objectFideId statement) (subjectFideId target)))) allStatements.

Definition reportStatementsOf (target : FideIdStatement) (allStatements : list FideIdStatement) :=
  let citationObjects := map objectNode (citationsOf target allStatements) in
  List.filter (subjectIsOneOf citationObjects) allStatements.

Definition propertyNodeStatementsOf (target : FideIdStatement) (allStatements : list FideIdStatement) :=
  let propertyNodes :=
    map objectNode
      (List.filter (fun statement =>
         String.eqb (predicateRawIdentifier statement) SCHEMA_ADDITIONAL_PROPERTY_IRI)
         (reportStatementsOf target allStatements)) in
  List.filter (subjectIsOneOf propertyNodes) allStatements.

Definition buildPersonPromptContextStatements
    (target : FideIdStatement) (allStatements : list FideIdStatement) : list FideIdStatement :=
  let validTemporal := validTemporalOf target allStatements in
  let citations := citationsOf target allStatements in
  let names := namesOf target allStatements in
  let affiliations := affiliationsOf target allStatements in
  let contradictions := contradictionsOf target allStatements in
  let selected :=
    setAll ([target] ++ validTemporal ++ citations ++ names ++ affiliations ++ contradictions) [] in
  let reportStatements := reportStatementsOf target allStatements in
  let selected := setAll reportStatements selected in
  let propertyNodeStatements := propertyNodeStatementsOf target allStatements in
  let selected := setAll propertyNodeStatements selected in
  mapValues selected.

End Closure.

(** ** commands/eval: the consideration router *)

Inductive AtomicConsideration :=
| citation_chain
| explicit_contradiction
| name_alignment
| affiliation_overlap
| valid_from_timestamp.

Definition ALL_ATOMIC_CONSIDERATIONS : list AtomicConsideration :=
  [citation_chain; explicit_contradiction; name_alignment; affiliation_overlap; valid_from_timestamp].

Definition considerationTag (c : AtomicConsideration) : string :=
  match c with
  | citation_chain => "citation_chain"
  | explicit_contradiction => "explicit_contradiction"
  | name_alignment => "name_alignment"
  | affiliation_overlap => "affiliation_overlap"
  | valid_from_timestamp => "valid_from_timestamp"
  end.

Definition isCitationChain (c : AtomicConsideration) : bool :=
  match c with citation_chain => true | _ => false end.

Definition normalizeAtomicConsideration (value : option string) : option AtomicConsideration :=
  match value with
  | None => None
  | Some v =>
      if String.eqb v "citation_chain" then Some citation_chain
      else if String.eqb v "explicit_contradiction" then Some explicit_contradiction
      else if String.eqb v "name_alignment" then Some name_alignment
      else if String.eqb v "affiliation_overlap" then Some affiliation_overlap
      else if String.eqb v "valid_from_timestamp" then Some valid_from_timestamp
      else None
  end.

Definition joinPath (parts : list string) : string := String.concat "/" parts.

Definition defaultEvalPromptAtomicOutPath
    (consideration : string) (statementFideId' evidenceStatementFideId : string) : string :=
  let statementSlug := slugifyIdentifier statementFideId' in
  let evidenceShort := shortFideSuffix evidenceStatementFideId in
  joinPath [ "_scratch/evals/prompts";
             "temporal-validity/owl-sameAs/Person";
             statementSlug;
             String.append consideration (String.append "--" (String.append evidenceShort ".md")) ].

Definition isReportBackedPrimarySource (statement : FideIdStatement) : bool :=
  if negb (String.eqb (predicateRawIdentifier statement) PROV_HAD_PRIMARY_SOURCE_IRI) then false
  else if negb (Js.startsWith (objectRawIdentifier statement) "http://"
                || Js.startsWith (objectRawIdentifier statement) "https://") then false
  else Js.includes (objectRawIdentifier statement) "/evidence/reports/".

(** A flag value of the command line: [string | boolean]. *)
Inductive FlagValue :=
| FlagString (s : string)
| FlagBool (b : bool).

Definition getStringFlag (flags : gmap string FlagValue) (key : string) : option string :=
  match flags !! key with
  | Some (FlagString value) => Some value
  | _ => None
  end.

Definition hasFlag (flags : gmap string FlagValue) (key : string) : bool :=
  bool_decide (is_Some (flags !! key)).

Record GeneratedPrompt := {
  g_consideration : AtomicConsideration;
  g_evidenceStatementFideId : string;
  g_outPath : string;
  g_promptChars : nat;
  g_supportingStatementCount : nat
}.

Record ConsiderationSummary := {
  cs_consideration : AtomicConsideration;
  cs_evidencePoolCount : nat;
  cs_generatedCount : nat;
  cs_skippedReason : option string
}.

Record RunSummary := {
  targetSameAsStatementFideId : string;
  selectedConsiderations : list AtomicConsideration;
  generatedCount : nat;
  considerations : list ConsiderationSummary;
  generatedPrompts : list GeneratedPrompt
}.

(** What the loop of [runPromptAtomic] has accumulated: the [generated] and
    [considerationSummaries] arrays, and the files written so far as
    (path, text) pairs in the order of the [writeUtf8] calls. *)
Record RunState := {
  generated : list GeneratedPrompt;
  considerationSummaries : list ConsiderationSummary;
  written : list (string * string)
}.

Inductive Stdout :=
| PrintedJson (summary : RunSummary)
| PrintedPaths (paths : list string).

(** The outcome of the command: [Failed] is a message on the error stream
    and exit code 1, [Succeeded] is exit code 0, [Threw] is an exception that
    leaves the function. Files written before a failure stay written. *)
Inductive RunResult :=
| Failed (message : string) (files : list (string * string))
| Threw (files : list (string * string))
| Succeeded (out : Stdout) (files : list (string * string)).

Definition exitCode (r : RunResult) : option Z :=
  match r with
  | Failed _ _ => Some 1
  | Succeeded _ _ => Some 0
  | Threw _ => None
  end.

(** The renderer: [collectTermsForDefinitions], [buildPrimarySourceReportLines],
    [buildDefinitionsMarkdown] and [buildAtomicPrompt] produce the text of one
    prompt from the consideration, the target, the evidence, the supporting
    statements and the context. Collecting the terms parses identifiers with
    [parseFideId] outside any handler, so rendering can throw: [None]. *)
Class Renderer := {
  renderPrompt : AtomicConsideration -> FideIdStatement -> FideIdStatement ->
                 list FideIdStatement -> list FideIdStatement -> option string
}.

Section Router.
Context {fcp : Fcp} {host : Host} {renderer : Renderer}.

Definition passesPersonMethodCriteria (statement : FideIdStatement) : option (option string) :=
  if negb (String.eqb (predicateRawIdentifier statement) OWL_SAME_AS_IRI)
  then Some (Some "Target statement predicate must be owl:sameAs.")
  else match parseFideId (subjectFideId statement) with
       | None => None
       | Some (subjectType, _) =>
           if negb (String.eqb subjectType "Person")
           then Some (Some (String.append "Person method requires Person subject type. Found: "
                              (String.append subjectType ".")))
           else Some None
       end.

Definition pickAtomicEvidencePool
    (consideration : AtomicConsideration) (target : FideIdStatement)
    (contextStatements : list FideIdStatement) : list FideIdStatement :=
  match consideration with
  | citation_chain =>
      List.filter (fun statement =>
        String.eqb (predicateRawIdentifier statement) PROV_HAD_PRIMARY_SOURCE_IRI) contextStatements
  | explicit_contradiction =>
      List.filter (fun statement =>
        String.eqb (predicateRawIdentifier statement) OWL_DIFFERENT_FROM_IRI) contextStatements
  | name_alignment =>
      List.filter (fun statement =>
        String.eqb (predicateRawIdentifier statement) SCHEMA_NAME_IRI) contextStatements
  | affiliation_overlap =>
      List.filter (fun statement =>
        bool_decide (predicateRawIdentifier statement ∈ PERSON_AFFILIATION_PREDICATES)) contextStatements
  | valid_from_timestamp =>
      List.filter (fun statement =>
        String.eqb (predicateRawIdentifier statement) SCHEMA_VALID_FROM_IRI
        && matchesStatementReference statement target) contextStatements
  end.

(** The comparator of [pickAtomicRequiredAnchor]:
    [av - bv || a.statementFideId.localeCompare(b.statementFideId)]. *)
Definition byObjectDateThenId (a b : FideIdStatement) : Z :=
  let av := match dateParse (objectRawIdentifier a) with Some t => t | None => Js.MAX_SAFE_INTEGER end in
  let bv := match dateParse (objectRawIdentifier b) with Some t => t | None => Js.MAX_SAFE_INTEGER end in
  if negb (av - bv =? 0) then av - bv
  else localeCompare (statementFideId a) (statementFideId b).

Definition optionToList {A : Type} (o : option A) : list A :=
  match o with Some a => [a] | None => [] end.

Definition pickAtomicRequiredAnchor
    (consideration : AtomicConsideration) (target evidence : FideIdStatement)
    (contextStatements : list FideIdStatement) : list FideIdStatement :=
  let fallback :=
    optionToList (Js.find (fun statement =>
      String.eqb (statementFideId statement) (subjectFideId evidence)) contextStatements) in
  match consideration with
  | citation_chain =>
      match Js.find (fun statement =>
              String.eqb (statementFideId statement) (subjectFideId evidence)
              && String.eqb (predicateRawIdentifier statement) SCHEMA_VALID_FROM_IRI)
              contextStatements with
      | Some directValidFrom => [directValidFrom]
      | None =>
          let relatedValidFrom :=
            Js.sort byObjectDateThenId
              (List.filter (fun statement =>
                 String.eqb (predicateRawIdentifier statement) SCHEMA_VALID_FROM_IRI
                 && matchesStatementReference statement target) contextStatements) in
          match relatedValidFrom with
          | first :: _ => [first]
          | [] => fallback
          end
      end
  | _ => fallback
  end.

Definition collectPrimarySourceLinksForStatement
    (target : FideIdStatement) (contextStatements : list FideIdStatement) : list FideIdStatement :=
  let raw := rawOf target in
  List.filter (fun statement =>
    String.eqb (predicateRawIdentifier statement) PROV_HAD_PRIMARY_SOURCE_IRI
    && (String.eqb (subjectFideId statement) (statementFideId target)
        || String.eqb (subjectRawIdentifier statement) (statementFideId target)
        || String.eqb (subjectRawIdentifier statement) raw)) contextStatements.

(** The anchor candidates of the [citation_chain] branch of the loop, sorted
    by [a.statementFideId.localeCompare(b.statementFideId)]. *)
Definition anchorCandidates (target : FideIdStatement) (contextStatements : list FideIdStatement) :=
  Js.sort (fun a b => localeCompare (statementFideId a) (statementFideId b))
    (List.filter (fun statement =>
       String.eqb (predicateRawIdentifier statement) SCHEMA_VALID_FROM_IRI
       && matchesStatementReference statement target) contextStatements).

Definition skipped (current : AtomicConsideration) (poolCount : nat) (reason : string) :=
  {| cs_consideration := current; cs_evidencePoolCount := poolCount;
     cs_generatedCount := 0; cs_skippedReason := Some reason |}.

(** One pass of the loop body up to the choice of the evidence pool: the
    pass returns 1 with a message, records a skip and continues, or goes on
    with an evidence pool and the base supporting statements. *)
Inductive PoolChoice :=
| ChooseFail (message : string)
| ChooseSkip (summary : ConsiderationSummary)
| ChoosePool (evidencePool baseSupportingStatements : list FideIdStatement).

Definition chooseEvidencePool
    (consideration : option AtomicConsideration) (currentConsideration : AtomicConsideration)
    (target : FideIdStatement) (contextStatements : list FideIdStatement) : PoolChoice :=
  let evidencePool := pickAtomicEvidencePool currentConsideration target contextStatements in
  if isCitationChain currentConsideration then
    match anchorCandidates target contextStatements with
    | [] =>
        match consideration with
        | Some _ => ChooseFail "No anchor validFrom statement found for target owl:sameAs statement."
        | None => ChooseSkip (skipped currentConsideration 0 "No anchor validFrom statement found.")
        end
    | anchorValidity :: _ =>
        let primarySourceForAnchorValidity :=
          List.filter isReportBackedPrimarySource
            (collectPrimarySourceLinksForStatement anchorValidity contextStatements) in
        match primarySourceForAnchorValidity with
        | [] =>
            match consideration with
            | Some _ =>
                ChooseFail "No primary-source evidence statements found for the anchor validFrom statement."
            | None =>
                ChooseSkip (skipped currentConsideration 0
                            "No primary-source evidence statements found for anchor validFrom statement.")
            end
        | _ :: _ => ChoosePool primarySourceForAnchorValidity [anchorValidity]
        end
    end
  else
    match evidencePool with
    | [] =>
        match consideration with
        | Some _ =>
            ChooseFail (String.append "No evidence statements available for consideration: "
                        (considerationTag currentConsideration))
        | None => ChooseSkip (skipped currentConsideration 0 "No evidence statements available.")
        end
    | _ :: _ => ChoosePool evidencePool []
    end.

(** The selection policy: a named evidence statement must be in the pool. *)
Inductive Selection :=
| SelectFail (message : string)
| Selected (selectedEvidence : list FideIdStatement).

Definition selectEvidence
    (currentConsideration : AtomicConsideration) (explicitEvidenceStatementId : option string)
    (evidencePool : list FideIdStatement) : Selection :=
  match explicitEvidenceStatementId with
  | Some wanted =>
      if Js.truthy explicitEvidenceStatementId then
        match Js.find (fun statement => String.eqb (statementFideId statement) wanted) evidencePool with
        | None =>
            SelectFail (String.append "Evidence statement not found in pool for consideration "
                          (String.append (considerationTag currentConsideration)
                             (String.append ": " wanted)))
        | Some matched => Selected [matched]
        end
      else Selected evidencePool
  | None => Selected evidencePool
  end.

(** The inner loop: one prompt per selected evidence statement. [None] when
    rendering throws; the state then holds what was written before. *)
Fixpoint generateAll
    (currentConsideration : AtomicConsideration) (target : FideIdStatement)
    (baseSupportingStatements contextStatements : list FideIdStatement)
    (selectedEvidence : list FideIdStatement) (st : RunState) : RunState * bool :=
  match selectedEvidence with
  | [] => (st, true)
  | evidence :: rest =>
      let supportingStatements :=
        if isCitationChain currentConsideration then baseSupportingStatements
        else pickAtomicRequiredAnchor currentConsideration target evidence contextStatements in
      match renderPrompt currentConsideration target evidence supportingStatements contextStatements with
      | None => (st, false)
      | Some prompt =>
          let outPath :=
            defaultEvalPromptAtomicOutPath (considerationTag currentConsideration)
              (statementFideId target) (statementFideId evidence) in
          let text :=
            if Js.endsWith prompt Js.newline then prompt else String.append prompt Js.newline in
          let item :=
            {| g_consideration := currentConsideration;
               g_evidenceStatementFideId := statementFideId evidence;
               g_outPath := outPath;
               g_promptChars := String.length prompt;
               g_supportingStatementCount := List.length supportingStatements |} in
          generateAll currentConsideration target baseSupportingStatements contextStatements rest
            {| generated := generated st ++ [item];
               considerationSummaries := considerationSummaries st;
               written := written st ++ [(outPath, text)] |}
      end
  end.

Inductive StepResult :=
| StepFailed (message : string) (st : RunState)
| StepThrew (st : RunState)
| StepNext (st : RunState).

Definition pushSummary (summary : ConsiderationSummary) (st : RunState) : RunState :=
  {| generated := generated st;
     considerationSummaries := considerationSummaries st ++ [summary];
     written := written st |}.

(** The body of [for (const currentConsideration of considerations)]. *)
Definition considerationStep
    (consideration : option AtomicConsideration) (explicitEvidenceStatementId : option string)
    (target : FideIdStatement) (contextStatements : list FideIdStatement)
    (st : RunState) (currentConsideration : AtomicConsideration) : StepResult :=
  match chooseEvidencePool consideration currentConsideration target contextStatements with
  | ChooseFail message => StepFailed message st
  | ChooseSkip summary => StepNext (pushSummary summary st)
  | ChoosePool evidencePool baseSupportingStatements =>
      match selectEvidence currentConsideration explicitEvidenceStatementId evidencePool with
      | SelectFail message => StepFailed message st
      | Selected [] =>
          match consideration with
          | Some _ =>
              StepFailed (String.append "No evidence statements selected for consideration: "
                            (considerationTag currentConsideration)) st
          | None =>
              StepNext (pushSummary (skipped currentConsideration (List.length evidencePool)
                                       "No evidence statements selected.") st)
          end
      | Selected selectedEvidence =>
          let generatedBefore := List.length (generated st) in
          match generateAll currentConsideration target baseSupportingStatements contextStatements
                  selectedEvidence st with
          | (st', false) => StepThrew st'
          | (st', true) =>
              StepNext (pushSummary
                {| cs_consideration := currentConsideration;
                   cs_evidencePoolCount := List.length evidencePool;
                   cs_generatedCount := (List.length (generated st') - generatedBefore)%nat;
                   cs_skippedReason := None |} st')
          end
      end
  end.

Fixpoint considerationLoop
    (consideration : option AtomicConsideration) (explicitEvidenceStatementId : option string)
    (target : FideIdStatement) (contextStatements : list FideIdStatement)
    (considerations' : list AtomicConsideration) (st : RunState) : StepResult :=
  match considerations' with
  | [] => StepNext st
  | currentConsideration :: rest =>
      match considerationStep consideration explicitEvidenceStatementId target contextStatements
              st currentConsideration with
      | StepNext st' =>
          considerationLoop consideration explicitEvidenceStatementId target contextStatements rest st'
      | stop => stop
      end
  end.

Definition emptyState : RunState :=
  {| generated := []; considerationSummaries := []; written := [] |}.

(** What [runPromptAtomic] does once the target has passed the method
    criteria: build the context, run the loop, report. *)
Definition runConsiderations
    (flags : gmap string FlagValue)
    (consideration : option AtomicConsideration) (explicitEvidenceStatementId : option string)
    (target : FideIdStatement) (statements : list FideIdStatement) : RunResult :=
  let contextStatements := buildPersonPromptContextStatements target statements in
  let considerations' :=
    match consideration with
    | Some c => [c]
    | None => ALL_ATOMIC_CONSIDERATIONS
    end in
  match considerationLoop consideration explicitEvidenceStatementId target contextStatements
          considerations' emptyState with
  | StepFailed message st => Failed message (written st)
  | StepThrew st => Threw (written st)
  | StepNext st =>
      match generated st with
      | [] => Failed "No prompts generated." (written st)
      | _ :: _ =>
          let summary :=
            {| targetSameAsStatementFideId := statementFideId target;
               selectedConsiderations := considerations';
               generatedCount := List.length (generated st);
               considerations := considerationSummaries st;
               generatedPrompts := generated st |} in
          if hasFlag flags "json" then Succeeded (PrintedJson summary) (written st)
          else Succeeded (PrintedPaths (map g_outPath (generated st))) (written st)
      end
  end.

(** [runPromptAtomic]: [statementWires] is what the database loader
    returned. *)
Definition runPromptAtomic
    (flags : gmap string FlagValue) (statementWires : list StatementWire) : RunResult :=
  let explicitStatementId := getStringFlag flags "statement" in
  let rawConsideration := getStringFlag flags "consideration" in
  let consideration := normalizeAtomicConsideration rawConsideration in
  let explicitEvidenceStatementId := getStringFlag flags "evidence-statement" in
  let explicitOutPath := getStringFlag flags "out" in
  match explicitStatementId with
  | None => Failed "Missing required flag: --statement <owl-sameAs-statement-fide-id>" []
  | Some wantedStatementId =>
  if negb (Js.truthy explicitStatementId)
  then Failed "Missing required flag: --statement <owl-sameAs-statement-fide-id>" []
  else if Js.truthy rawConsideration && negb (bool_decide (is_Some consideration))
  then Failed "Missing or invalid --consideration. Use one of: citation_chain, explicit_contradiction, name_alignment, affiliation_overlap, valid_from_timestamp." []
  else if Js.truthy explicitOutPath
  then Failed "`eval prompt-atomic` no longer accepts --out. File path is auto-generated under _scratch/evals/prompts." []
  else if Js.truthy explicitEvidenceStatementId && negb (bool_decide (is_Some consideration))
  then Failed "`--evidence-statement` requires `--consideration`." []
  else
  match wiresToStatements statementWires with
  | None => Threw []
  | Some statements =>
  match Js.find (fun statement => String.eqb (statementFideId statement) wantedStatementId) statements with
  | None =>
      Failed (String.append "owl:sameAs statement not found in evaluation input: " wantedStatementId) []
  | Some target =>
  if negb (String.eqb (predicateRawIdentifier target) OWL_SAME_AS_IRI)
  then Failed (String.append "Statement is not an owl:sameAs statement: " wantedStatementId) []
  else
  match passesPersonMethodCriteria target with
  | None => Threw []
  | Some (Some reason) =>
      Failed (String.append "Statement does not meet Person@v1 method criteria: " reason) []
  | Some None =>
      runConsiderations flags consideration explicitEvidenceStatementId target statements
  end
  end
  end
  end.

(** The evidence pool of a consideration: the pool the loop body goes on
    with, empty when it fails or skips. *)
Definition evidencePoolOf
    (consideration : option AtomicConsideration) (currentConsideration : AtomicConsideration)
    (target : FideIdStatement) (contextStatements : list FideIdStatement) : list FideIdStatement :=
  match chooseEvidencePool consideration currentConsideration target contextStatements with
  | ChoosePool evidencePool _ => evidencePool
  | _ => []
  end.

End Router.

(** ** commands/eval: the vocabulary index *)

#[local] Set Warnings "-register-all".

(** A parsed JSON document. Of a number only its being zero matters here. *)
Inductive Json :=
| JNull
| JBool (b : bool)
| JNumber (n : Z)
| JString (s : string)
| JArray (items : list Json)
| JObject (fields : list (string * Json)).

(** [record[key]] on the fields of an object; [None] is [undefined]. *)
Fixpoint field (key : string) (fields : list (string * Json)) : option Json :=
  match fields with
  | [] => None
  | (k, v) :: rest => if String.eqb k key then Some v else field key rest
  end.

(** [typeof record[key] === "string" ? record[key] : null] *)
Definition stringField (key : string) (fields : list (string * Json)) : option string :=
  match field key fields with
  | Some (JString s) => Some s
  | _ => None
  end.

Fixpoint getJsonLdText (value : Json) : option string :=
  match value with
  | JString s => if String.eqb s EmptyString then None else Some s
  | JArray items =>
      (fix firstText (l : list Json) : option string :=
         match l with
         | [] => None
         | item :: rest =>
             match getJsonLdText item with
             | Some extracted => if Js.truthy (Some extracted) then Some extracted else firstText rest
             | None => firstText rest
             end
         end) items
  | JObject fields =>
      match stringField "@value" fields with
      | Some v => Some v
      | None => stringField "@id" fields
      end
  | _ => None
  end.

Fixpoint getJsonLdIds (value : Json) : list string :=
  match value with
  | JArray items =>
      (fix ids (l : list Json) : list string :=
         match l with
         | [] => []
         | item :: rest => List.app (getJsonLdIds item) (ids rest)
         end) items
  | JObject fields => optionToList (stringField "@id" fields)
  | _ => []
  end.

(** [getJsonLdText(record[key])], where a missing key is [undefined]. *)
Definition textOf (key : string) (fields : list (string * Json)) : option string :=
  match field key fields with
  | Some v => getJsonLdText v
  | None => None
  end.

Definition idsOf (key : string) (fields : list (string * Json)) : list string :=
  match field key fields with
  | Some v => getJsonLdIds v
  | None => []
  end.

(** [iri.startsWith(base) ? prefix + iri.slice(base.length) : otherwise] *)
Definition rebase (base prefix iri : string) (otherwise : string) : string :=
  if Js.startsWith iri base then String.append prefix (Js.slice (String.length base) iri)
  else otherwise.

Definition toKnownCurie (iri : string) : string :=
  rebase "https://fide.work/vocab#" "fide:" iri
  (rebase "https://schema.org/" "schema:" iri
  (rebase "http://www.w3.org/2000/01/rdf-schema#" "rdfs:" iri
  (rebase "http://www.w3.org/2002/07/owl#" "owl:" iri
  (rebase "https://www.w3.org/2002/07/owl#" "owl:" iri
  (rebase "http://www.w3.org/ns/prov#" "prov:" iri
  (rebase "https://www.w3.org/ns/prov#" "prov:" iri
  (rebase "http://www.w3.org/1999/02/22-rdf-syntax-ns#" "rdf:" iri
  (rebase "http://www.w3.org/2001/XMLSchema#" "xsd:" iri
  (rebase "http://www.w3.org/ns/org#" "org:" iri
  (rebase "https://w3id.org/security#" "sec:" iri iri)))))))))).

Inductive DefinitionKind := entity_type | predicate | other.

Record PromptDefinitionEntry := {
  term : string;
  kind : DefinitionKind;
  label : option string;
  definition : option string;
  category : option string;
  equivalentClass : list string;
  subClassOf : list string
}.

Definition orElse {A : Type} (a b : option A) : option A :=
  match a with Some _ => a | None => b end.

(** The definition built from one graph node with identifier [id]. *)
Definition definitionOf (id : string) (record : list (string * Json)) : PromptDefinitionEntry :=
  let curie := toKnownCurie id in
  {| term := curie;
     kind := if Js.startsWith curie "fide:" then entity_type
             else if Js.includes curie ":" then predicate else other;
     label := orElse (textOf "rdfs:label" record) (textOf "schema:name" record);
     definition := textOf "rdfs:comment" record;
     category := textOf "schema:category" record;
     equivalentClass := map toKnownCurie (idsOf "owl:equivalentClass" record);
     subClassOf := map toKnownCurie (idsOf "rdfs:subClassOf" record) |}.

(** The body of [for (const node of graph)]: a node that is not an object
    with a non-empty string ["@id"] is passed over. *)
Definition indexNode (index : gmap string PromptDefinitionEntry) (node : Json)
  : gmap string PromptDefinitionEntry :=
  match node with
  | JObject record =>
      match stringField "@id" record with
      | Some id =>
          if String.eqb id EmptyString then index
          else
            let curie := toKnownCurie id in
            let definition := definitionOf id record in
            <[id := definition]> (<[curie := definition]> index)
      | None => index
      end
  | _ => index
  end.

(** The ["@graph"] array of a parsed snapshot, or the empty array; reading
    a property of [null] throws. *)
Definition graphOf (parsed : Json) : option (list Json) :=
  match parsed with
  | JNull => None
  | JObject fields =>
      match field "@graph" fields with
      | Some (JArray graph) => Some graph
      | _ => Some []
      end
  | _ => Some []
  end.

(** The body of [loadVocabularyIndex]'s builder. Each of [files] is what
    reading and parsing one snapshot gave, in load order; [None] is a file
    that could not be read or parsed, which the loop passes over. *)
Fixpoint buildVocabularyIndex (files : list (option Json)) (index : gmap string PromptDefinitionEntry)
  : option (gmap string PromptDefinitionEntry) :=
  match files with
  | [] => Some index
  | None :: rest => buildVocabularyIndex rest index
  | Some parsed :: rest =>
      match graphOf parsed with
      | None => None
      | Some graph => buildVocabularyIndex rest (fold_left indexNode graph index)
      end
  end.

(** [loadVocabularyIndex] with its module-level cache passed explicitly: the
    first call builds the index and stores the outcome, later calls return
    what is stored. *)
Definition loadVocabularyIndex
    (vocabularyIndexPromise : option (option (gmap string PromptDefinitionEntry)))
    (files : list (option Json))
  : option (gmap string PromptDefinitionEntry) * option (option (gmap string PromptDefinitionEntry)) :=
  match vocabularyIndexPromise with
  | Some cached => (cached, vocabularyIndexPromise)
  | None => let built := buildVocabularyIndex files ∅ in (built, Some built)
  end.

(** ** scripts/smoke-local.ts: the primary identity resolver *)

Record ScenarioStatement := {
  statement_fide_id : option string;
  first_created_at : option Z;
  subject_type : string;
  subject_raw_identifier : string;
  predicate_raw_identifier : string;
  object_type : string;
  object_raw_identifier : string
}.

Record FixtureConfig := {
  slug : string;
  label' : string;
  scenarioDir : string;
  entityType : string;
  selectIdentifierContains : option string;
  selectNameContains : option string
}.

(** An element of [validFromCandidates]. *)
Record Candidate := {
  c_statementFideId : option string;
  c_firstSeenAt : option Z;
  c_subjectRawIdentifier : string
}.

Record PrimaryFideIdResult := {
  primaryFideId : string;
  anchorSameAsStatementRawIdentifier : string;
  anchorValidFromStatementFideId : option string;
  anchorValidFromFirstSeenAt : option Z
}.

Definition isFocalSameAs (config : FixtureConfig) (focalIdentifier : string) (row : ScenarioStatement) : bool :=
  String.eqb (predicate_raw_identifier row) "https://www.w3.org/2002/07/owl#sameAs"
  && String.eqb (subject_type row) (entityType config)
  && (String.eqb (subject_raw_identifier row) focalIdentifier
      || String.eqb (object_raw_identifier row) focalIdentifier).

(** The loop that fills [sameAsStatementIdSet]. *)
Definition sameAsStatementIdSetOf (owlSameAsStatements : list ScenarioStatement) : gset string :=
  fold_left (fun acc row =>
    if Js.truthy (statement_fide_id row)
    then match statement_fide_id row with Some id => {[ id ]} ∪ acc | None => acc end
    else acc) owlSameAsStatements ∅.

Definition pipe : ascii := "|"%char.

Section Resolver.
Context {fcp : Fcp} {host : Host}.

(** One pass of [for (const row of statements)]: the candidate the row
    pushes, or [None] when the pass ends in [continue]. *)
Definition candidateOf (sameAsStatementIdSet : gset string) (row : ScenarioStatement) : option Candidate :=
  if negb (String.eqb (predicate_raw_identifier row) "https://schema.org/validFrom") then None
  else if negb (String.eqb (subject_type row) "Statement") then None
  else
    let parts := Js.split pipe (subject_raw_identifier row) in
    if negb (List.length parts =? 3)%nat then None
    else if negb (forallb (fun part => Js.startsWith part "did:fide:0x") parts) then None
    else
      match parts with
      | [part0; part1; part2] =>
          match calculateStatementFideId part0 part1 part2 with
          | None => None
          | Some targetStatementFideId =>
              if negb (bool_decide (targetStatementFideId ∈ sameAsStatementIdSet)) then None
              else Some {| c_statementFideId := statement_fide_id row;
                           c_firstSeenAt := first_created_at row;
                           c_subjectRawIdentifier := subject_raw_identifier row |}
          end
      | _ => None
      end.

Fixpoint validFromCandidatesOf (sameAsStatementIdSet : gset string) (statements : list ScenarioStatement)
  : list Candidate :=
  match statements with
  | [] => []
  | row :: rest =>
      match candidateOf sameAsStatementIdSet row with
      | Some candidate => candidate :: validFromCandidatesOf sameAsStatementIdSet rest
      | None => validFromCandidatesOf sameAsStatementIdSet rest
      end
  end.

(** The comparator handed to [validFromCandidates.sort]. *)
Definition compareCandidates (a b : Candidate) : Z :=
  let ta := match c_firstSeenAt a with Some t => t | None => Js.MAX_SAFE_INTEGER end in
  let tb := match c_firstSeenAt b with Some t => t | None => Js.MAX_SAFE_INTEGER end in
  if negb (ta =? tb) then ta - tb
  else
    let aid := match c_statementFideId a with Some i => i | None => "~" end in
    let bid := match c_statementFideId b with Some i => i | None => "~" end in
    if negb (String.eqb aid bid) then localeCompare aid bid
    else localeCompare (c_subjectRawIdentifier a) (c_subjectRawIdentifier b).

(** [findPrimaryFideId]: [Some None] is the [null] result, [None] an
    exception thrown by the final [calculateFideId]. *)
Definition findPrimaryFideId
    (config : FixtureConfig) (statements : list ScenarioStatement) (focalIdentifier : string)
  : option (option PrimaryFideIdResult) :=
  let owlSameAsStatements := List.filter (isFocalSameAs config focalIdentifier) statements in
  let sameAsStatementIdSet := sameAsStatementIdSetOf owlSameAsStatements in
  let validFromCandidates := validFromCandidatesOf sameAsStatementIdSet statements in
  match validFromCandidates with
  | [] => Some None
  | _ :: _ =>
      match Js.sort compareCandidates validFromCandidates with
      | [] => None
      | winner :: _ =>
          match calculateFideId (entityType config) "Statement" (c_subjectRawIdentifier winner) with
          | None => None
          | Some primary =>
              Some (Some {| primaryFideId := primary;
                            anchorSameAsStatementRawIdentifier := c_subjectRawIdentifier winner;
                            anchorValidFromStatementFideId := c_statementFideId winner;
                            anchorValidFromFirstSeenAt := c_firstSeenAt winner |})
          end
      end
  end.

End Resolver.

(** ** The closure as the specification words it

    A statement belongs to a hop when it satisfies the hop's description;
    [InClosureHops] is the union of the target and the hops. *)

Section ClosureSpec.
Context {fcp : Fcp}.
Variables (target : FideIdStatement) (allStatements : list FideIdStatement).

Definition references (statement about : FideIdStatement) : Prop :=
  subjectFideId statement = statementFideId about
  \/ subjectRawIdentifier statement = statementFideId about
  \/ subjectRawIdentifier statement = rawOf about.

Definition touchesEndpoint (statement : FideIdStatement) : Prop :=
  subjectFideId statement = subjectFideId target
  \/ subjectFideId statement = objectFideId target.

Definition subjectEqualsObjectOf (statement source : FideIdStatement) : Prop :=
  subjectFideId statement = objectFideId source
  \/ subjectRawIdentifier statement = objectRawIdentifier source.

Definition isValidity (s : FideIdStatement) : Prop :=
  In s allStatements
  /\ (predicateRawIdentifier s = SCHEMA_VALID_FROM_IRI
      \/ predicateRawIdentifier s = SCHEMA_VALID_THROUGH_IRI)
  /\ references s target.

Definition isCitation (s : FideIdStatement) : Prop :=
  In s allStatements
  /\ predicateRawIdentifier s = PROV_HAD_PRIMARY_SOURCE_IRI
  /\ ((exists v, isValidity v /\ references s v) \/ references s target).

Definition isName (s : FideIdStatement) : Prop :=
  In s allStatements
  /\ predicateRawIdentifier s = SCHEMA_NAME_IRI
  /\ touchesEndpoint s.

Definition isAffiliation (s : FideIdStatement) : Prop :=
  In s allStatements
  /\ (predicateRawIdentifier s = "https://schema.org/worksFor"
      \/ predicateRawIdentifier s = "https://schema.org/memberOf"
      \/ predicateRawIdentifier s = "https://schema.org/affiliation")
  /\ touchesEndpoint s.

Definition isContradiction (s : FideIdStatement) : Prop :=
  In s allStatements
  /\ predicateRawIdentifier s = OWL_DIFFERENT_FROM_IRI
  /\ ((subjectFideId s = subjectFideId target /\ objectFideId s = objectFideId target)
      \/ (subjectFideId s = objectFideId target /\ objectFideId s = subjectFideId target)).

Definition isReportBody (s : FideIdStatement) : Prop :=
  In s allStatements
  /\ exists c, isCitation c /\ subjectEqualsObjectOf s c.

Definition isReportProperty (s : FideIdStatement) : Prop :=
  In s allStatements
  /\ exists r, isReportBody r
       /\ predicateRawIdentifier r = SCHEMA_ADDITIONAL_PROPERTY_IRI
       /\ subjectEqualsObjectOf s r.

Definition InClosureHops (s : FideIdStatement) : Prop :=
  s = target \/ isValidity s \/ isCitation s \/ isName s \/ isAffiliation s
  \/ isContradiction s \/ isReportBody s \/ isReportProperty s.

(** The statements handed to [selected.set], in the order of the calls. *)
Definition setCalls : list FideIdStatement :=
  ([target] ++ validTemporalOf target allStatements ++ citationsOf target allStatements
     ++ namesOf target allStatements ++ affiliationsOf target allStatements
     ++ contradictionsOf target allStatements)
  ++ reportStatementsOf target allStatements
  ++ propertyNodeStatementsOf target allStatements.

End ClosureSpec.

(** Every key of the map is the statement identifier of its value. *)
Definition wellKeyed (m : list (string * FideIdStatement)) : Prop :=
  forall k s, In (k, s) m -> k = statementFideId s.

(** ** The resolver as the specification words it *)

(** The keys of the ranking: a missing first-seen timestamp stands as
    [MAX_SAFE_INTEGER], a missing statement identifier as the string ["~"]. *)
Definition firstSeenKey (c : Candidate) : Z :=
  match c_firstSeenAt c with Some t => t | None => Js.MAX_SAFE_INTEGER end.

Definition idKey (c : Candidate) : string :=
  match c_statementFideId c with Some i => i | None => "~" end.

(** [a] ranks no later than [b]: earlier first-seen key, or the same key
    and a smaller identifier key under the host's collation, or the same
    identifier key too and a subject raw value that is not larger. *)
Definition rankedBefore {host : Host} (a b : Candidate) : Prop :=
  firstSeenKey a < firstSeenKey b
  \/ (firstSeenKey a = firstSeenKey b
      /\ (localeCompare (idKey a) (idKey b) < 0
          \/ (idKey a = idKey b
              /\ localeCompare (c_subjectRawIdentifier a) (c_subjectRawIdentifier b) <= 0))).

(** The ranking in the words of the specification: ascending first-seen
    timestamp with a missing timestamp last, then ascending lexicographic
    statement identifier with a missing identifier last, then ascending
    lexicographic subject raw value. [Lt] is before, [Gt] is after. *)
Definition missingLast {A : Type} (cmp : A -> A -> comparison) (a b : option A) : comparison :=
  match a, b with
  | Some x, Some y => cmp x y
  | Some _, None => Lt
  | None, Some _ => Gt
  | None, None => Eq
  end.

Definition specCompare (a b : Candidate) : comparison :=
  match missingLast Z.compare (c_firstSeenAt a) (c_firstSeenAt b) with
  | Eq =>
      match missingLast String.compare (c_statementFideId a) (c_statementFideId b) with
      | Eq => String.compare (c_subjectRawIdentifier a) (c_subjectRawIdentifier b)
      | decided => decided
      end
  | decided => decided
  end.

(** A candidate is within the sentinels when its timestamp, if any, is
    below [MAX_SAFE_INTEGER] and its identifier, if any, is lexicographically
    below ["~"]. *)
Definition withinSentinels (c : Candidate) : Prop :=
  (forall t, c_firstSeenAt c = Some t -> t < Js.MAX_SAFE_INTEGER)
  /\ (forall i, c_statementFideId c = Some i -> String.compare i "~" = Lt).

(** The candidate record a row pushes when it passes the loop's tests. *)
Definition candidateRecord (row : ScenarioStatement) : Candidate :=
  {| c_statementFideId := statement_fide_id row;
     c_firstSeenAt := first_created_at row;
     c_subjectRawIdentifier := subject_raw_identifier row |}.

(** The result built from a winning row and the primary identifier. *)
Definition anchoredAt (row : ScenarioStatement) (primary : string) : PrimaryFideIdResult :=
  {| primaryFideId := primary;
     anchorSameAsStatementRawIdentifier := subject_raw_identifier row;
     anchorValidFromStatementFideId := statement_fide_id row;
     anchorValidFromFirstSeenAt := first_created_at row |}.

(** The subject raw value is three pipe-separated components that each
    begin with the identifier prefix. *)
Definition threePrefixedParts (raw : string) : bool :=
  let parts := Js.split pipe raw in
  (List.length parts =? 3)%nat && forallb (fun part => Js.startsWith part "did:fide:0x") parts.

(** A validFrom statement about a statement re-derives into the set [K]
    when the statement-identity function, applied to the three components of
    its subject raw value, returns a member of [K]. *)
Definition rederivesInto {fcp : Fcp} (K : gset string) (row : ScenarioStatement) : Prop :=
  predicate_raw_identifier row = "https://schema.org/validFrom"
  /\ subject_type row = "Statement"
  /\ threePrefixedParts (subject_raw_identifier row) = true
  /\ exists part0 part1 part2 id,
       Js.split pipe (subject_raw_identifier row) = [part0; part1; part2]
       /\ calculateStatementFideId part0 part1 part2 = Some id
       /\ id ∈ K.

(** A subject encoding is malformed when it is not three prefixed
    components, or when the identity function throws on them. *)
Definition malformedSubject {fcp : Fcp} (row : ScenarioStatement) : Prop :=
  threePrefixedParts (subject_raw_identifier row) = false
  \/ exists part0 part1 part2,
       Js.split pipe (subject_raw_identifier row) = [part0; part1; part2]
       /\ calculateStatementFideId part0 part1 part2 = None.

(** The statement identifiers of the focal same-as claims. *)
Definition focalClaimIds (config : FixtureConfig) (statements : list ScenarioStatement)
    (focalIdentifier : string) : gset string :=
  sameAsStatementIdSetOf (List.filter (isFocalSameAs config focalIdentifier) statements).

(** The focal same-as claims, on the data: the [owl:sameAs] rows of the
    configured entity type that have the focal identifier as subject or
    object. *)
Definition isFocalClaim (config : FixtureConfig) (focalIdentifier : string)
    (row : ScenarioStatement) : Prop :=
  predicate_raw_identifier row = "https://www.w3.org/2002/07/owl#sameAs"
  /\ subject_type row = entityType config
  /\ (subject_raw_identifier row = focalIdentifier
      \/ object_raw_identifier row = focalIdentifier).

(** The focal same-as claim-id set, on the data: the statement identifiers
    that focal same-as claims of the statement list carry. A row carries an
    identifier when the field is there and is not the empty string. *)
Definition focalClaimId (config : FixtureConfig) (statements : list ScenarioStatement)
    (focalIdentifier : string) (id : string) : Prop :=
  id <> EmptyString
  /\ exists claimRow, In claimRow statements
       /\ isFocalClaim config focalIdentifier claimRow
       /\ statement_fide_id claimRow = Some id.

(** A validFrom statement about a statement re-derives to a focal same-as
    claim when the statement-identity function, applied to the three
    pipe-separated components of its subject, returns a member of the focal
    same-as claim-id set. *)
Definition rederivesToFocalClaim {fcp : Fcp} (config : FixtureConfig)
    (statements : list ScenarioStatement) (focalIdentifier : string)
    (row : ScenarioStatement) : Prop :=
  predicate_raw_identifier row = "https://schema.org/validFrom"
  /\ subject_type row = "Statement"
  /\ threePrefixedParts (subject_raw_identifier row) = true
  /\ exists part0 part1 part2 id,
       Js.split pipe (subject_raw_identifier row) = [part0; part1; part2]
       /\ calculateStatementFideId part0 part1 part2 = Some id
       /\ focalClaimId config statements focalIdentifier id.

(** 2021-01-01 and 2022-06-01 at midnight UTC, in milliseconds. *)
Definition t_2021_01_01 : Z := 1609459200000.
Definition t_2022_06_01 : Z := 1654041600000.

(** ** The vocabulary index as the specification words it *)

(** The definition a graph node stores under [key], if it stores one there:
    a node with a non-empty string identifier is stored under the identifier
    and under its compact form. *)
Definition entryFor (key : string) (node : Json) : option PromptDefinitionEntry :=
  match node with
  | JObject record =>
      match stringField "@id" record with
      | Some id =>
          if String.eqb id EmptyString then None
          else if String.eqb id key || String.eqb (toKnownCurie id) key
               then Some (definitionOf id record)
               else None
      | None => None
      end
  | _ => None
  end.

(** The definition that the last node of a graph storing under [key]
    stores there, if any node does. *)
Definition lastEntry (key : string) (graph : list Json) : option PromptDefinitionEntry :=
  fold_left (fun current node => orElse (entryFor key node) current) graph None.

(** The graph nodes of the snapshots that could be read and parsed, in
    load order. *)
Fixpoint nodesOf (files : list (option Json)) : list Json :=
  match files with
  | [] => []
  | None :: rest => nodesOf rest
  | Some parsed :: rest =>
      match graphOf parsed with
      | Some graph => graph ++ nodesOf rest
      | None => nodesOf rest
      end
  end.

(** A snapshot defines the term [key] when one of its graph nodes stores a
    definition under [key]. *)
Definition definesTerm (key : string) (snapshot : option Json) : Prop :=
  exists parsed graph node d,
    snapshot = Some parsed /\ graphOf parsed = Some graph
    /\ In node graph /\ entryFor key node = Some d.

(** ** Instances for the worked examples

    The examples below run the code on concrete statements, which needs one
    concrete identity package and one concrete host. The raw identifier of a
    statement is the pipe-joined triple, as the data model describes it; the
    identifiers themselves are computed by a stand-in for the package's
    digest. The host compares strings by code unit and parses the two dates
    of the examples; the renderer writes a one-line prompt. *)

Module Example.

Definition pipeJoin (s p o : string) : string :=
  String.append s (String.append "|" (String.append p (String.append "|" o))).

Definition standInFcp : Fcp := {|
  buildStatementRawIdentifier := pipeJoin;
  calculateStatementFideId := fun s p o =>
    Some (String.append "did:fide:0x00"
            (String.append (shortFideSuffix s)
               (String.append (shortFideSuffix p) (shortFideSuffix o))));
  calculateFideId := fun entityType' sourceType raw =>
    Some (String.append "did:fide:0x" (slugifyIdentifier raw));
  parseFideId := fun id => Some ("Person", "NetworkResource")
|}.

Definition exampleDateParse (s : string) : option Z :=
  if String.eqb s "2021-01-01" then Some 1609459200000
  else if String.eqb s "2022-06-01" then Some 1654041600000
  else None.

Definition codeUnitHost : Host := {|
  localeCompare := Js.codeUnitCompare;
  dateParse := exampleDateParse
|}.

Definition plainRenderer : Renderer := {|
  renderPrompt := fun consideration target evidence supporting context =>
    Some (String.append "# Atomic Evidence Check: " (statementFideId evidence))
|}.

Definition statement (id s sr p pr o or' : string) : FideIdStatement :=
  {| statementFideId := id;
     subjectFideId := s; subjectRawIdentifier := sr;
     predicateFideId := p; predicateRawIdentifier := pr;
     objectFideId := o; objectRawIdentifier := or' |}.

(** A person fixture: one same-as claim between two accounts, and validFrom
    statements about that claim. *)
Definition personConfig : FixtureConfig :=
  {| slug := "person"; label' := "Person"; scenarioDir := "fixtures/person";
     entityType := "Person"; selectIdentifierContains := None; selectNameContains := None |}.

Definition focal : string := "https://x.com/alice".
Definition claimRaw : string := "did:fide:0xaaaa|did:fide:0xbbbb|did:fide:0xcccc".
Definition claimId : string := "did:fide:0x00aaaabbbbcccc".

Definition sameAsRow : ScenarioStatement :=
  {| statement_fide_id := Some claimId; first_created_at := Some 1;
     subject_type := "Person"; subject_raw_identifier := focal;
     predicate_raw_identifier := "https://www.w3.org/2002/07/owl#sameAs";
     object_type := "Person"; object_raw_identifier := "https://github.com/alice" |}.

Definition validFromRow (id : option string) (seen : option Z) (raw date : string) : ScenarioStatement :=
  {| statement_fide_id := id; first_created_at := seen;
     subject_type := "Statement"; subject_raw_identifier := raw;
     predicate_raw_identifier := "https://schema.org/validFrom";
     object_type := "DateLiteral"; object_raw_identifier := date |}.

Definition seen2021 : ScenarioStatement :=
  validFromRow (Some "did:fide:0x2222") (Some t_2021_01_01) claimRaw "2021-01-01".
Definition seen2022 : ScenarioStatement :=
  validFromRow (Some "did:fide:0x1111") (Some t_2022_06_01) claimRaw "2022-06-01".

(** Candidates at the sentinels of the comparator. *)
Definition seenAt2p53 : Candidate :=
  {| c_statementFideId := Some "did:fide:0x01"; c_firstSeenAt := Some (2 ^ 53);
     c_subjectRawIdentifier := claimRaw |}.
Definition neverSeen : Candidate :=
  {| c_statementFideId := Some "did:fide:0x02"; c_firstSeenAt := None;
     c_subjectRawIdentifier := claimRaw |}.
Definition tildeId : Candidate :=
  {| c_statementFideId := Some "~~"; c_firstSeenAt := Some 5;
     c_subjectRawIdentifier := claimRaw |}.
Definition noId : Candidate :=
  {| c_statementFideId := None; c_firstSeenAt := Some 5;
     c_subjectRawIdentifier := claimRaw |}.

(** A small graph around the claim: two validFrom statements about it, a
    report-backed citation of the one dated 2021, a citation of the one dated
    2022 that is not report-backed, and a name of the claim's subject. *)
Definition claim : FideIdStatement :=
  statement "did:fide:0x7777"
    "did:fide:0xaaaa" focal
    "did:fide:0xbbbb" OWL_SAME_AS_IRI
    "did:fide:0xcccc" "https://github.com/alice".

Definition validFrom2022 : FideIdStatement :=
  statement "did:fide:0x1111"
    "did:fide:0x7777" claimRaw
    "did:fide:0xdddd" SCHEMA_VALID_FROM_IRI
    "did:fide:0xe001" "2022-06-01".

Definition validFrom2021 : FideIdStatement :=
  statement "did:fide:0x2222"
    "did:fide:0x7777" claimRaw
    "did:fide:0xdddd" SCHEMA_VALID_FROM_IRI
    "did:fide:0xe002" "2021-01-01".

Definition reportOf2021 : FideIdStatement :=
  statement "did:fide:0x3333"
    "did:fide:0x2222" "did:fide:0x7777|did:fide:0xdddd|did:fide:0xe002"
    "did:fide:0xf000" PROV_HAD_PRIMARY_SOURCE_IRI
    "did:fide:0x4444" "https://fide.work/evidence/reports/r-2021".

Definition blogOf2022 : FideIdStatement :=
  statement "did:fide:0x5555"
    "did:fide:0x1111" "did:fide:0x7777|did:fide:0xdddd|did:fide:0xe001"
    "did:fide:0xf000" PROV_HAD_PRIMARY_SOURCE_IRI
    "did:fide:0x4445" "https://example.org/blog/post".

Definition nameOfAlice : FideIdStatement :=
  statement "did:fide:0x6666"
    "did:fide:0xaaaa" focal
    "did:fide:0xf001" SCHEMA_NAME_IRI
    "did:fide:0x4446" "Alice".

Definition graph : list FideIdStatement :=
  [claim; validFrom2022; validFrom2021; reportOf2021; blogOf2022; nameOfAlice].

(** The same graph with the body of the report, a property of the report,
    and a statement that no hop reaches. *)
Definition reportVersion : FideIdStatement :=
  statement "did:fide:0x8881"
    "did:fide:0x4444" "https://fide.work/evidence/reports/r-2021"
    "did:fide:0xf002" "https://schema.org/version"
    "did:fide:0x4447" "1".

Definition reportProperty : FideIdStatement :=
  statement "did:fide:0x8882"
    "did:fide:0x4444" "https://fide.work/evidence/reports/r-2021"
    "did:fide:0xf003" SCHEMA_ADDITIONAL_PROPERTY_IRI
    "did:fide:0x4448" "_:confidence".

Definition propertyValue : FideIdStatement :=
  statement "did:fide:0x8883"
    "did:fide:0x4448" "_:confidence"
    "did:fide:0xf004" "https://schema.org/value"
    "did:fide:0x4449" "0.9".

Definition unrelated : FideIdStatement :=
  statement "did:fide:0x8884"
    "did:fide:0x9000" "https://x.com/bob"
    "did:fide:0xf001" SCHEMA_NAME_IRI
    "did:fide:0x4450" "Bob".

Definition reportGraph : list FideIdStatement :=
  [unrelated; propertyValue; reportProperty; reportVersion] ++ graph.

Definition noFlags : gmap string FlagValue := ∅.

(** The claim and the name as wire records, and a command line that asks
    for the [name_alignment] prompts of the claim. *)
Definition wire (s sr p pr o or' : string) : StatementWire :=
  {| w_s := s; w_sr := sr; w_p := p; w_pr := pr; w_o := o; w_or := or' |}.

Definition wires : list StatementWire :=
  [ wire "did:fide:0xaaaa" focal "did:fide:0xbbbb" OWL_SAME_AS_IRI
         "did:fide:0xcccc" "https://github.com/alice";
    wire "did:fide:0xaaaa" focal "did:fide:0xf001" SCHEMA_NAME_IRI
         "did:fide:0x4446" "Alice" ].

Definition nameAlignmentFlags : gmap string FlagValue :=
  <["statement" := FlagString claimId]> (<["consideration" := FlagString "name_alignment"]> ∅).

(** Two vocabulary snapshots that both define the term
    [https://schema.org/name], with different comments. *)
Definition nameTerm : string := "https://schema.org/name".

Definition nameRecord (comment : string) : list (string * Json) :=
  [("@id", JString nameTerm); ("rdfs:label", JString "name"); ("rdfs:comment", JString comment)].

Definition snapshot (records : list (list (string * Json))) : Json :=
  JObject [("@context", JString "https://schema.org/"); ("@graph", JArray (map JObject records))].

Definition firstSnapshot : Json := snapshot [nameRecord "The name of the item, first snapshot."].
Definition secondSnapshot : Json := snapshot [nameRecord "The name of the item, second snapshot."].

(** A validFrom statement about the claim that carries the statement
    identifier of the claim itself. *)
Definition twin : FideIdStatement :=
  statement "did:fide:0x7777"
    "did:fide:0x7777" claimRaw
    "did:fide:0xdddd" SCHEMA_VALID_FROM_IRI
    "did:fide:0xe003" "2020-01-01".

(** Two validFrom rows about the claim with the dates 2021-01-01 and
    2022-06-01 as their objects, both first seen at the same time. *)
Definition dated2021 : ScenarioStatement :=
  validFromRow (Some "did:fide:0x2222") (Some 5) claimRaw "2021-01-01".
Definition dated2022 : ScenarioStatement :=
  validFromRow (Some "did:fide:0x1111") (Some 5) claimRaw "2022-06-01".

(** Two validFrom rows about the claim first seen at the same time, one
    with a statement identifier and one without. *)
Definition withIdentifier : ScenarioStatement :=
  validFromRow (Some "did:fide:0x2222") (Some 5) claimRaw "2021-01-01".
Definition withoutIdentifier : ScenarioStatement :=
  validFromRow None (Some 5) claimRaw "2022-06-01".

(** A host whose collation puts every character that is neither a letter
    nor a digit before the digits and the letters, as the locale collation
    of the runtime does with the tilde; within each group the code unit
    decides. *)
Fixpoint collationKey (s : string) : string :=
  match s with
  | EmptyString => EmptyString
  | String c rest =>
      String (if isAlnum c then "1"%char else "0"%char) (String c (collationKey rest))
  end.

Definition symbolsFirstHost : Host := {|
  localeCompare := fun a b => Js.codeUnitCompare (collationKey a) (collationKey b);
  dateParse := exampleDateParse
|}.

End Example.

(** ** lib/args.ts *)

Record ParsedArgs := {
  pa_positionals : list string;
  pa_flags : gmap string FlagValue
}.

(** The loop of [parseArgs] from the token at hand: a token without the
    two leading dashes is a positional; [--key=value] sets a string flag; a
    bare [--key] takes the next token as its value unless that token is
    missing, empty or starts with two dashes, and is then a boolean flag. *)
Fixpoint parseArgsFrom (args : list string) (positionals : list string)
    (flags : gmap string FlagValue) : ParsedArgs :=
  match args with
  | [] => {| pa_positionals := positionals; pa_flags := flags |}
  | token :: rest =>
      if negb (Js.startsWith token "--") then parseArgsFrom rest (positionals ++ [token]) flags
      else
        let keyValue := Js.slice 2 token in
        match String.index 0 "=" keyValue with
        | Some eqIndex =>
            let key := Js.take eqIndex keyValue in
            let value := Js.slice (S eqIndex) keyValue in
            parseArgsFrom rest positionals (<[key := FlagString value]> flags)
        | None =>
            let key := keyValue in
            match rest with
            | [] => {| pa_positionals := positionals; pa_flags := <[key := FlagBool true]> flags |}
            | next :: rest' =>
                if String.eqb next EmptyString || Js.startsWith next "--"
                then parseArgsFrom rest positionals (<[key := FlagBool true]> flags)
                else parseArgsFrom rest' positionals (<[key := FlagString next]> flags)
            end
        end
  end.

Definition parseArgs (args : list string) : ParsedArgs := parseArgsFrom args [] ∅.

(** ** shared.ts and the prompt command: identifiers and terms *)

Definition toFideTypeCurie (entityType' : string) : string := String.append "fide:" entityType'.

Definition toPredicateCurie (iri : string) : string :=
  rebase "https://schema.org/" "schema:" iri
  (rebase "https://www.w3.org/ns/prov#" "prov:" iri
  (rebase "https://www.w3.org/2002/07/owl#" "owl:" iri
  (rebase "https://www.w3.org/1999/02/22-rdf-syntax-ns#" "rdf:" iri iri))).

(** [const [prefix, local] = term.split(":")], then the table of bases;
    [None] is [null]. *)
Definition curieToIri (term' : string) : option string :=
  match Js.split ":"%char term' with
  | prefix :: local :: _ =>
      if String.eqb prefix EmptyString || String.eqb local EmptyString then None
      else if String.eqb prefix "fide" then Some (String.append "https://fide.work/vocab#" local)
      else if String.eqb prefix "schema" then Some (String.append "https://schema.org/" local)
      else if String.eqb prefix "prov" then Some (String.append "http://www.w3.org/ns/prov#" local)
      else if String.eqb prefix "owl" then Some (String.append "http://www.w3.org/2002/07/owl#" local)
      else if String.eqb prefix "rdf"
           then Some (String.append "http://www.w3.org/1999/02/22-rdf-syntax-ns#" local)
      else if String.eqb prefix "rdfs"
           then Some (String.append "http://www.w3.org/2000/01/rdf-schema#" local)
      else if String.eqb prefix "xsd" then Some (String.append "http://www.w3.org/2001/XMLSchema#" local)
      else if String.eqb prefix "org" then Some (String.append "http://www.w3.org/ns/org#" local)
      else if String.eqb prefix "sec" then Some (String.append "https://w3id.org/security#" local)
      else None
  | _ => None
  end.

(** The prefixes [curieToIri] knows, each with its base. *)
Definition curieBases : list (string * string) :=
  [ ("fide", "https://fide.work/vocab#");
    ("schema", "https://schema.org/");
    ("prov", "http://www.w3.org/ns/prov#");
    ("owl", "http://www.w3.org/2002/07/owl#");
    ("rdf", "http://www.w3.org/1999/02/22-rdf-syntax-ns#");
    ("rdfs", "http://www.w3.org/2000/01/rdf-schema#");
    ("xsd", "http://www.w3.org/2001/XMLSchema#");
    ("org", "http://www.w3.org/ns/org#");
    ("sec", "https://w3id.org/security#") ].

(** A string without the character [c]. *)
Fixpoint lacks (c : ascii) (s : string) : bool :=
  match s with
  | EmptyString => true
  | String x rest => negb (Ascii.eqb x c) && lacks c rest
  end.

(** The characters a slug is made of. *)
Definition isSlugChar (c : ascii) : bool :=
  let n := nat_of_ascii c in
  ((48 <=? n) && (n <=? 57) || (97 <=? n) && (n <=? 122))%nat || Ascii.eqb c "-"%char.

Fixpoint allChars (p : ascii -> bool) (s : string) : bool :=
  match s with
  | EmptyString => true
  | String x rest => p x && allChars p rest
  end.

(** The characters left after the runs of other characters are replaced. *)
Definition dashOrAlnum (c : ascii) : bool := isAlnum c || Ascii.eqb c "-"%char.

(** No dash follows a dash; with [afterDash] the string does not begin with
    a dash either. *)
Fixpoint wellDashed (afterDash : bool) (s : string) : bool :=
  match s with
  | EmptyString => true
  | String c rest =>
      if Ascii.eqb c "-"%char then negb afterDash && wellDashed true rest
      else wellDashed false rest
  end.

Fixpoint endsInDash (s : string) : bool :=
  match s with
  | EmptyString => false
  | String c EmptyString => Ascii.eqb c "-"%char
  | String _ rest => endsInDash rest
  end.

(** A slug: lower-case letters, digits and single dashes, with no dash at
    either end. *)
Definition isSlug (s : string) : bool :=
  allChars isSlugChar s && wellDashed true s && negb (endsInDash s).

(** Every entry of an index carries the compact form of its key as its
    term, and its kind follows the term. *)
Definition termsMatchKeys (index : gmap string PromptDefinitionEntry) : Prop :=
  forall key d, index !! key = Some d ->
    term d = toKnownCurie key
    /\ (kind d = entity_type <-> Js.startsWith (term d) "fide:" = true).

(** The directory of the prompts, and what every file the prompt command
    writes looks like: a Markdown file under that directory whose text ends
    with a line feed. *)
Definition promptsRoot : string :=
  "_scratch/evals/prompts/temporal-validity/owl-sameAs/Person/".

Definition isPromptFile (file : string * string) : bool :=
  Js.startsWith (fst file) promptsRoot
  && Js.endsWith (fst file) ".md"
  && Js.endsWith (snd file) Js.newline.

(** The files and the prompts of a run state go together. *)
Definition filesMatchPrompts (st : RunState) : Prop :=
  map fst (written st) = map g_outPath (generated st)
  /\ Forall (fun file => isPromptFile file = true) (written st).

Definition sumGenerated (summaries : list ConsiderationSummary) : nat :=
  fold_right (fun summary total => (cs_generatedCount summary + total)%nat) O summaries.

(** What one prompt of the summary says of the way it was made. *)
Definition promptOf (considerations' : list AtomicConsideration) (target : FideIdStatement)
    (item : GeneratedPrompt) : Prop :=
  In (g_consideration item) considerations'
  /\ g_outPath item
     = defaultEvalPromptAtomicOutPath (considerationTag (g_consideration item))
         (statementFideId target) (g_evidenceStatementFideId item)
  /\ (g_supportingStatementCount item <= 1)%nat.

(** The summaries [done] account for the prompts of a state. *)
Definition accounted (st : RunState) (done : list AtomicConsideration) : Prop :=
  map cs_consideration (considerationSummaries st) = done
  /\ sumGenerated (considerationSummaries st) = List.length (generated st)
  /\ Forall (fun summary =>
       is_Some (cs_skippedReason summary) -> cs_generatedCount summary = O)
       (considerationSummaries st).

(** The state a step leaves behind. *)
Definition stateOf (r : StepResult) : RunState :=
  match r with
  | StepFailed _ st => st
  | StepThrew st => st
  | StepNext st => st
  end.

(** The files a run has written when it ends. *)
Definition filesOf (r : RunResult) : list (string * string) :=
  match r with
  | Failed _ files => files
  | Threw files => files
  | Succeeded _ files => files
  end.

(** ** lib/report.ts *)

(** [value.replaceAll(c, by)] for a pattern of one character. *)
Fixpoint replaceAllChar (c : ascii) (by' : string) (s : string) : string :=
  match s with
  | EmptyString => EmptyString
  | String x rest =>
      if Ascii.eqb x c then String.append by' (replaceAllChar c by' rest)
      else String x (replaceAllChar c by' rest)
  end.

Definition lineFeed : ascii := "010"%char.

(** The [safe] of [markdownTable]. *)
Definition safeCell (value : string) : string :=
  replaceAllChar lineFeed " " (replaceAllChar "|"%char "\|" value).

Definition tableRow (cells : list string) : string :=
  String.append "| " (String.append (String.concat " | " cells) " |").

Definition markdownTable (headers : list string) (rows : list (list string)) : list string :=
  let head := tableRow (map safeCell headers) in
  let separator := tableRow (map (fun _ => "---") headers) in
  let body := map (fun row => tableRow (map safeCell row)) rows in
  head :: separator :: body.

(** ** scripts/smoke-local.ts: fixtures *)

(** [String.prototype.trim] and [String.prototype.toLowerCase] of the host
    runtime. *)
Class HostText := {
  jsTrim : string -> string;
  jsToLowerCase : string -> string
}.

(** [[...new Set(values)]]: each value once, in the order of first
    occurrence. *)
Definition uniqueInOrder (values : list string) : list string :=
  fold_left (fun seen value =>
    if existsb (String.eqb value) seen then seen else seen ++ [value]) values [].

(** [value.lastIndexOf(c)] for one character; [None] is -1. *)
Fixpoint lastIndexOf (c : ascii) (s : string) : option nat :=
  match s with
  | EmptyString => None
  | String x rest =>
      match lastIndexOf c rest with
      | Some i => Some (S i)
      | None => if Ascii.eqb x c then Some O else None
      end
  end.

Definition makeLabel (value : string) : string :=
  if Js.includes value "owl#sameAs" then "owl:sameAs"
  else
    let afterSlash :=
      match lastIndexOf "/"%char value with
      | Some slashIndex =>
          if (S slashIndex <? String.length value)%nat then Js.slice (S slashIndex) value else value
      | None => value
      end in
    match lastIndexOf "#"%char value with
    | Some hashIndex =>
        if (S hashIndex <? String.length value)%nat then Js.slice (S hashIndex) value else afterSlash
    | None => afterSlash
    end.

Definition inferSourceType (entityType' rawIdentifier : string) : string :=
  if String.eqb entityType' "Statement" then "Statement"
  else if Js.endsWith entityType' "Literal" then entityType'
  else if Js.startsWith rawIdentifier "http://" || Js.startsWith rawIdentifier "https://"
       then "NetworkResource"
  else entityType'.

Section Fixtures.
Context {fcp : Fcp} {text : HostText}.

Definition toUnique (values : list string) : list string :=
  uniqueInOrder (List.filter (fun value => (0 <? String.length (jsTrim value))%nat) values).

(** [fixtureStateToWires]: three identifiers are computed for each row, in
    order; the first computation that throws rejects the whole state. *)
Fixpoint fixtureStateToWires (rows : list ScenarioStatement) : option (list StatementWire) :=
  match rows with
  | [] => Some []
  | row :: rest =>
      match calculateFideId (subject_type row)
              (inferSourceType (subject_type row) (subject_raw_identifier row))
              (subject_raw_identifier row) with
      | None => None
      | Some subjectFideId' =>
      match calculateFideId "Concept" "NetworkResource" (predicate_raw_identifier row) with
      | None => None
      | Some predicateFideId' =>
      match calculateFideId (object_type row)
              (inferSourceType (object_type row) (object_raw_identifier row))
              (object_raw_identifier row) with
      | None => None
      | Some objectFideId' =>
      match fixtureStateToWires rest with
      | None => None
      | Some wires =>
          Some ({| w_s := subjectFideId'; w_sr := subject_raw_identifier row;
                   w_p := predicateFideId'; w_pr := predicate_raw_identifier row;
                   w_o := objectFideId'; w_or := object_raw_identifier row |} :: wires)
      end
      end
      end
      end
  end.

Definition findFocalIdentifier (config : FixtureConfig) (statements : list ScenarioStatement)
  : option string :=
  let candidates :=
    toUnique (map subject_raw_identifier
                (List.filter (fun row => String.eqb (subject_type row) (entityType config))
                   statements)) in
  match candidates with
  | [] => None
  | first :: _ =>
      let byIdentifier :=
        match selectIdentifierContains config with
        | Some wanted =>
            if Js.truthy (Some wanted)
            then match Js.find (fun value => Js.includes value wanted) candidates with
                 | Some found => if Js.truthy (Some found) then Some found else None
                 | None => None
                 end
            else None
        | None => None
        end in
      match byIdentifier with
      | Some found => Some found
      | None =>
          let byName :=
            match selectNameContains config with
            | Some wanted =>
                if Js.truthy (Some wanted)
                then
                  match map subject_raw_identifier
                          (List.filter (fun row =>
                             String.eqb (subject_type row) (entityType config)
                             && String.eqb (predicate_raw_identifier row) "https://schema.org/name"
                             && Js.includes (jsToLowerCase (object_raw_identifier row))
                                  (jsToLowerCase wanted)) statements) with
                  | found :: _ => if Js.truthy (Some found) then Some found else None
                  | [] => None
                  end
                else None
            | None => None
            end in
          match byName with
          | Some found => Some found
          | None => Some first
          end
      end
  end.

(** [parseClaimFilter]: the comma-separated pieces, trimmed, without the
    empty ones; [None] is [null]. *)
Definition parseClaimFilter (raw : option string) : option (gset string) :=
  match raw with
  | None => None
  | Some text' =>
      if negb (Js.truthy raw) then None
      else
        let claims :=
          List.filter (fun value => (0 <? String.length value)%nat)
            (map jsTrim (Js.split ","%char text')) in
        match claims with
        | [] => None
        | _ :: _ => Some (list_to_set claims)
        end
  end.

End Fixtures.

(** An ASCII host text for the worked examples: blanks are spaces, and case
    is the ASCII one. *)
Fixpoint dropLeadingSpaces (s : string) : string :=
  match s with
  | String c rest => if Ascii.eqb c " "%char then dropLeadingSpaces rest else s
  | EmptyString => EmptyString
  end.

Fixpoint dropTrailingSpaces (s : string) : string :=
  match s with
  | EmptyString => EmptyString
  | String c rest =>
      let rest' := dropTrailingSpaces rest in
      if Ascii.eqb c " "%char && String.eqb rest' EmptyString then EmptyString
      else String c rest'
  end.

Definition asciiText : HostText := {|
  jsTrim := fun s => dropTrailingSpaces (dropLeadingSpaces s);
  jsToLowerCase := toLowerCase
|}.

(** What a fixture row and a wire share: the three raw identifiers. *)
Definition rawTripleOfRow (row : ScenarioStatement) : string * string * string :=
  (subject_raw_identifier row, predicate_raw_identifier row, object_raw_identifier row).

Definition rawTripleOfWire (wire : StatementWire) : string * string * string :=
  (w_sr wire, w_pr wire, w_or wire).

Definition rawTripleOf (statement : FideIdStatement) : string * string * string :=
  (subjectRawIdentifier statement, predicateRawIdentifier statement,
   objectRawIdentifier statement).

(** The three identifiers of a wire are those of the row. *)
Definition wireOfRow {fcp : Fcp} (row : ScenarioStatement) (wire : StatementWire) : Prop :=
  calculateFideId (subject_type row)
    (inferSourceType (subject_type row) (subject_raw_identifier row))
    (subject_raw_identifier row) = Some (w_s wire)
  /\ calculateFideId "Concept" "NetworkResource" (predicate_raw_identifier row) = Some (w_p wire)
  /\ calculateFideId (object_type row)
       (inferSourceType (object_type row) (object_raw_identifier row))
       (object_raw_identifier row) = Some (w_o wire).

(** A prompt is made for a statement of the evidence pool of its
    consideration, the one that was asked for when one was. *)
Definition pooledEvidence {fcp : Fcp} {host : Host}
    (consideration : option AtomicConsideration) (explicitEvidenceStatementId : option string)
    (target : FideIdStatement) (contextStatements : list FideIdStatement)
    (item : GeneratedPrompt) : Prop :=
  exists evidence,
    In evidence (evidencePoolOf consideration (g_consideration item) target contextStatements)
    /\ statementFideId evidence = g_evidenceStatementFideId item
    /\ (forall wanted, explicitEvidenceStatementId = Some wanted -> wanted <> EmptyString ->
          g_evidenceStatementFideId item = wanted).

(** Two answers of the resolver name the same anchor when both are
    unresolved, both threw, or both hold the same primary identifier and the
    same anchored claim. *)
Definition sameAnchor (a b : option (option PrimaryFideIdResult)) : Prop :=
  match a, b with
  | Some (Some x), Some (Some y) =>
      primaryFideId x = primaryFideId y
      /\ anchorSameAsStatementRawIdentifier x = anchorSameAsStatementRawIdentifier y
  | Some None, Some None => True
  | None, None => True
  | _, _ => False
  end.

(** ** A run over all considerations *)

Module Runs.

(** [--statement <claim> --json], with no consideration asked for. *)
Definition allJsonFlags : gmap string FlagValue :=
  <["json" := FlagBool true]> (<["statement" := FlagString Example.claimId]> ∅).

Definition promptPath : string :=
  "_scratch/evals/prompts/temporal-validity/owl-sameAs/Person/did-fide-0x00aaaabbbbcccc/name_alignment--00aaaaf00144.md".

Definition promptFile : string * string :=
  (promptPath, String.append "# Atomic Evidence Check: did:fide:0x00aaaaf0014446" Js.newline).

Definition allSummary : RunSummary :=
  {| targetSameAsStatementFideId := "did:fide:0x00aaaabbbbcccc";
     selectedConsiderations := ALL_ATOMIC_CONSIDERATIONS;
     generatedCount := 1;
     considerations :=
       [skipped citation_chain 0 "No anchor validFrom statement found.";
        skipped explicit_contradiction 0 "No evidence statements available.";
        {| cs_consideration := name_alignment; cs_evidencePoolCount := 1;
           cs_generatedCount := 1; cs_skippedReason := None |};
        skipped affiliation_overlap 0 "No evidence statements available.";
        skipped valid_from_timestamp 0 "No evidence statements available."];
     generatedPrompts :=
       [{| g_consideration := name_alignment;
           g_evidenceStatementFideId := "did:fide:0x00aaaaf0014446";
           g_outPath := promptPath;
           g_promptChars := 50;
           g_supportingStatementCount := 0 |}] |}.

End Runs.

(** * Properties *)

(** ** Strings and sorting *)

Lemma eqb_true_iff (a b : string) : String.eqb a b = true <-> a = b.
Proof. apply String.eqb_eq. Qed.

Lemma sort_In {A : Type} (cmp : A -> A -> Z) (l : list A) (x : A) :
  In x (Js.sort cmp l) <-> In x l.
Proof.
  assert (Hins : forall y m, In x (Js.insert cmp y m) <-> x = y \/ In x m).
  { intros y m. induction m as [|z m IH]; simpl.
    - intuition.
    - destruct (cmp y z <=? 0); simpl; rewrite ?IH; intuition. }
  induction l as [|y l IH]; simpl.
  - reflexivity.
  - rewrite Hins, IH. intuition.
Qed.

Lemma insert_Permutation {A : Type} (cmp : A -> A -> Z) (x : A) (l : list A) :
  Permutation (x :: l) (Js.insert cmp x l).
Proof.
  induction l as [|y l IH]; simpl.
  - apply Permutation_refl.
  - destruct (cmp x y <=? 0).
    + apply Permutation_refl.
    + eapply perm_trans; [apply perm_swap|]. apply perm_skip, IH.
Qed.

Lemma sort_Permutation {A : Type} (cmp : A -> A -> Z) (l : list A) :
  Permutation l (Js.sort cmp l).
Proof.
  induction l as [|x l IH]; simpl.
  - apply perm_nil.
  - eapply perm_trans; [apply perm_skip, IH|]. apply insert_Permutation.
Qed.

Lemma sort_nil_iff {A : Type} (cmp : A -> A -> Z) (l : list A) :
  Js.sort cmp l = [] <-> l = [].
Proof.
  split; intros E.
  - destruct l as [|x l]; [reflexivity|].
    pose proof (sort_In cmp (x :: l) x) as [_ Hin].
    rewrite E in Hin. destruct Hin. now left.
  - now subst.
Qed.

Section SortOrdering.
Context {A : Type} (cmp : A -> A -> Z) (Hord : Ordering cmp).

Lemma insert_head_le (x : A) (l : list A) (h : A) (t : list A) :
  (forall w u, l = w :: u -> forall y, In y l -> cmp w y <= 0) ->
  Js.insert cmp x l = h :: t ->
  forall y, In y (x :: l) -> cmp h y <= 0.
Proof.
  intros Hl E y Hy.
  destruct l as [|z l']; simpl in E.
  - inversion E; subst. destruct Hy as [->|[]].
    destruct (ord_total cmp Hord y y); assumption.
  - specialize (Hl z l' eq_refl).
    destruct (cmp x z <=? 0) eqn:Hc; inversion E; subst.
    + apply Z.leb_le in Hc. destruct Hy as [->|Hy].
      * destruct (ord_total cmp Hord y y); assumption.
      * eapply (ord_trans cmp Hord); [exact Hc|]. now apply Hl.
    + apply Z.leb_gt in Hc. destruct Hy as [->|Hy].
      * destruct (ord_total cmp Hord h y); [assumption|lia].
      * now apply Hl.
Qed.

(** The first element of the sorted array is below every element. *)
Lemma sort_head_le (l : list A) (h : A) (t : list A) :
  Js.sort cmp l = h :: t -> forall y, In y l -> cmp h y <= 0.
Proof.
  revert h t. induction l as [|x l IH]; intros h t E y Hy.
  - destruct Hy.
  - simpl in E.
    eapply (insert_head_le x (Js.sort cmp l)); [|exact E|].
    + intros w u Ew y' Hy'. eapply IH; [exact Ew|]. now apply sort_In in Hy'.
    + destruct Hy as [->|Hy]; [now left|right; now apply sort_In].
Qed.

Lemma insert_Sorted (x : A) (l : list A) :
  Sorted (fun a b => cmp a b <= 0) l -> Sorted (fun a b => cmp a b <= 0) (Js.insert cmp x l).
Proof.
  induction 1 as [|z l Hs IH Hhd]; simpl.
  - repeat constructor.
  - destruct (cmp x z <=? 0) eqn:Hc.
    + apply Z.leb_le in Hc. repeat constructor; assumption.
    + apply Z.leb_gt in Hc. constructor; [exact IH|].
      destruct l as [|w l']; simpl.
      * constructor. destruct (ord_total cmp Hord z x); [assumption|lia].
      * inversion Hhd; subst. destruct (cmp x w <=? 0); constructor; try assumption.
        destruct (ord_total cmp Hord z x); [assumption|lia].
Qed.

Lemma sort_Sorted (l : list A) : Sorted (fun a b => cmp a b <= 0) (Js.sort cmp l).
Proof.
  induction l as [|x l IH]; simpl; [constructor|]. now apply insert_Sorted.
Qed.

End SortOrdering.

(** Comparison by code unit is a consistent comparator. *)

Lemma string_compare_refl (a : string) : String.compare a a = Eq.
Proof.
  induction a as [|c a IH]; simpl; [reflexivity|].
  unfold Ascii.compare. now rewrite N.compare_refl.
Qed.

Lemma string_compare_le_trans (a b c : string) :
  String.compare a b <> Gt -> String.compare b c <> Gt -> String.compare a c <> Gt.
Proof.
  revert b c. induction a as [|x a IH]; intros [|y b] [|z c]; simpl; try congruence.
  unfold Ascii.compare.
  destruct (N.compare_spec (N_of_ascii x) (N_of_ascii y)) as [Exy|Lxy|Gxy];
    destruct (N.compare_spec (N_of_ascii y) (N_of_ascii z)) as [Eyz|Lyz|Gyz];
    destruct (N.compare_spec (N_of_ascii x) (N_of_ascii z)) as [Exz|Lxz|Gxz];
    try congruence; try lia.
  apply IH.
Qed.

Lemma codeUnitCompare_le (a b : string) :
  Js.codeUnitCompare a b <= 0 <-> String.compare a b <> Gt.
Proof. unfold Js.codeUnitCompare. destruct (String.compare a b); split; (lia || congruence). Qed.

Lemma codeUnitCompare_lt (a b : string) :
  Js.codeUnitCompare a b < 0 <-> String.compare a b = Lt.
Proof. unfold Js.codeUnitCompare. destruct (String.compare a b); split; (lia || congruence). Qed.

Lemma string_compare_Eq_iff (a b : string) : String.compare a b = Eq <-> a = b.
Proof. split; [apply String.compare_eq_iff|intros ->; apply string_compare_refl]. Qed.

Lemma codeUnitCompare_consistent : ConsistentCompare Js.codeUnitCompare.
Proof.
  constructor.
  - intros a b. unfold Js.codeUnitCompare. split.
    + destruct (String.compare a b) eqn:E; try lia. intros _. now apply String.compare_eq_iff.
    + intros ->. now rewrite string_compare_refl.
  - intros a b. unfold Js.codeUnitCompare. rewrite (String.compare_antisym a b).
    destruct (String.compare b a); simpl; lia.
  - intros a b c. rewrite !codeUnitCompare_le. apply string_compare_le_trans.
Qed.

(** ** The reference matcher *)

Section MatcherFacts.
Context {fcp : Fcp}.

Lemma matchesStatementReference_iff (candidate target : FideIdStatement) :
  matchesStatementReference candidate target = true <-> references candidate target.
Proof.
  unfold matchesStatementReference, references, rawOf.
  rewrite !orb_true_iff, !eqb_true_iff. tauto.
Qed.

(** C3. A candidate whose subject raw value is the target's statement
    identifier and a candidate whose subject raw value is the raw identifier
    built from the target's subject, predicate and object identifiers are
    both recognised as references to the target, so the matcher answers the
    same on the two encodings. *)
Theorem matchesStatementReference_both_encodings
    (target byId byTriple : FideIdStatement) :
  subjectRawIdentifier byId = statementFideId target ->
  subjectRawIdentifier byTriple =
    buildStatementRawIdentifier (subjectFideId target) (predicateFideId target) (objectFideId target) ->
  matchesStatementReference byId target = true
  /\ matchesStatementReference byTriple target = true
  /\ matchesStatementReference byId target = matchesStatementReference byTriple target.
Proof.
  intros Hid Htriple.
  assert (matchesStatementReference byId target = true) as E1.
  { apply matchesStatementReference_iff. right. now left. }
  assert (matchesStatementReference byTriple target = true) as E2.
  { apply matchesStatementReference_iff. right. now right. }
  rewrite E1, E2. auto.
Qed.

End MatcherFacts.

(** ** The insertion-ordered map *)

Section MapFacts.
Context {V : Type}.
Implicit Types (m : list (string * V)) (k : string) (v : V).

Lemma mapSet_In k v m k' v' :
  In (k', v') (mapSet k v m) -> (k' = k /\ v' = v) \/ In (k', v') m.
Proof.
  induction m as [|[k0 v0] m IH]; simpl.
  - intros [E|[]]. inversion E. now left.
  - destruct (String.eqb k0 k) eqn:Ek; simpl.
    + intros [E|Hin]; [inversion E; now left|right; now right].
    + intros [E|Hin]; [right; now left|]. destruct (IH Hin); [now left|right; now right].
Qed.

Lemma mapSet_keys k v m k' :
  In k' (map fst (mapSet k v m)) <-> k' = k \/ In k' (map fst m).
Proof.
  induction m as [|[k0 v0] m IH]; simpl.
  - intuition.
  - destruct (String.eqb k0 k) eqn:Ek; simpl.
    + apply eqb_true_iff in Ek. subst. intuition.
    + rewrite IH. intuition.
Qed.

Lemma mapSet_NoDup k v m :
  List.NoDup (map fst m) -> List.NoDup (map fst (mapSet k v m)).
Proof.
  induction m as [|[k0 v0] m IH]; simpl; intros Hnd.
  - repeat constructor. intros [].
  - inversion Hnd as [|? ? Hnotin Hnd']; subst.
    destruct (String.eqb k0 k) eqn:Ek; simpl.
    + apply eqb_true_iff in Ek. subst. now constructor.
    + apply String.eqb_neq in Ek. constructor; [|now apply IH].
      rewrite mapSet_keys. intros [E|Hin]; [now subst|contradiction].
Qed.

End MapFacts.

Lemma setAll_In (l : list FideIdStatement) m k s :
  In (k, s) (setAll l m) -> (In s l /\ k = statementFideId s) \/ In (k, s) m.
Proof.
  unfold setAll. revert m. induction l as [|x l IH]; simpl; intros m Hin.
  - now right.
  - destruct (IH _ Hin) as [[Hl Hk]|Hm].
    + left. split; [now right|assumption].
    + destruct (mapSet_In _ _ _ _ _ Hm) as [[-> ->]|Hm'].
      * left. split; [now left|reflexivity].
      * now right.
Qed.

Lemma setAll_keys (l : list FideIdStatement) m k :
  In k (map fst (setAll l m)) <-> In k (map statementFideId l) \/ In k (map fst m).
Proof.
  unfold setAll. revert m. induction l as [|x l IH]; simpl; intros m.
  - intuition.
  - rewrite IH, mapSet_keys. intuition.
Qed.

Lemma setAll_NoDup (l : list FideIdStatement) m :
  List.NoDup (map fst m) -> List.NoDup (map fst (setAll l m)).
Proof.
  unfold setAll. revert m. induction l as [|x l IH]; simpl; intros m Hnd.
  - assumption.
  - apply IH. now apply mapSet_NoDup.
Qed.

Lemma setAll_wellKeyed (l : list FideIdStatement) m :
  wellKeyed m -> wellKeyed (setAll l m).
Proof.
  intros Hm k s Hin. destruct (setAll_In _ _ _ _ Hin) as [[_ Hk]|Hin']; [assumption|].
  now apply Hm.
Qed.

Lemma wellKeyed_ids m :
  wellKeyed m -> map statementFideId (mapValues m) = map fst m.
Proof.
  unfold mapValues. induction m as [|[k s] m IH]; simpl; intros Hm; [reflexivity|].
  rewrite IH.
  - f_equal. symmetry. apply Hm. now left.
  - intros k' s' Hin. apply Hm. now right.
Qed.

Lemma mapValues_In (m : list (string * FideIdStatement)) s :
  In s (mapValues m) <-> exists k, In (k, s) m.
Proof.
  unfold mapValues. rewrite in_map_iff. split.
  - intros [[k s'] [E Hin]]. simpl in E. subst. now exists k.
  - intros [k Hin]. now exists (k, s).
Qed.

(** ** The hops of the closure builder *)

Section ClosureFacts.
Context {fcp : Fcp}.
Variables (target : FideIdStatement) (allStatements : list FideIdStatement).

Lemma validTemporalOf_In s :
  In s (validTemporalOf target allStatements) <-> isValidity target allStatements s.
Proof.
  unfold validTemporalOf, isValidity. rewrite filter_In.
  rewrite andb_true_iff, orb_true_iff, !eqb_true_iff, matchesStatementReference_iff.
  tauto.
Qed.

Lemma in_set_of_map (f : FideIdStatement -> string) (l : list FideIdStatement) (x : string) :
  bool_decide (x ∈ (list_to_set (map f l) : gset string)) = true
  <-> exists v, In v l /\ f v = x.
Proof.
  rewrite bool_decide_eq_true, elem_of_list_to_set, list_elem_of_In, in_map_iff.
  split; intros [v [A B]]; exists v; auto.
Qed.

Lemma citationsOf_In s :
  In s (citationsOf target allStatements) <-> isCitation target allStatements s.
Proof.
  unfold citationsOf, isCitation. rewrite filter_In.
  rewrite andb_true_iff, !orb_true_iff, !eqb_true_iff, !in_set_of_map.
  unfold references. split.
  - intros [Hin [Hp Hc]]. split; [assumption|]. split; [assumption|].
    destruct Hc as [[[[[[v [Hv E]]|[v [Hv E]]]|[v [Hv E]]]|E]|E]|E].
    + left. exists v. split; [now apply validTemporalOf_In|]. left. congruence.
    + left. exists v. split; [now apply validTemporalOf_In|]. right. left. congruence.
    + left. exists v. split; [now apply validTemporalOf_In|]. right. right. congruence.
    + right. now left.
    + right. right. now left.
    + right. right. now right.
  - intros [Hin [Hp Hc]]. split; [assumption|]. split; [assumption|].
    destruct Hc as [[v [Hv [E|[E|E]]]]|[E|[E|E]]].
    + left. left. left. left. left. exists v. split; [now apply validTemporalOf_In|]. congruence.
    + left. left. left. left. right. exists v. split; [now apply validTemporalOf_In|]. congruence.
    + left. left. left. right. exists v. split; [now apply validTemporalOf_In|]. congruence.
    + left. left. now right.
    + left. now right.
    + now right.
Qed.

Lemma onEndpoint_iff s : onEndpoint target s = true <-> touchesEndpoint target s.
Proof. unfold onEndpoint, touchesEndpoint. now rewrite orb_true_iff, !eqb_true_iff. Qed.

Lemma namesOf_In s :
  In s (namesOf target allStatements) <-> isName target allStatements s.
Proof.
  unfold namesOf, isName.
  rewrite filter_In, andb_true_iff, eqb_true_iff, onEndpoint_iff. tauto.
Qed.

Lemma affiliation_predicate_iff (p : string) :
  bool_decide (p ∈ PERSON_AFFILIATION_PREDICATES) = true
  <-> p = "https://schema.org/worksFor" \/ p = "https://schema.org/memberOf"
      \/ p = "https://schema.org/affiliation".
Proof.
  rewrite bool_decide_eq_true. unfold PERSON_AFFILIATION_PREDICATES.
  rewrite !elem_of_union, !elem_of_singleton. tauto.
Qed.

Lemma affiliationsOf_In s :
  In s (affiliationsOf target allStatements) <-> isAffiliation target allStatements s.
Proof.
  unfold affiliationsOf, isAffiliation.
  rewrite filter_In, andb_true_iff, affiliation_predicate_iff, onEndpoint_iff. tauto.
Qed.

Lemma contradictionsOf_In s :
  In s (contradictionsOf target allStatements) <-> isContradiction target allStatements s.
Proof.
  unfold contradictionsOf, isContradiction.
  rewrite filter_In, andb_true_iff, orb_true_iff, !andb_true_iff, !eqb_true_iff. tauto.
Qed.

Lemma subjectIsOneOf_iff (sources : list FideIdStatement) s :
  subjectIsOneOf (map objectNode sources) s = true
  <-> exists c, In c sources /\ subjectEqualsObjectOf s c.
Proof.
  unfold subjectIsOneOf, Js.some, subjectEqualsObjectOf.
  rewrite existsb_exists. split.
  - intros [node [Hin Hb]]. apply in_map_iff in Hin as [c [<- Hc]].
    exists c. split; [assumption|].
    simpl in Hb. now rewrite orb_true_iff, !eqb_true_iff in Hb.
  - intros [c [Hc Hs]]. exists (objectNode c). split; [now apply in_map|].
    simpl. now rewrite orb_true_iff, !eqb_true_iff.
Qed.

Lemma reportStatementsOf_In s :
  In s (reportStatementsOf target allStatements) <-> isReportBody target allStatements s.
Proof.
  unfold reportStatementsOf, isReportBody.
  rewrite filter_In, subjectIsOneOf_iff. split.
  - intros [Hin [c [Hc Hs]]]. split; [assumption|]. exists c. split; [now apply citationsOf_In|assumption].
  - intros [Hin [c [Hc Hs]]]. split; [assumption|]. exists c. split; [now apply citationsOf_In|assumption].
Qed.

Lemma propertyNodeStatementsOf_In s :
  In s (propertyNodeStatementsOf target allStatements) <-> isReportProperty target allStatements s.
Proof.
  unfold propertyNodeStatementsOf, isReportProperty.
  rewrite filter_In, subjectIsOneOf_iff. split.
  - intros [Hin [r [Hr Hs]]]. split; [assumption|]. exists r.
    apply filter_In in Hr as [Hr Hp]. apply eqb_true_iff in Hp.
    split; [now apply reportStatementsOf_In|]. now split.
  - intros [Hin [r [Hr [Hp Hs]]]]. split; [assumption|]. exists r. split; [|assumption].
    apply filter_In. split; [now apply reportStatementsOf_In|now apply eqb_true_iff].
Qed.

Lemma setCalls_In s : In s (setCalls target allStatements) <-> InClosureHops target allStatements s.
Proof.
  unfold setCalls, InClosureHops.
  rewrite !in_app_iff. simpl.
  rewrite validTemporalOf_In, citationsOf_In, namesOf_In, affiliationsOf_In,
    contradictionsOf_In, reportStatementsOf_In, propertyNodeStatementsOf_In.
  intuition.
Qed.

Lemma closure_as_setAll :
  buildPersonPromptContextStatements target allStatements = mapValues (setAll (setCalls target allStatements) []).
Proof.
  unfold buildPersonPromptContextStatements, setCalls, setAll.
  now rewrite !fold_left_app.
Qed.

Lemma closure_hops_core :
  let closure := buildPersonPromptContextStatements target allStatements in
  (forall s, In s closure -> InClosureHops target allStatements s)
  /\ (forall s, InClosureHops target allStatements s ->
        exists s', In s' closure /\ statementFideId s' = statementFideId s
                   /\ InClosureHops target allStatements s')
  /\ List.NoDup (map statementFideId closure).
Proof.
  cbv zeta. rewrite closure_as_setAll.
  assert (Hwk : wellKeyed (setAll (setCalls target allStatements) [])).
  { apply setAll_wellKeyed. intros k s []. }
  assert (Hsub : forall s, In s (mapValues (setAll (setCalls target allStatements) [])) ->
                           InClosureHops target allStatements s).
  { intros s Hs. apply mapValues_In in Hs as [k Hk].
    apply setAll_In in Hk as [[Hl _]|[]]. now apply setCalls_In. }
  split; [exact Hsub|]. split.
  - intros s Hs. apply setCalls_In in Hs.
    assert (Hk : In (statementFideId s) (map fst (setAll (setCalls target allStatements) []))).
    { apply setAll_keys. left. now apply in_map. }
    apply in_map_iff in Hk as [[k s'] [Ek Hin]]. simpl in Ek. subst k.
    assert (Hs' : In s' (mapValues (setAll (setCalls target allStatements) []))) by (apply mapValues_In; eauto).
    exists s'. split; [assumption|]. split; [|now apply Hsub].
    symmetry. now apply Hwk.
  - rewrite wellKeyed_ids by assumption. apply setAll_NoDup. constructor.
Qed.

(** C1. The closure is the union of the target and the named hops
    (validity, citations, names, affiliations, contradictions, report bodies,
    report properties), deduplicated by statement identifier: every statement
    of the closure is in the union; every statement of the union has its
    statement identifier in the closure; no two statements of the closure
    share a statement identifier; the target's identifier is always there.
    When a statement identifier names one statement among the target and the
    hops, the closure holds exactly the statements of the union, the target
    itself among them. *)
Theorem closure_is_union_of_hops :
  let closure := buildPersonPromptContextStatements target allStatements in
  (forall s, In s closure -> InClosureHops target allStatements s)
  /\ (forall s, InClosureHops target allStatements s ->
        exists s', In s' closure /\ statementFideId s' = statementFideId s)
  /\ List.NoDup (map statementFideId closure)
  /\ In (statementFideId target) (map statementFideId closure)
  /\ ((forall a b, InClosureHops target allStatements a -> InClosureHops target allStatements b ->
                  statementFideId a = statementFideId b -> a = b) ->
      (forall s, In s closure <-> InClosureHops target allStatements s)
      /\ In target closure).
Proof.
  destruct closure_hops_core as [Hsub [Hrep Hnd]]. cbv zeta in *.
  split; [exact Hsub|]. split; [|split; [exact Hnd|split]].
  - intros s Hs. destruct (Hrep s Hs) as [s' [Hin [Eid _]]]. eauto.
  - destruct (Hrep target) as [t [Ht [Eid _]]]; [now left|].
    rewrite <- Eid. now apply in_map.
  - intros Hinj.
    assert (forall s, InClosureHops target allStatements s ->
                      In s (buildPersonPromptContextStatements target allStatements)) as Hsup.
    { intros s Hs. destruct (Hrep s Hs) as [s' [Hin [Eid Hs']]].
      now rewrite <- (Hinj s' s Hs' Hs Eid). }
    split.
    + intros s. split; [apply Hsub|apply Hsup].
    + apply Hsup. now left.
Qed.

End ClosureFacts.

(** The closure of the example claim: the target first, then the hops in
    the order the builder visits them; the unrelated statement is left out. *)
Example closure_of_report_graph :
  buildPersonPromptContextStatements (fcp := Example.standInFcp) Example.claim Example.reportGraph
  = [Example.claim; Example.validFrom2022; Example.validFrom2021;
     Example.reportOf2021; Example.blogOf2022; Example.nameOfAlice;
     Example.reportProperty; Example.reportVersion; Example.propertyValue].
Proof. vm_compute. reflexivity. Qed.

(** On the example graph identifiers name one statement each, and the
    closure is the union itself. *)
Lemma closure_is_union_of_hops_witness :
  (forall a b,
     InClosureHops (fcp := Example.standInFcp) Example.claim Example.reportGraph a ->
     InClosureHops (fcp := Example.standInFcp) Example.claim Example.reportGraph b ->
     statementFideId a = statementFideId b -> a = b)
  /\ (forall s,
        In s (buildPersonPromptContextStatements (fcp := Example.standInFcp)
                Example.claim Example.reportGraph)
        <-> InClosureHops (fcp := Example.standInFcp) Example.claim Example.reportGraph s)
  /\ In Example.claim
       (buildPersonPromptContextStatements (fcp := Example.standInFcp)
          Example.claim Example.reportGraph).
Proof.
  assert (Hinj : forall a b,
     InClosureHops (fcp := Example.standInFcp) Example.claim Example.reportGraph a ->
     InClosureHops (fcp := Example.standInFcp) Example.claim Example.reportGraph b ->
     statementFideId a = statementFideId b -> a = b).
  { intros a b Ha Hb.
    apply (setCalls_In (fcp := Example.standInFcp)) in Ha, Hb.
    vm_compute in Ha, Hb.
    repeat (destruct Ha as [<-|Ha]; [|]); try contradiction;
      repeat (destruct Hb as [<-|Hb]; [|]); try contradiction;
      intros E; first [reflexivity|discriminate E]. }
  split; [exact Hinj|].
  exact (proj2 (proj2 (proj2 (proj2
           (closure_is_union_of_hops (fcp := Example.standInFcp)
              Example.claim Example.reportGraph)))) Hinj).
Defined.

(** C1 as the specification words it fails when another statement of
    the hops carries the statement identifier of the target: the map keeps
    one statement per identifier, the later one, so the closure of the claim
    over its twin is the twin alone. The target is in the union and not in
    the closure. *)
Lemma target_can_be_replaced_in_closure :
  buildPersonPromptContextStatements (fcp := Example.standInFcp) Example.claim [Example.twin]
  = [Example.twin]
  /\ InClosureHops (fcp := Example.standInFcp) Example.claim [Example.twin] Example.claim
  /\ ~ In Example.claim
         (buildPersonPromptContextStatements (fcp := Example.standInFcp)
            Example.claim [Example.twin])
  /\ ~ (forall s,
          In s (buildPersonPromptContextStatements (fcp := Example.standInFcp)
                  Example.claim [Example.twin])
          <-> InClosureHops (fcp := Example.standInFcp) Example.claim [Example.twin] s).
Proof.
  assert (E : buildPersonPromptContextStatements (fcp := Example.standInFcp)
                Example.claim [Example.twin] = [Example.twin])
    by (vm_compute; reflexivity).
  assert (Hout : ~ In Example.claim
                     (buildPersonPromptContextStatements (fcp := Example.standInFcp)
                        Example.claim [Example.twin])).
  { rewrite E. intros [Heq|[]]. discriminate Heq. }
  split; [exact E|]. split; [now left|]. split; [exact Hout|].
  intros Hall. apply Hout. apply Hall. now left.
Qed.

(** ** The primary identity resolver *)

Lemma Sorted_weaken {A : Type} (R R' : A -> A -> Prop) (l : list A) :
  (forall a b, R a b -> R' a b) -> Sorted R l -> Sorted R' l.
Proof.
  intros Himp. induction 1 as [|x l Hs IH Hhd]; constructor; [assumption|].
  destruct Hhd; constructor. now apply Himp.
Qed.

Section CompareFacts.
Context {host : Host}.
Hypothesis Hlc : ConsistentCompare localeCompare.

Lemma localeCompare_lt_trans (a b c : string) :
  localeCompare a b < 0 -> localeCompare b c < 0 -> localeCompare a c < 0.
Proof.
  intros Hab Hbc.
  assert (localeCompare a c <= 0) as Hle by (apply (cc_trans _ Hlc a b c); lia).
  destruct (Z.eq_dec (localeCompare a c) 0) as [E|]; [|lia].
  apply (cc_eq _ Hlc) in E. subst c.
  apply (cc_anti _ Hlc) in Hab. lia.
Qed.

Lemma localeCompare_refl (a : string) : localeCompare a a = 0.
Proof. now apply (cc_eq _ Hlc). Qed.

Lemma localeCompare_total (a b : string) :
  localeCompare a b <= 0 \/ localeCompare b a < 0.
Proof.
  destruct (Z_le_gt_dec (localeCompare a b) 0) as [|Hgt]; [now left|right].
  apply (cc_anti _ Hlc). lia.
Qed.

Lemma compareCandidates_keys (a b : Candidate) :
  compareCandidates a b =
  if negb (firstSeenKey a =? firstSeenKey b) then firstSeenKey a - firstSeenKey b
  else if negb (String.eqb (idKey a) (idKey b)) then localeCompare (idKey a) (idKey b)
  else localeCompare (c_subjectRawIdentifier a) (c_subjectRawIdentifier b).
Proof. reflexivity. Qed.

Lemma compareCandidates_le (a b : Candidate) :
  compareCandidates a b <= 0 <-> rankedBefore a b.
Proof.
  rewrite compareCandidates_keys. unfold rankedBefore.
  destruct (Z.eqb_spec (firstSeenKey a) (firstSeenKey b)) as [Et|Nt]; simpl.
  - destruct (String.eqb_spec (idKey a) (idKey b)) as [Ei|Ni]; simpl.
    + split.
      * intros Hle. right. split; [assumption|]. right. now split.
      * intros [Hlt|[_ [Hlt|[_ Hle]]]]; [lia| |assumption].
        rewrite Ei, localeCompare_refl in Hlt. lia.
    + split.
      * intros Hle. right. split; [assumption|]. left.
        destruct (Z.eq_dec (localeCompare (idKey a) (idKey b)) 0) as [E|]; [|lia].
        apply (cc_eq _ Hlc) in E. contradiction.
      * intros [Hlt|[_ [Hlt|[Ei _]]]]; [lia|lia|contradiction].
  - split.
    + intros Hle. left. lia.
    + intros [Hlt|[Et _]]; [lia|contradiction].
Qed.

Lemma rankedBefore_total (a b : Candidate) : rankedBefore a b \/ rankedBefore b a.
Proof.
  unfold rankedBefore.
  destruct (Z.lt_trichotomy (firstSeenKey a) (firstSeenKey b)) as [Hlt|[Et|Hgt]];
    [left; now left| |right; now left].
  destruct (localeCompare_total (idKey a) (idKey b)) as [Hle|Hlt].
  - destruct (Z.eq_dec (localeCompare (idKey a) (idKey b)) 0) as [E|Hne].
    + apply (cc_eq _ Hlc) in E.
      destruct (localeCompare_total (c_subjectRawIdentifier a) (c_subjectRawIdentifier b)) as [Hr|Hr].
      * left. right. split; [assumption|]. right. now split.
      * right. right. split; [now symmetry|]. right. split; [now symmetry|lia].
    + left. right. split; [assumption|]. left. lia.
  - right. right. split; [now symmetry|]. now left.
Qed.

Lemma rankedBefore_trans (a b c : Candidate) :
  rankedBefore a b -> rankedBefore b c -> rankedBefore a c.
Proof.
  unfold rankedBefore.
  intros [Hab|[Eab Xab]] [Hbc|[Ebc Xbc]]; try (left; lia).
  right. split; [congruence|].
  destruct Xab as [Lab|[Iab Rab]], Xbc as [Lbc|[Ibc Rbc]].
  - left. eapply localeCompare_lt_trans; eassumption.
  - left. now rewrite <- Ibc.
  - left. now rewrite Iab.
  - right. split; [congruence|]. eapply (cc_trans _ Hlc); eassumption.
Qed.

Lemma compareCandidates_Ordering : Ordering compareCandidates.
Proof.
  constructor.
  - intros a b. rewrite !compareCandidates_le. apply rankedBefore_total.
  - intros a b c. rewrite !compareCandidates_le. apply rankedBefore_trans.
Qed.

End CompareFacts.

(** Under comparison by code unit and within the sentinels, the rank the
    code computes is the rank of the specification. *)
Lemma rankedBefore_agrees_with_spec (a b : Candidate) :
  withinSentinels a -> withinSentinels b ->
  (rankedBefore (host := Example.codeUnitHost) a b <-> specCompare a b <> Gt).
Proof.
  intros [Hta Hia] [Htb Hib].
  assert (Ets : missingLast Z.compare (c_firstSeenAt a) (c_firstSeenAt b)
                = Z.compare (firstSeenKey a) (firstSeenKey b)).
  { unfold firstSeenKey.
    destruct (c_firstSeenAt a) as [ta|], (c_firstSeenAt b) as [tb|]; cbn [missingLast].
    - reflexivity.
    - symmetry. apply Z.compare_lt_iff. now apply Hta.
    - symmetry. apply Z.compare_gt_iff. now apply Htb.
    - symmetry. apply Z.compare_refl. }
  assert (Eid : missingLast String.compare (c_statementFideId a) (c_statementFideId b)
                = String.compare (idKey a) (idKey b)).
  { unfold idKey.
    destruct (c_statementFideId a) as [ia|], (c_statementFideId b) as [ib|]; cbn [missingLast].
    - reflexivity.
    - symmetry. now apply Hia.
    - rewrite (String.compare_antisym "~" ib), (Hib ib eq_refl). reflexivity.
    - reflexivity. }
  unfold specCompare. rewrite Ets, Eid. unfold rankedBefore.
  cbn [localeCompare Example.codeUnitHost].
  rewrite codeUnitCompare_lt, codeUnitCompare_le, <- (string_compare_Eq_iff (idKey a) (idKey b)).
  destruct (Z.compare_spec (firstSeenKey a) (firstSeenKey b)) as [Et|Hlt|Hgt];
    destruct (String.compare (idKey a) (idKey b));
    destruct (String.compare (c_subjectRawIdentifier a) (c_subjectRawIdentifier b));
    split; intros Hyp; try congruence; try lia;
    try (left; lia);
    try (right; split; [assumption|]; first [left; reflexivity|right; split; congruence]);
    destruct Hyp as [Hyp|[Heq [Hyp|[Hyp Hyp']]]]; try lia; congruence.
Qed.

Section ResolverFacts.
Context {fcp : Fcp} {host : Host}.

(** The ranking as the code has it. For a host collation that is a
    consistent comparator, sorting the surviving candidates rearranges them into
    ascending rank, where the rank compares first-seen timestamps with a
    missing timestamp standing as 2^53 - 1, then statement identifiers under
    the host's [localeCompare] with a missing identifier standing as the
    string ["~"], then subject raw values under [localeCompare]. The winner
    ranks no later than every candidate, and it has a timestamp whenever some
    candidate has one below 2^53 - 1. *)
Theorem candidates_are_ranked
    (candidates : list Candidate) (winner : Candidate) (others : list Candidate) :
  ConsistentCompare localeCompare ->
  Js.sort compareCandidates candidates = winner :: others ->
  Permutation candidates (winner :: others)
  /\ Sorted rankedBefore (winner :: others)
  /\ (forall c, In c candidates -> rankedBefore winner c)
  /\ (forall c t, In c candidates -> c_firstSeenAt c = Some t -> t < Js.MAX_SAFE_INTEGER ->
        exists tw, c_firstSeenAt winner = Some tw /\ tw <= t).
Proof.
  intros Hlc Hsort.
  pose proof (compareCandidates_Ordering Hlc) as Hord.
  assert (Hmin : forall c, In c candidates -> rankedBefore winner c).
  { intros c Hc. apply (compareCandidates_le Hlc).
    eapply sort_head_le; eassumption. }
  split; [|split; [|split]].
  - rewrite <- Hsort. apply sort_Permutation.
  - rewrite <- Hsort.
    eapply Sorted_weaken; [|apply (sort_Sorted _ Hord)].
    intros a b. apply (compareCandidates_le Hlc).
  - exact Hmin.
  - intros c t Hc Ht Hbound. specialize (Hmin c Hc).
    unfold rankedBefore, firstSeenKey in Hmin. rewrite Ht in Hmin.
    destruct (c_firstSeenAt winner) as [tw|].
    + exists tw. split; [reflexivity|]. destruct Hmin as [Hlt|[Heq _]]; lia.
    + destruct Hmin as [Hlt|[Heq _]]; lia.
Qed.

Lemma validFromCandidatesOf_app (K : gset string) (l1 l2 : list ScenarioStatement) :
  validFromCandidatesOf K (l1 ++ l2) = validFromCandidatesOf K l1 ++ validFromCandidatesOf K l2.
Proof.
  induction l1 as [|row l1 IH]; simpl; [reflexivity|].
  destruct (candidateOf K row); simpl; now rewrite IH.
Qed.

Lemma validFromCandidatesOf_In (K : gset string) (l : list ScenarioStatement) (c : Candidate) :
  In c (validFromCandidatesOf K l) <-> exists row, In row l /\ candidateOf K row = Some c.
Proof.
  induction l as [|row l IH]; simpl.
  - split; [intros []|intros [? [[] _]]].
  - destruct (candidateOf K row) as [c'|] eqn:E; simpl; rewrite IH; split.
    + intros [->|[r [Hr Hc]]]; [exists row; auto|exists r; auto].
    + intros [r [[->|Hr] Hc]]; [left; congruence|right; eauto].
    + intros [r [Hr Hc]]. exists r; auto.
    + intros [r [[->|Hr] Hc]]; [congruence|eauto].
Qed.

Lemma candidateOf_Some_iff (K : gset string) (row : ScenarioStatement) (c : Candidate) :
  candidateOf K row = Some c <-> rederivesInto K row /\ c = candidateRecord row.
Proof.
  unfold candidateOf, rederivesInto, threePrefixedParts, candidateRecord.
  destruct (String.eqb_spec (predicate_raw_identifier row) "https://schema.org/validFrom") as [Ep|Np];
    simpl; [|split; [discriminate|intros [[? _] _]; contradiction]].
  destruct (String.eqb_spec (subject_type row) "Statement") as [Es|Ns];
    simpl; [|split; [discriminate|intros [[_ [? _]] _]; contradiction]].
  destruct (List.length (Js.split pipe (subject_raw_identifier row)) =? 3)%nat eqn:El;
    simpl; [|split; [discriminate|intros [[_ [_ [? _]]] _]; discriminate]].
  destruct (forallb _ (Js.split pipe (subject_raw_identifier row))) eqn:Ef;
    simpl; [|split; [discriminate|intros [[_ [_ [? _]]] _]; discriminate]].
  destruct (Js.split pipe (subject_raw_identifier row)) as [|p0 [|p1 [|p2 [|p3 rest]]]];
    try discriminate El.
  destruct (calculateStatementFideId p0 p1 p2) as [id|] eqn:Ec.
  - destruct (bool_decide (id ∈ K)) eqn:Ek; simpl.
    + apply bool_decide_eq_true in Ek. split.
      * intros E. inversion E. split; [|reflexivity].
        split; [assumption|]. split; [assumption|]. split; [reflexivity|].
        exists p0, p1, p2, id. auto.
      * intros [_ ->]. reflexivity.
    + apply bool_decide_eq_false in Ek. split; [discriminate|].
      intros [[_ [_ [_ [q0 [q1 [q2 [id' [Eq [Ec' Hin]]]]]]]]] _].
      inversion Eq; subst. rewrite Ec in Ec'. inversion Ec'; subst. contradiction.
  - split; [discriminate|].
    intros [[_ [_ [_ [q0 [q1 [q2 [id' [Eq [Ec' Hin]]]]]]]]] _].
    inversion Eq; subst. congruence.
Qed.

Lemma candidateOf_malformed (K : gset string) (row : ScenarioStatement) :
  malformedSubject row -> candidateOf K row = None.
Proof.
  intros Hbad. destruct (candidateOf K row) as [c|] eqn:E; [|reflexivity].
  apply candidateOf_Some_iff in E as [[_ [_ [Hparts [p0 [p1 [p2 [id [Es [Ec _]]]]]]]]] _].
  destruct Hbad as [Hbad|[q0 [q1 [q2 [Eq Hnone]]]]]; [congruence|].
  rewrite Es in Eq. inversion Eq; subst. congruence.
Qed.

(** The set [K] holds the non-empty statement identifiers of the rows it
    was built from. *)
Lemma sameAsStatementIdSetOf_elem (rows : list ScenarioStatement) (id : string) :
  id ∈ sameAsStatementIdSetOf rows
  <-> exists row, In row rows /\ statement_fide_id row = Some id /\ id <> EmptyString.
Proof.
  unfold sameAsStatementIdSetOf.
  assert (Hgen : forall (acc : gset string),
    id ∈ fold_left (fun acc row =>
            if Js.truthy (statement_fide_id row)
            then match statement_fide_id row with Some i => {[ i ]} ∪ acc | None => acc end
            else acc) rows acc
    <-> id ∈ acc \/ exists row, In row rows /\ statement_fide_id row = Some id /\ id <> EmptyString).
  { induction rows as [|row rows IH]; intros acc; simpl.
    - split; [now left|]. intros [|[? [[] _]]]. assumption.
    - rewrite IH. unfold Js.truthy.
      destruct (statement_fide_id row) as [i|] eqn:Ei.
      + destruct (String.eqb_spec i EmptyString) as [E0|N0]; simpl.
        * split.
          -- intros [Ha|[r [Hr Hx]]]; [now left|right; exists r; auto].
          -- intros [Ha|[r [[<-|Hr] [Hx Hne]]]]; [now left| |right; exists r; auto].
             rewrite Ei in Hx. inversion Hx; subst. contradiction.
        * rewrite elem_of_union, elem_of_singleton. split.
          -- intros [[->|Ha]|[r [Hr Hx]]]; [right; exists row; auto|now left|right; exists r; auto].
          -- intros [Ha|[r [[<-|Hr] [Hx Hne]]]]; [left; now right| |right; exists r; auto].
             rewrite Ei in Hx. inversion Hx; subst. left. now left.
      + split.
        * intros [Ha|[r [Hr Hx]]]; [now left|right; exists r; auto].
        * intros [Ha|[r [[<-|Hr] [Hx Hne]]]]; [now left|congruence|right; exists r; auto]. }
  rewrite Hgen. split; [intros [Hin|Hex]; [|assumption]|now right].
  now apply not_elem_of_empty in Hin.
Qed.

(** The set the resolver builds holds the focal same-as claim identifiers
    of the data. *)
Lemma focalClaimIds_elem (config : FixtureConfig) (statements : list ScenarioStatement)
    (focalIdentifier : string) (id : string) :
  id ∈ focalClaimIds config statements focalIdentifier
  <-> focalClaimId config statements focalIdentifier id.
Proof.
  unfold focalClaimIds, focalClaimId, isFocalClaim.
  rewrite sameAsStatementIdSetOf_elem. split.
  - intros [row [Hrow [Hid Hne]]]. split; [exact Hne|].
    apply filter_In in Hrow as [Hrow Hfocal]. unfold isFocalSameAs in Hfocal.
    apply andb_true_iff in Hfocal as [Hfocal Hends].
    apply andb_true_iff in Hfocal as [Hp Ht].
    apply String.eqb_eq in Hp. apply String.eqb_eq in Ht.
    exists row. split; [exact Hrow|]. split; [|exact Hid].
    split; [exact Hp|]. split; [exact Ht|].
    apply orb_true_iff in Hends as [H|H]; apply String.eqb_eq in H; auto.
  - intros [Hne [row [Hrow [[Hp [Ht Hends]] Hid]]]].
    exists row. split; [|split; assumption].
    apply filter_In. split; [exact Hrow|]. unfold isFocalSameAs.
    rewrite Hp, Ht, !String.eqb_refl. simpl.
    destruct Hends as [->| ->]; rewrite String.eqb_refl; [reflexivity|apply orb_true_r].
Qed.

Lemma rederivesInto_focal (config : FixtureConfig) (statements : list ScenarioStatement)
    (focalIdentifier : string) (row : ScenarioStatement) :
  rederivesInto (focalClaimIds config statements focalIdentifier) row
  <-> rederivesToFocalClaim config statements focalIdentifier row.
Proof.
  unfold rederivesInto, rederivesToFocalClaim.
  split; intros [Hp [Hs [Hparts [p0 [p1 [p2 [id [Esplit [Eid Hid]]]]]]]]];
    (split; [exact Hp|]); (split; [exact Hs|]); (split; [exact Hparts|]);
    exists p0, p1, p2, id; (split; [exact Esplit|]); (split; [exact Eid|]);
    now apply focalClaimIds_elem.
Qed.

(** The candidates of the resolver are the records of the rows that
    re-derive to a focal same-as claim. *)
Lemma candidates_on_data (config : FixtureConfig) (statements : list ScenarioStatement)
    (focalIdentifier : string) (c : Candidate) :
  In c (validFromCandidatesOf (focalClaimIds config statements focalIdentifier) statements)
  <-> exists row, In row statements
        /\ rederivesToFocalClaim config statements focalIdentifier row
        /\ c = candidateRecord row.
Proof.
  rewrite validFromCandidatesOf_In. split.
  - intros [row [Hrow Hc]]. apply candidateOf_Some_iff in Hc as [Hre ->].
    exists row. split; [exact Hrow|]. split; [now apply rederivesInto_focal|reflexivity].
  - intros [row [Hrow [Hre ->]]]. exists row. split; [exact Hrow|].
    apply candidateOf_Some_iff. split; [now apply rederivesInto_focal|reflexivity].
Qed.

(** The head of a sorted array whose elements are two values, one of which
    the comparator puts strictly first. *)
Lemma sort_head_of_two {A : Type} (cmp : A -> A -> Z) (first second : A) (l : list A) :
  (cmp first second <=? 0) = true ->
  (cmp second first <=? 0) = false ->
  (forall x, In x l -> x = first \/ x = second) ->
  In first l ->
  exists rest, Js.sort cmp l = first :: rest.
Proof.
  intros Hfs Hsf.
  assert (Hmembers : forall m, (forall x, In x m -> x = first \/ x = second) ->
            forall x, In x (Js.sort cmp m) -> x = first \/ x = second).
  { intros m Hm x Hx. apply Hm. now apply (sort_In cmp m x). }
  induction l as [|x l IH]; intros Hall Hin; [destruct Hin|].
  assert (Hl : forall y, In y l -> y = first \/ y = second)
    by (intros y Hy; apply Hall; now right).
  simpl.
  destruct (Hall x (or_introl eq_refl)) as [->| ->].
  - destruct (Js.sort cmp l) as [|y sorted] eqn:Esorted; [now exists []|].
    simpl. destruct (cmp first y <=? 0) eqn:Ey; [eauto|].
    destruct (Hmembers l Hl y) as [->| ->]; [rewrite Esorted; now left|eauto|congruence].
  - destruct Hin as [E|Hin].
    { subst first. congruence. }
    destruct (IH Hl Hin) as [rest Erest]. rewrite Erest. simpl. rewrite Hsf. eauto.
Qed.

(** The resolver anchors at a row that re-derives to a focal same-as claim
    when every such row is that row or a second one, and the comparator puts
    the record of the first strictly before the record of the second. *)
Lemma anchor_of_two (config : FixtureConfig) (statements : list ScenarioStatement)
    (focalIdentifier : string) (first second : ScenarioStatement) (primary : string) :
  In first statements ->
  rederivesToFocalClaim config statements focalIdentifier first ->
  (forall row, In row statements ->
     rederivesToFocalClaim config statements focalIdentifier row ->
     row = first \/ row = second) ->
  (compareCandidates (candidateRecord first) (candidateRecord second) <=? 0) = true ->
  (compareCandidates (candidateRecord second) (candidateRecord first) <=? 0) = false ->
  calculateFideId (entityType config) "Statement" (subject_raw_identifier first) = Some primary ->
  findPrimaryFideId config statements focalIdentifier = Some (Some (anchoredAt first primary)).
Proof.
  intros Hin Hfirst Honly Hfs Hsf Hprimary.
  unfold findPrimaryFideId. fold (focalClaimIds config statements focalIdentifier).
  set (K := focalClaimIds config statements focalIdentifier).
  assert (Hhead : In (candidateRecord first) (validFromCandidatesOf K statements)).
  { apply candidates_on_data. eauto. }
  assert (Hall : forall c, In c (validFromCandidatesOf K statements) ->
                   c = candidateRecord first \/ c = candidateRecord second).
  { intros c Hc. apply candidates_on_data in Hc as [row [Hrow [Hre ->]]].
    destruct (Honly row Hrow Hre) as [->| ->]; auto. }
  destruct (sort_head_of_two compareCandidates _ _ _ Hfs Hsf Hall Hhead) as [rest Esort].
  destruct (validFromCandidatesOf K statements) as [|c0 cs]; [destruct Hhead|].
  rewrite Esort. cbn [c_subjectRawIdentifier candidateRecord]. rewrite Hprimary. reflexivity.
Qed.

(** C7. The resolver answers unresolved exactly when no validFrom
    statement about a statement re-derives, through the statement-identity
    function applied to the three pipe-separated components of its subject,
    to the statement identifier of a focal same-as claim of the statement
    list. Otherwise it anchors at one of the rows that re-derive so: it
    returns the result built from that row, and it fails only if the identity
    function throws on the entity type of the configuration and the anchored
    claim. On well-formed input, where the identity function accepts the
    configured entity type, it therefore returns for every statement list,
    either a result or the unresolved answer. *)
Theorem findPrimaryFideId_total
    (config : FixtureConfig) (statements : list ScenarioStatement) (focalIdentifier : string) :
  (findPrimaryFideId config statements focalIdentifier = Some None
   <-> ~ exists row, In row statements
                     /\ rederivesToFocalClaim config statements focalIdentifier row)
  /\ ((exists row, In row statements
                   /\ rederivesToFocalClaim config statements focalIdentifier row) ->
      exists anchorRow,
        In anchorRow statements
        /\ rederivesToFocalClaim config statements focalIdentifier anchorRow
        /\ findPrimaryFideId config statements focalIdentifier
           = match calculateFideId (entityType config) "Statement"
                     (subject_raw_identifier anchorRow) with
             | Some primary => Some (Some (anchoredAt anchorRow primary))
             | None => None
             end)
  /\ ((forall raw, is_Some (calculateFideId (entityType config) "Statement" raw)) ->
      exists answer, findPrimaryFideId config statements focalIdentifier = Some answer).
Proof.
  unfold findPrimaryFideId. fold (focalClaimIds config statements focalIdentifier).
  set (K := focalClaimIds config statements focalIdentifier).
  pose proof (candidates_on_data config statements focalIdentifier) as Hdata. fold K in Hdata.
  destruct (validFromCandidatesOf K statements) as [|c0 cs] eqn:Ecands.
  - assert (Hnone : ~ exists row, In row statements
                       /\ rederivesToFocalClaim config statements focalIdentifier row).
    { intros [row [Hrow Hre]].
      apply (proj2 (Hdata (candidateRecord row))). eauto. }
    split; [split; [intros _; exact Hnone|reflexivity]|].
    split; [intros Hex; contradiction|eauto].
  - destruct (Js.sort compareCandidates (c0 :: cs)) as [|winner others] eqn:Esort.
    { apply sort_nil_iff in Esort. discriminate. }
    assert (Hw : In winner (c0 :: cs)).
    { apply (sort_In compareCandidates). rewrite Esort. now left. }
    apply Hdata in Hw as [anchorRow [Hrow [Hre ->]]].
    cbn [c_subjectRawIdentifier c_statementFideId c_firstSeenAt candidateRecord].
    split; [|split].
    + split.
      * destruct (calculateFideId _ _ _); discriminate.
      * intros Hno. exfalso. apply Hno. eauto.
    + intros _. exists anchorRow. split; [exact Hrow|]. split; [exact Hre|].
      destruct (calculateFideId _ _ _); reflexivity.
    + intros Htotal. destruct (Htotal (subject_raw_identifier anchorRow)) as [primary ->].
      eauto.
Qed.

(** C10. A validFrom statement whose subject raw value is not three
    pipe-separated components with the identifier prefix, or on whose
    components the statement-identity function throws, never becomes a
    candidate, and the resolver answers as it does on the statement list
    without it. *)
Theorem malformed_validFrom_is_skipped
    (config : FixtureConfig) (before after : list ScenarioStatement)
    (row : ScenarioStatement) (focalIdentifier : string) :
  predicate_raw_identifier row = "https://schema.org/validFrom" ->
  malformedSubject row ->
  (forall K, candidateOf K row = None)
  /\ findPrimaryFideId config (before ++ row :: after) focalIdentifier
     = findPrimaryFideId config (before ++ after) focalIdentifier.
Proof.
  intros Hpred Hbad.
  assert (Hnone : forall K, candidateOf K row = None)
    by (intros K; now apply candidateOf_malformed).
  split; [exact Hnone|].
  unfold findPrimaryFideId.
  assert (Hfilter : List.filter (isFocalSameAs config focalIdentifier) (before ++ row :: after)
                    = List.filter (isFocalSameAs config focalIdentifier) (before ++ after)).
  { rewrite !List.filter_app. simpl.
    unfold isFocalSameAs at 2. rewrite Hpred. reflexivity. }
  rewrite Hfilter.
  rewrite !validFromCandidatesOf_app. simpl. rewrite Hnone. reflexivity.
Qed.

End ResolverFacts.

Section ResolverExamples.
Context {fcp : Fcp} {host : Host}.

(** C8, as the code has it. With exactly two anchor candidates, one first
    seen on 2021-01-01 and one first seen on 2022-06-01, the resolver anchors
    at the one first seen on 2021-01-01, wherever the two stand in the
    statement list and whatever dates their validFrom values are. *)
Theorem earlier_seen_candidate_is_anchor
    (config : FixtureConfig) (statements : list ScenarioStatement) (focalIdentifier : string)
    (early late : ScenarioStatement) (primary : string) :
  In early statements ->
  In late statements ->
  rederivesToFocalClaim config statements focalIdentifier early ->
  rederivesToFocalClaim config statements focalIdentifier late ->
  (forall row, In row statements ->
     rederivesToFocalClaim config statements focalIdentifier row ->
     row = early \/ row = late) ->
  first_created_at early = Some t_2021_01_01 ->
  first_created_at late = Some t_2022_06_01 ->
  calculateFideId (entityType config) "Statement" (subject_raw_identifier early) = Some primary ->
  findPrimaryFideId config statements focalIdentifier = Some (Some (anchoredAt early primary)).
Proof.
  intros Hearly _ Hre _ Honly He Hl Hprimary.
  apply (anchor_of_two config statements focalIdentifier early late primary);
    try assumption.
  - unfold compareCandidates, candidateRecord; simpl. rewrite He, Hl. reflexivity.
  - unfold compareCandidates, candidateRecord; simpl. rewrite He, Hl. reflexivity.
Qed.

(** C2. Between two anchor candidates first seen at the same time, one
    with a statement identifier and one without, the specification ranks the
    one with the identifier first. The resolver stands the string ["~"] for
    the missing identifier and compares with the collation of the host: under
    a collation that puts ["~"] before the identifier, the candidate without
    an identifier is ranked first and becomes the anchor. *)
Theorem missing_id_wins_under_host_collation
    (config : FixtureConfig) (statements : list ScenarioStatement) (focalIdentifier : string)
    (withId missing : ScenarioStatement) (id primary : string) :
  In withId statements ->
  In missing statements ->
  rederivesToFocalClaim config statements focalIdentifier withId ->
  rederivesToFocalClaim config statements focalIdentifier missing ->
  (forall row, In row statements ->
     rederivesToFocalClaim config statements focalIdentifier row ->
     row = withId \/ row = missing) ->
  statement_fide_id withId = Some id ->
  statement_fide_id missing = None ->
  first_created_at withId = first_created_at missing ->
  id <> "~" ->
  localeCompare "~" id < 0 ->
  0 < localeCompare id "~" ->
  calculateFideId (entityType config) "Statement" (subject_raw_identifier missing)
  = Some primary ->
  findPrimaryFideId config statements focalIdentifier = Some (Some (anchoredAt missing primary))
  /\ specCompare (candidateRecord withId) (candidateRecord missing) = Lt.
Proof.
  intros _ Hmissing _ Hre Honly Hid Hnone Hseen Hne Hlt Hgt Hprimary.
  assert (Hid' : String.eqb id "~" = false) by now apply String.eqb_neq.
  assert (Hid'' : String.eqb "~" id = false) by (apply String.eqb_neq; congruence).
  split.
  - apply (anchor_of_two config statements focalIdentifier missing withId primary);
      try assumption.
    + intros row Hrow Hrow'. destruct (Honly row Hrow Hrow'); auto.
    + unfold compareCandidates, candidateRecord; simpl.
      rewrite Hseen, Hid, Hnone, Z.eqb_refl, Hid''. simpl. apply Z.leb_le. lia.
    + unfold compareCandidates, candidateRecord; simpl.
      rewrite Hseen, Hid, Hnone, Z.eqb_refl, Hid'. simpl. apply Z.leb_gt. lia.
  - unfold specCompare, candidateRecord; simpl. rewrite Hseen, Hid, Hnone.
    destruct (first_created_at missing) as [t|]; simpl; [now rewrite Z.compare_refl|reflexivity].
Qed.

End ResolverExamples.

(** The rows of the fixture that re-derive to the focal same-as claim. *)
Ltac rederives_on_fixture :=
  split; [reflexivity|]; split; [reflexivity|]; split; [reflexivity|];
  exists "did:fide:0xaaaa", "did:fide:0xbbbb", "did:fide:0xcccc", Example.claimId;
  split; [reflexivity|]; split; [reflexivity|];
  split; [discriminate|];
  exists Example.sameAsRow; split; [now left|];
  split; [|reflexivity]; split; [reflexivity|]; split; [reflexivity|now left].

(** The resolver on the fixture: both orders of the two validFrom rows. *)
Lemma earlier_seen_candidate_is_anchor_witness :
  findPrimaryFideId (fcp := Example.standInFcp) (host := Example.codeUnitHost)
    Example.personConfig [Example.sameAsRow; Example.seen2022; Example.seen2021] Example.focal
  = Some (Some (anchoredAt Example.seen2021
                  "did:fide:0xdid-fide-0xaaaa-did-fide-0xbbbb-did-fide-0xcccc"))
  /\ findPrimaryFideId (fcp := Example.standInFcp) (host := Example.codeUnitHost)
       Example.personConfig [Example.seen2021; Example.sameAsRow; Example.seen2022]
       Example.focal
     = Some (Some (anchoredAt Example.seen2021
                     "did:fide:0xdid-fide-0xaaaa-did-fide-0xbbbb-did-fide-0xcccc")).
Proof.
  split.
  - apply (earlier_seen_candidate_is_anchor (fcp := Example.standInFcp)
             (host := Example.codeUnitHost) Example.personConfig _ Example.focal
             Example.seen2021 Example.seen2022).
    + right. right. now left.
    + right. now left.
    + rederives_on_fixture.
    + rederives_on_fixture.
    + intros row [<-|[<-|[<-|[]]]] Hre; [|now right|now left].
      destruct Hre as [Hp _]. discriminate Hp.
    + reflexivity.
    + reflexivity.
    + reflexivity.
  - apply (earlier_seen_candidate_is_anchor (fcp := Example.standInFcp)
             (host := Example.codeUnitHost) Example.personConfig _ Example.focal
             Example.seen2021 Example.seen2022).
    + now left.
    + right. right. now left.
    + split; [reflexivity|]. split; [reflexivity|]. split; [reflexivity|].
      exists "did:fide:0xaaaa", "did:fide:0xbbbb", "did:fide:0xcccc", Example.claimId.
      split; [reflexivity|]. split; [reflexivity|]. split; [discriminate|].
      exists Example.sameAsRow. split; [right; now left|].
      split; [|reflexivity]. split; [reflexivity|]. split; [reflexivity|now left].
    + split; [reflexivity|]. split; [reflexivity|]. split; [reflexivity|].
      exists "did:fide:0xaaaa", "did:fide:0xbbbb", "did:fide:0xcccc", Example.claimId.
      split; [reflexivity|]. split; [reflexivity|]. split; [discriminate|].
      exists Example.sameAsRow. split; [right; now left|].
      split; [|reflexivity]. split; [reflexivity|]. split; [reflexivity|now left].
    + intros row [<-|[<-|[<-|[]]]] Hre; [now left| |now right].
      destruct Hre as [Hp _]. discriminate Hp.
    + reflexivity.
    + reflexivity.
    + reflexivity.
Defined.

(** C8 as the specification words it fails: of two anchor candidates
    whose validFrom values are 2021-01-01 and 2022-06-01, first seen at the
    same time and about the same claim, the resolver anchors at the one
    dated 2022-06-01, which has the smaller statement identifier, in either
    order of the rows. The validFrom value is not among the fields the
    resolver keeps. *)
Lemma later_dated_candidate_is_anchor :
  object_raw_identifier Example.dated2021 = "2021-01-01"
  /\ object_raw_identifier Example.dated2022 = "2022-06-01"
  /\ first_created_at Example.dated2021 = first_created_at Example.dated2022
  /\ subject_raw_identifier Example.dated2021 = subject_raw_identifier Example.dated2022
  /\ findPrimaryFideId (fcp := Example.standInFcp) (host := Example.codeUnitHost)
       Example.personConfig [Example.sameAsRow; Example.dated2021; Example.dated2022]
       Example.focal
     = Some (Some (anchoredAt Example.dated2022
                     "did:fide:0xdid-fide-0xaaaa-did-fide-0xbbbb-did-fide-0xcccc"))
  /\ findPrimaryFideId (fcp := Example.standInFcp) (host := Example.codeUnitHost)
       Example.personConfig [Example.sameAsRow; Example.dated2022; Example.dated2021]
       Example.focal
     = Some (Some (anchoredAt Example.dated2022
                     "did:fide:0xdid-fide-0xaaaa-did-fide-0xbbbb-did-fide-0xcccc"))
  /\ anchorValidFromStatementFideId
       (anchoredAt Example.dated2022
          "did:fide:0xdid-fide-0xaaaa-did-fide-0xbbbb-did-fide-0xcccc")
     <> statement_fide_id Example.dated2021.
Proof.
  repeat (split; [vm_compute; reflexivity|]). discriminate.
Qed.

(** The resolver on the fixture under a collation that puts the tilde
    before letters and digits: the row without a statement identifier is the
    anchor, although the specification ranks the row with one first. *)
Lemma missing_id_wins_under_host_collation_witness :
  localeCompare (Host := Example.symbolsFirstHost) "~" "did:fide:0x2222" < 0
  /\ findPrimaryFideId (fcp := Example.standInFcp) (host := Example.symbolsFirstHost)
       Example.personConfig
       [Example.sameAsRow; Example.withIdentifier; Example.withoutIdentifier] Example.focal
     = Some (Some (anchoredAt Example.withoutIdentifier
                     "did:fide:0xdid-fide-0xaaaa-did-fide-0xbbbb-did-fide-0xcccc"))
  /\ specCompare (candidateRecord Example.withIdentifier)
       (candidateRecord Example.withoutIdentifier) = Lt.
Proof.
  split; [reflexivity|].
  apply (missing_id_wins_under_host_collation (fcp := Example.standInFcp)
           (host := Example.symbolsFirstHost) Example.personConfig _ Example.focal
           Example.withIdentifier Example.withoutIdentifier "did:fide:0x2222").
  - right. now left.
  - right. right. now left.
  - rederives_on_fixture.
  - rederives_on_fixture.
  - intros row [<-|[<-|[<-|[]]]] Hre; [|now left|now right].
    destruct Hre as [Hp _]. discriminate Hp.
  - reflexivity.
  - reflexivity.
  - reflexivity.
  - discriminate.
  - reflexivity.
  - reflexivity.
  - reflexivity.
Defined.

(** The ranking on the fixture's candidates, under comparison by code
    unit. *)
Lemma candidates_are_ranked_witness :
  ConsistentCompare (localeCompare (Host := Example.codeUnitHost))
  /\ Js.sort (compareCandidates (host := Example.codeUnitHost))
       [Example.neverSeen; candidateRecord Example.seen2022; candidateRecord Example.seen2021]
     = [candidateRecord Example.seen2021; candidateRecord Example.seen2022; Example.neverSeen]
  /\ (forall c,
        In c [Example.neverSeen; candidateRecord Example.seen2022; candidateRecord Example.seen2021] ->
        rankedBefore (host := Example.codeUnitHost) (candidateRecord Example.seen2021) c).
Proof.
  split; [exact codeUnitCompare_consistent|]. split; [reflexivity|].
  apply (candidates_are_ranked (host := Example.codeUnitHost)
           [Example.neverSeen; candidateRecord Example.seen2022; candidateRecord Example.seen2021]
           (candidateRecord Example.seen2021)
           [candidateRecord Example.seen2022; Example.neverSeen]).
  - exact codeUnitCompare_consistent.
  - reflexivity.
Defined.

(** Under comparison by code unit the ranking leaves the specification
    at the sentinels only: a candidate
    whose first-seen timestamp is missing wins over one first seen at 2^53,
    and a candidate whose statement identifier is missing wins over one whose
    identifier is the string of two tildes, although the specification ranks
    a missing timestamp and a missing identifier last. *)
Lemma missing_keys_do_not_always_sort_last :
  (Js.sort (compareCandidates (host := Example.codeUnitHost)) [Example.seenAt2p53; Example.neverSeen]
     = [Example.neverSeen; Example.seenAt2p53]
   /\ specCompare Example.neverSeen Example.seenAt2p53 = Gt)
  /\ (Js.sort (compareCandidates (host := Example.codeUnitHost)) [Example.tildeId; Example.noId]
        = [Example.noId; Example.tildeId]
      /\ specCompare Example.noId Example.tildeId = Gt).
Proof. repeat split; reflexivity. Qed.

(** The two encodings of a reference on the fixture's claim. *)
Lemma matchesStatementReference_both_encodings_witness :
  let target := Example.statement Example.claimId
                  "did:fide:0xaaaa" Example.focal
                  "did:fide:0xbbbb" OWL_SAME_AS_IRI
                  "did:fide:0xcccc" "https://github.com/alice" in
  let byId := Example.statement "did:fide:0x2222"
                "did:fide:0x9999" Example.claimId
                "did:fide:0xdddd" SCHEMA_VALID_FROM_IRI
                "did:fide:0xeeee" "2021-01-01" in
  let byTriple := Example.statement "did:fide:0x1111"
                    "did:fide:0x9998" Example.claimRaw
                    "did:fide:0xdddd" SCHEMA_VALID_FROM_IRI
                    "did:fide:0xffff" "2022-06-01" in
  subjectRawIdentifier byId = statementFideId target
  /\ subjectRawIdentifier byTriple = Example.pipeJoin (subjectFideId target) (predicateFideId target) (objectFideId target)
  /\ matchesStatementReference (fcp := Example.standInFcp) byId target = true
  /\ matchesStatementReference (fcp := Example.standInFcp) byTriple target = true.
Proof.
  cbv zeta. split; [reflexivity|]. split; [reflexivity|].
  match goal with
  | |- matchesStatementReference ?a ?t = true /\ matchesStatementReference ?b ?t = true =>
      destruct (matchesStatementReference_both_encodings (fcp := Example.standInFcp) t a b
                  eq_refl eq_refl) as [Ha [Hb _]]
  end.
  split; assumption.
Defined.

(** The resolver on the fixture, resolved and unresolved. *)
Lemma findPrimaryFideId_total_witness :
  findPrimaryFideId (fcp := Example.standInFcp) (host := Example.codeUnitHost)
    Example.personConfig [Example.sameAsRow; Example.seen2021] Example.focal
  = Some (Some (anchoredAt Example.seen2021
                  "did:fide:0xdid-fide-0xaaaa-did-fide-0xbbbb-did-fide-0xcccc"))
  /\ findPrimaryFideId (fcp := Example.standInFcp) (host := Example.codeUnitHost)
       Example.personConfig [Example.sameAsRow; Example.seen2021] Example.focal
     <> Some None
  /\ findPrimaryFideId (fcp := Example.standInFcp) (host := Example.codeUnitHost)
       Example.personConfig [Example.sameAsRow] Example.focal = Some None.
Proof.
  split; [vm_compute; reflexivity|]. split.
  - intros Hnone.
    apply (proj1 (proj1 (findPrimaryFideId_total (fcp := Example.standInFcp)
                           (host := Example.codeUnitHost) Example.personConfig
                           [Example.sameAsRow; Example.seen2021] Example.focal)) Hnone).
    exists Example.seen2021. split; [right; now left|]. rederives_on_fixture.
  - apply (proj2 (proj1 (findPrimaryFideId_total (fcp := Example.standInFcp)
                           (host := Example.codeUnitHost) Example.personConfig
                           [Example.sameAsRow] Example.focal))).
    intros [row [[<-|[]] [Hp _]]]. discriminate Hp.
Defined.

(** A validFrom row with two components only is passed over. *)
Lemma malformed_validFrom_is_skipped_witness :
  let broken := Example.validFromRow (Some "did:fide:0x0001") (Some 0)
                  "did:fide:0xaaaa|did:fide:0xbbbb" "2020-01-01" in
  predicate_raw_identifier broken = "https://schema.org/validFrom"
  /\ malformedSubject (fcp := Example.standInFcp) broken
  /\ findPrimaryFideId (fcp := Example.standInFcp) (host := Example.codeUnitHost)
       Example.personConfig ([Example.sameAsRow] ++ broken :: [Example.seen2021]) Example.focal
     = findPrimaryFideId (fcp := Example.standInFcp) (host := Example.codeUnitHost)
         Example.personConfig ([Example.sameAsRow] ++ [Example.seen2021]) Example.focal.
Proof.
  cbv zeta. split; [reflexivity|]. split; [left; reflexivity|].
  apply (malformed_validFrom_is_skipped (fcp := Example.standInFcp) (host := Example.codeUnitHost)).
  - reflexivity.
  - left. reflexivity.
Defined.

(** ** The consideration router *)

Section RouterFacts.
Context {fcp : Fcp} {host : Host} {renderer : Renderer}.

Lemma find_absent (wanted : string) (pool : list FideIdStatement) :
  (forall s, In s pool -> statementFideId s <> wanted) ->
  Js.find (fun statement => String.eqb (statementFideId statement) wanted) pool = None.
Proof.
  unfold Js.find. induction pool as [|s pool IH]; simpl; intros Habs; [reflexivity|].
  destruct (String.eqb_spec (statementFideId s) wanted) as [E|_].
  - exfalso. apply (Habs s); [now left|assumption].
  - apply IH. intros s' Hs'. apply Habs. now right.
Qed.

(** With a consideration named on the command line the loop body never
    skips. *)
Lemma choice_explicit (c current : AtomicConsideration) target ctx :
  (exists message, chooseEvidencePool (Some c) current target ctx = ChooseFail message)
  \/ (exists pool base, chooseEvidencePool (Some c) current target ctx = ChoosePool pool base).
Proof.
  unfold chooseEvidencePool.
  destruct (isCitationChain current).
  - destruct (anchorCandidates target ctx) as [|anchor rest]; [left; eauto|].
    destruct (List.filter isReportBackedPrimarySource _); [left; eauto|right; eauto].
  - destruct (pickAtomicEvidencePool current target ctx); [left; eauto|right; eauto].
Qed.

(** The loop body goes on with non-empty pools only. *)
Lemma chosen_pool_nonempty consideration current target ctx pool base :
  chooseEvidencePool consideration current target ctx = ChoosePool pool base -> pool <> [].
Proof.
  unfold chooseEvidencePool.
  destruct (isCitationChain current).
  - destruct (anchorCandidates target ctx) as [|anchor rest];
      [destruct consideration; discriminate|].
    destruct (List.filter isReportBackedPrimarySource _) eqn:E;
      [destruct consideration; discriminate|].
    intros Hg. inversion Hg. discriminate.
  - destruct (pickAtomicEvidencePool current target ctx) eqn:E;
      [destruct consideration; discriminate|].
    intros Hg. inversion Hg. discriminate.
Qed.

(** When rendering does not throw, the inner loop adds one prompt and one
    file per selected evidence statement, in order. *)
Lemma generateAll_one_per_evidence current target base ctx (selected : list FideIdStatement) :
  (forall evidence supporting, In evidence selected ->
     is_Some (renderPrompt current target evidence supporting ctx)) ->
  forall st, exists st' items,
    generateAll current target base ctx selected st = (st', true)
    /\ generated st' = generated st ++ items
    /\ map g_evidenceStatementFideId items = map statementFideId selected
    /\ Forall (fun item => g_consideration item = current) items
    /\ considerationSummaries st' = considerationSummaries st
    /\ List.length (written st') = (List.length (written st) + List.length selected)%nat.
Proof.
  induction selected as [|evidence rest IH]; intros Hrender st.
  - exists st, []. simpl. rewrite app_nil_r, Nat.add_0_r. repeat split. constructor.
  - simpl.
    destruct (Hrender evidence
                (if isCitationChain current then base
                 else pickAtomicRequiredAnchor current target evidence ctx)
                (or_introl eq_refl)) as [prompt ->].
    match goal with
    | |- context [generateAll _ _ _ _ rest ?st1] =>
        destruct (IH (fun e s Hin => Hrender e s (or_intror Hin)) st1)
          as [st' [items [Egen [Hgen [Hids [Hcons [Hsums Hlen]]]]]]]
    end.
    simpl in *.
    match type of Hgen with
    | _ = (_ ++ [?item]) ++ _ => exists st', (item :: items)
    end.
    split; [exact Egen|]. split; [|split; [|split; [|split]]].
    + rewrite Hgen, <- app_assoc. reflexivity.
    + simpl. now rewrite Hids.
    + constructor; [reflexivity|assumption].
    + assumption.
    + rewrite Hlen, length_app. simpl. lia.
Qed.


(** C5. For every consideration, a named evidence statement that is not
    in the consideration's evidence pool makes the run end with exit code 1
    and no file written, with the not-found message when there is a pool to
    look in; the pool is never taken in its place. When no evidence statement
    is named, every member of the pool is selected, and each gets its own
    prompt, in the order of the pool. *)
Theorem named_evidence_must_be_in_pool
    (flags : gmap string FlagValue) (currentConsideration : AtomicConsideration)
    (target : FideIdStatement) (statements : list FideIdStatement) :
  let contextStatements := buildPersonPromptContextStatements target statements in
  (forall wanted,
     wanted <> EmptyString ->
     (forall s, In s (evidencePoolOf (Some currentConsideration) currentConsideration
                        target contextStatements) -> statementFideId s <> wanted) ->
     exists message,
       runConsiderations flags (Some currentConsideration) (Some wanted) target statements
       = Failed message []
       /\ exitCode (runConsiderations flags (Some currentConsideration) (Some wanted)
                      target statements) = Some 1
       /\ (evidencePoolOf (Some currentConsideration) currentConsideration target contextStatements
           <> [] ->
           message = String.append "Evidence statement not found in pool for consideration "
                       (String.append (considerationTag currentConsideration)
                          (String.append ": " wanted))))
  /\ (forall consideration evidencePool baseSupportingStatements st,
        chooseEvidencePool consideration currentConsideration target contextStatements
        = ChoosePool evidencePool baseSupportingStatements ->
        selectEvidence currentConsideration None evidencePool = Selected evidencePool
        /\ ((forall evidence supporting, In evidence evidencePool ->
               is_Some (renderPrompt currentConsideration target evidence supporting contextStatements)) ->
            exists st' items,
              considerationStep consideration None target contextStatements st currentConsideration
              = StepNext st'
              /\ generated st' = generated st ++ items
              /\ map g_evidenceStatementFideId items = map statementFideId evidencePool
              /\ Forall (fun item => g_consideration item = currentConsideration) items
              /\ List.length (written st') = (List.length (written st) + List.length evidencePool)%nat)).
Proof.
  intros contextStatements. split.
  - intros wanted Hne Habsent.
    unfold runConsiderations. fold contextStatements. simpl. unfold considerationStep.
    unfold evidencePoolOf in Habsent |- *.
    destruct (choice_explicit currentConsideration currentConsideration target contextStatements)
      as [[message Hg]|[pool [base Hg]]]; rewrite Hg in *.
    + exists message. split; [reflexivity|]. split; [reflexivity|]. intros Hpool. now elim Hpool.
    + unfold selectEvidence. simpl.
      destruct (String.eqb_spec wanted EmptyString) as [|_]; [contradiction|]. simpl.
      rewrite (find_absent wanted pool Habsent).
      eexists. split; [reflexivity|]. split; [reflexivity|]. reflexivity.
  - intros consideration evidencePool base st Hg.
    split; [reflexivity|]. intros Hrender.
    unfold considerationStep. rewrite Hg. simpl.
    pose proof (chosen_pool_nonempty _ _ _ _ _ _ Hg) as Hnonempty.
    destruct evidencePool as [|e0 pool']; [contradiction|].
    destruct (generateAll_one_per_evidence currentConsideration target base contextStatements
                (e0 :: pool') Hrender st)
      as [st' [items [Egen [Hgen [Hids [Hcons [Hsums Hlen]]]]]]].
    rewrite Egen.
    eexists. exists items. split; [reflexivity|]. simpl. auto.
Qed.

End RouterFacts.


(** The selection policy on the example graph: a name that is not in the
    [name_alignment] pool is refused, and without a name the one member of
    the pool gets its prompt. *)
Lemma named_evidence_must_be_in_pool_witness :
  let contextStatements :=
    buildPersonPromptContextStatements (fcp := Example.standInFcp) Example.claim Example.graph in
  evidencePoolOf (fcp := Example.standInFcp) (host := Example.codeUnitHost)
    (Some name_alignment) name_alignment Example.claim contextStatements = [Example.nameOfAlice]
  /\ (exists message,
        runConsiderations (fcp := Example.standInFcp) (host := Example.codeUnitHost)
          (renderer := Example.plainRenderer)
          Example.noFlags (Some name_alignment) (Some "did:fide:0x9999") Example.claim Example.graph
        = Failed message [])
  /\ (exists st' items,
        considerationStep (fcp := Example.standInFcp) (host := Example.codeUnitHost)
          (renderer := Example.plainRenderer)
          None None Example.claim contextStatements emptyState name_alignment = StepNext st'
        /\ generated st' = items
        /\ map g_evidenceStatementFideId items = [statementFideId Example.nameOfAlice]).
Proof.
  cbv zeta.
  assert (Hpool : evidencePoolOf (fcp := Example.standInFcp) (host := Example.codeUnitHost)
    (Some name_alignment) name_alignment Example.claim
    (buildPersonPromptContextStatements (fcp := Example.standInFcp) Example.claim Example.graph)
    = [Example.nameOfAlice]) by (vm_compute; reflexivity).
  pose proof (named_evidence_must_be_in_pool (fcp := Example.standInFcp)
                (host := Example.codeUnitHost) (renderer := Example.plainRenderer)
                Example.noFlags name_alignment Example.claim Example.graph) as [Hnamed Hall].
  split; [exact Hpool|]. split.
  - destruct (Hnamed "did:fide:0x9999") as [message [Hrun _]].
    + discriminate.
    + rewrite Hpool. intros s [<-|[]]. discriminate.
    + exists message. exact Hrun.
  - destruct (Hall None [Example.nameOfAlice] [] emptyState) as [_ Hgen].
    + vm_compute. reflexivity.
    + destruct Hgen as [st' [items [Hstep [Hgen [Hids _]]]]].
      * intros evidence supporting _. eexists. reflexivity.
      * exists st', items. split; [exact Hstep|]. split; [exact Hgen|exact Hids].
Defined.

(** The command on the example wires: one prompt for the one name, and a
    refusal when the named evidence statement is not in the pool. *)
Example runPromptAtomic_name_alignment :
  runPromptAtomic (fcp := Example.standInFcp) (host := Example.codeUnitHost)
    (renderer := Example.plainRenderer) Example.nameAlignmentFlags Example.wires
  = Succeeded
      (PrintedPaths
         ["_scratch/evals/prompts/temporal-validity/owl-sameAs/Person/did-fide-0x00aaaabbbbcccc/name_alignment--00aaaaf00144.md"])
      [("_scratch/evals/prompts/temporal-validity/owl-sameAs/Person/did-fide-0x00aaaabbbbcccc/name_alignment--00aaaaf00144.md",
        String.append "# Atomic Evidence Check: did:fide:0x00aaaaf0014446" Js.newline)].
Proof. vm_compute. reflexivity. Qed.

Example runPromptAtomic_unknown_evidence :
  runPromptAtomic (fcp := Example.standInFcp) (host := Example.codeUnitHost)
    (renderer := Example.plainRenderer)
    (<["evidence-statement" := FlagString "did:fide:0x1234"]> Example.nameAlignmentFlags)
    Example.wires
  = Failed "Evidence statement not found in pool for consideration name_alignment: did:fide:0x1234" [].
Proof. vm_compute. reflexivity. Qed.

(** C6 on the example graph. The anchor the loop chooses for
    [citation_chain] is the validFrom statement with the smallest statement
    identifier, here the one dated 2022-06-01, and the run fails for want of a
    report-backed citation of it; the ordering by parsed object date that
    [pickAtomicRequiredAnchor] applies puts the statement dated 2021-01-01
    first, and that statement has a report-backed citation. *)
Lemma citation_chain_anchor_ignores_object_date :
  let contextStatements :=
    buildPersonPromptContextStatements (fcp := Example.standInFcp) Example.claim Example.graph in
  anchorCandidates (fcp := Example.standInFcp) (host := Example.codeUnitHost)
    Example.claim contextStatements = [Example.validFrom2022; Example.validFrom2021]
  /\ pickAtomicRequiredAnchor (fcp := Example.standInFcp) (host := Example.codeUnitHost)
       citation_chain Example.claim Example.nameOfAlice contextStatements
     = [Example.validFrom2021]
  /\ List.filter isReportBackedPrimarySource
       (collectPrimarySourceLinksForStatement (fcp := Example.standInFcp)
          Example.validFrom2021 contextStatements) = [Example.reportOf2021]
  /\ runConsiderations (fcp := Example.standInFcp) (host := Example.codeUnitHost)
       (renderer := Example.plainRenderer)
       Example.noFlags (Some citation_chain) None Example.claim Example.graph
     = Failed "No primary-source evidence statements found for the anchor validFrom statement." [].
Proof. cbv zeta. repeat split; vm_compute; reflexivity. Qed.

(** ** The vocabulary index *)

Lemma indexNode_lookup (index : gmap string PromptDefinitionEntry) (node : Json) (key : string) :
  indexNode index node !! key = orElse (entryFor key node) (index !! key).
Proof.
  unfold indexNode, entryFor.
  destruct node as [| | | |items|record]; try reflexivity.
  destruct (stringField "@id" record) as [id|]; [|reflexivity].
  destruct (String.eqb id EmptyString); [reflexivity|].
  destruct (String.eqb_spec id key) as [->|Hid]; simpl.
  - now rewrite lookup_insert_eq.
  - rewrite lookup_insert_ne by assumption.
    destruct (String.eqb_spec (toKnownCurie id) key) as [->|Hcurie]; simpl.
    + now rewrite lookup_insert_eq.
    + now rewrite lookup_insert_ne.
Qed.

Lemma fold_indexNode_lookup (graph : list Json) (index : gmap string PromptDefinitionEntry)
    (key : string) :
  fold_left indexNode graph index !! key
  = fold_left (fun current node => orElse (entryFor key node) current) graph (index !! key).
Proof.
  revert index. induction graph as [|node graph IH]; intros index; simpl; [reflexivity|].
  now rewrite IH, indexNode_lookup.
Qed.

Lemma orElse_assoc {A : Type} (a b c : option A) :
  orElse (orElse a b) c = orElse a (orElse b c).
Proof. now destruct a. Qed.

(** Folding a graph over an entry gives the graph's last entry, or else the
    entry that was there. *)
Lemma fold_entry_lastEntry (graph : list Json) (key : string)
    (current : option PromptDefinitionEntry) :
  fold_left (fun current node => orElse (entryFor key node) current) graph current
  = orElse (lastEntry key graph) current.
Proof.
  unfold lastEntry. revert current.
  induction graph as [|node graph IH]; intros current; simpl; [reflexivity|].
  rewrite IH, (IH (orElse (entryFor key node) None)), orElse_assoc.
  f_equal. now destruct (entryFor key node).
Qed.

Lemma fold_entry_provenance (graph : list Json) (key : string) (d : PromptDefinitionEntry) :
  forall current,
    fold_left (fun current node => orElse (entryFor key node) current) graph current = Some d ->
    current = Some d \/ exists node, In node graph /\ entryFor key node = Some d.
Proof.
  induction graph as [|node graph IH]; intros current Hfold; simpl in Hfold; [now left|].
  destruct (IH _ Hfold) as [Hcur|[n [Hn En]]].
  - destruct (entryFor key node) as [d'|] eqn:E; simpl in Hcur.
    + right. exists node. split; [now left|congruence].
    + now left.
  - right. exists n. split; [now right|assumption].
Qed.

Lemma fold_entry_is_Some (graph : list Json) (key : string) :
  forall current,
    (is_Some current \/ exists node d, In node graph /\ entryFor key node = Some d) ->
    is_Some (fold_left (fun current node => orElse (entryFor key node) current) graph current).
Proof.
  induction graph as [|node graph IH]; intros current Hsome; simpl.
  - destruct Hsome as [Hsome|[n [d [[] _]]]]. exact Hsome.
  - apply IH.
    destruct (entryFor key node) as [d'|] eqn:E; simpl; [left; eauto|].
    destruct Hsome as [Hsome|[n [d [[<-|Hn] En]]]]; [now left|congruence|right; eauto].
Qed.

(** A graph with a node stored under [key] has a last entry under [key],
    and that entry is stored by one of its nodes. *)
Lemma lastEntry_of_member (graph : list Json) (key : string) :
  (exists node d, In node graph /\ entryFor key node = Some d) ->
  exists node d, In node graph /\ entryFor key node = Some d /\ lastEntry key graph = Some d.
Proof.
  intros Hex. unfold lastEntry.
  destruct (fold_entry_is_Some graph key None (or_intror Hex)) as [d Hd].
  destruct (fold_entry_provenance graph key d None Hd) as [Hcur|[node [Hn En]]]; [discriminate|].
  exists node, d. auto.
Qed.

Lemma lastEntry_app (key : string) (a b : list Json) :
  lastEntry key (a ++ b) = orElse (lastEntry key b) (lastEntry key a).
Proof.
  unfold lastEntry at 1. rewrite fold_left_app. fold (lastEntry key a).
  apply fold_entry_lastEntry.
Qed.

Lemma lastEntry_None (key : string) (graph : list Json) :
  (forall node, In node graph -> entryFor key node = None) -> lastEntry key graph = None.
Proof.
  intros Hnone. destruct (lastEntry key graph) as [d|] eqn:E; [|reflexivity].
  unfold lastEntry in E.
  destruct (fold_entry_provenance graph key d None E) as [Hcur|[node [Hn En]]];
    [discriminate|].
  rewrite (Hnone node Hn) in En. discriminate.
Qed.

Lemma nodesOf_app (a b : list (option Json)) : nodesOf (a ++ b) = nodesOf a ++ nodesOf b.
Proof.
  induction a as [|[parsed|] a IH]; simpl; [reflexivity| |exact IH].
  destruct (graphOf parsed); [now rewrite IH, app_assoc|exact IH].
Qed.

Lemma nodesOf_In (files : list (option Json)) (node : Json) :
  In node (nodesOf files) ->
  exists parsed graph, In (Some parsed) files /\ graphOf parsed = Some graph /\ In node graph.
Proof.
  induction files as [|[parsed|] files IH]; simpl; [intros []| |].
  - destruct (graphOf parsed) as [graph|] eqn:Eg.
    + intros Hin. apply in_app_iff in Hin as [Hin|Hin].
      * exists parsed, graph. auto.
      * destruct (IH Hin) as [p' [g' [Hp [Hg Hn]]]]. exists p', g'. auto.
    + intros Hin. destruct (IH Hin) as [p' [g' [Hp [Hg Hn]]]]. exists p', g'. auto.
  - intros Hin. destruct (IH Hin) as [p' [g' [Hp [Hg Hn]]]]. exists p', g'. auto.
Qed.

(** The index built from snapshots over an index holds, under every key,
    the last entry of the snapshots' nodes, or else what was there. *)
Lemma buildVocabularyIndex_lookup (files : list (option Json)) :
  forall (start index : gmap string PromptDefinitionEntry) (key : string),
    buildVocabularyIndex files start = Some index ->
    index !! key = orElse (lastEntry key (nodesOf files)) (start !! key).
Proof.
  induction files as [|[parsed|] files IH]; intros start index key Hbuild; simpl in Hbuild.
  - inversion Hbuild; subst. reflexivity.
  - simpl. destruct (graphOf parsed) as [graph|]; [|discriminate].
    rewrite (IH _ _ key Hbuild), lastEntry_app, fold_indexNode_lookup, fold_entry_lastEntry.
    now rewrite orElse_assoc.
  - simpl. now apply IH.
Qed.

(** C9, as the code has it. When the index is built by merging any list
    of snapshots in load order, snapshots that could not be read or parsed
    being passed over, the entry of every key is the one stored by the last
    node, over all snapshots in load order, that stores under the key. So a
    term identifier keeps the definition of the last snapshot that defines
    it, whatever snapshots come before and however many: when [later] defines
    the term and no snapshot after it does, the entry is the one that the
    last node of [later] storing under the term stores. *)
Theorem later_snapshot_wins
    (files : list (option Json)) (index : gmap string PromptDefinitionEntry) :
  buildVocabularyIndex files ∅ = Some index ->
  (forall key, index !! key = lastEntry key (nodesOf files))
  /\ (forall before later laterGraph after key,
        files = before ++ Some later :: after ->
        graphOf later = Some laterGraph ->
        definesTerm key (Some later) ->
        (forall snapshot, In snapshot after -> ~ definesTerm key snapshot) ->
        index !! key = lastEntry key laterGraph
        /\ exists node d,
             In node laterGraph /\ entryFor key node = Some d /\ index !! key = Some d).
Proof.
  intros Hbuild.
  assert (Hkey : forall key, index !! key = lastEntry key (nodesOf files)).
  { intros key. rewrite (buildVocabularyIndex_lookup files ∅ index key Hbuild), lookup_empty.
    now destruct (lastEntry key (nodesOf files)). }
  split; [exact Hkey|].
  intros before later laterGraph after key -> Hgraph Hdefines Hafter.
  assert (Hnone : lastEntry key (nodesOf after) = None).
  { apply lastEntry_None. intros node Hnode.
    destruct (entryFor key node) as [d|] eqn:Ed; [|reflexivity].
    destruct (nodesOf_In after node Hnode) as [parsed [graph [Hp [Hg Hn]]]].
    exfalso. apply (Hafter (Some parsed) Hp). exists parsed, graph, node, d. auto. }
  assert (Hlater : exists node d, In node laterGraph /\ entryFor key node = Some d).
  { destruct Hdefines as [parsed [graph [node [d [Es [Eg [Hn Ed]]]]]]].
    inversion Es; subst parsed. rewrite Hgraph in Eg. inversion Eg; subst graph. eauto. }
  destruct (lastEntry_of_member laterGraph key Hlater) as [node [d [Hn [Ed El]]]].
  assert (Hindex : index !! key = lastEntry key laterGraph).
  { rewrite Hkey, nodesOf_app. cbn [nodesOf]. rewrite Hgraph.
    rewrite !lastEntry_app, Hnone, El. reflexivity. }
  split; [exact Hindex|]. exists node, d. split; [exact Hn|]. split; [exact Ed|].
  now rewrite Hindex.
Qed.

(** Four files as the loader reads them: the first snapshot, a file that
    could not be read, the second snapshot, and another unreadable file. The
    term both snapshots define carries the second snapshot's definition. *)
Lemma later_snapshot_wins_witness :
  exists index,
    buildVocabularyIndex
      [Some Example.firstSnapshot; None; Some Example.secondSnapshot; None] ∅ = Some index
    /\ definesTerm Example.nameTerm (Some Example.firstSnapshot)
    /\ definesTerm Example.nameTerm (Some Example.secondSnapshot)
    /\ index !! Example.nameTerm
       = Some (definitionOf Example.nameTerm
                 (Example.nameRecord "The name of the item, second snapshot.")).
Proof.
  assert (Hfirst : definesTerm Example.nameTerm (Some Example.firstSnapshot)).
  { exists Example.firstSnapshot,
      [JObject (Example.nameRecord "The name of the item, first snapshot.")],
      (JObject (Example.nameRecord "The name of the item, first snapshot.")),
      (definitionOf Example.nameTerm
         (Example.nameRecord "The name of the item, first snapshot.")).
    split; [reflexivity|]. split; [reflexivity|]. split; [now left|reflexivity]. }
  assert (Hsecond : definesTerm Example.nameTerm (Some Example.secondSnapshot)).
  { exists Example.secondSnapshot,
      [JObject (Example.nameRecord "The name of the item, second snapshot.")],
      (JObject (Example.nameRecord "The name of the item, second snapshot.")),
      (definitionOf Example.nameTerm
         (Example.nameRecord "The name of the item, second snapshot.")).
    split; [reflexivity|]. split; [reflexivity|]. split; [now left|reflexivity]. }
  eexists. split; [reflexivity|]. split; [exact Hfirst|]. split; [exact Hsecond|].
  destruct (proj2 (later_snapshot_wins
                     [Some Example.firstSnapshot; None; Some Example.secondSnapshot; None]
                     _ eq_refl)
              [Some Example.firstSnapshot; None] Example.secondSnapshot
              [JObject (Example.nameRecord "The name of the item, second snapshot.")]
              [None] Example.nameTerm eq_refl eq_refl Hsecond) as [Hindex _].
  { intros snapshot [<-|[]] [parsed [graph [node [d [Es _]]]]]. discriminate Es. }
  rewrite Hindex. reflexivity.
Defined.

(** C9 as the specification words it fails: after the two example
    snapshots are merged, the term both define carries the comment of the
    second snapshot, not of the first. *)
Lemma first_snapshot_does_not_win :
  exists index,
    buildVocabularyIndex [Some Example.firstSnapshot; Some Example.secondSnapshot] ∅ = Some index
    /\ (definition <$> index !! Example.nameTerm)
       = Some (Some "The name of the item, second snapshot.")
    /\ index !! Example.nameTerm
       <> Some (definitionOf Example.nameTerm
                  (Example.nameRecord "The name of the item, first snapshot.")).
Proof.
  eexists. split; [reflexivity|].
  rewrite !fold_indexNode_lookup. simpl. split; [reflexivity|]. discriminate.
Qed.

(** * Further properties of the code *)

(** ** Strings *)

Lemma prefix_append (p s : string) : String.prefix p (String.append p s) = true.
Proof.
  induction p as [|c p IH]; simpl; [now destruct s|].
  destruct (ascii_dec c c); [assumption|contradiction].
Qed.

Lemma startsWith_append (p s : string) : Js.startsWith (String.append p s) p = true.
Proof. apply prefix_append. Qed.

Lemma slice_append (p s : string) : Js.slice (String.length p) (String.append p s) = s.
Proof. induction p as [|c p IH]; simpl; [reflexivity|assumption]. Qed.

Lemma take_append (p s : string) : Js.take (String.length p) (String.append p s) = p.
Proof. induction p as [|c p IH]; simpl; [reflexivity|now rewrite IH]. Qed.

Lemma take_length (n : nat) (s : string) : (String.length (Js.take n s) <= n)%nat.
Proof.
  revert s. induction n as [|n IH]; intros [|c s]; simpl; try lia.
  specialize (IH s). lia.
Qed.

Lemma append_assoc (a b c : string) :
  String.append (String.append a b) c = String.append a (String.append b c).
Proof.
  induction a as [|x a IH]; [reflexivity|].
  change (String x (String.append (String.append a b) c)
          = String x (String.append a (String.append b c))).
  now f_equal.
Qed.

Lemma append_nil_r (a : string) : String.append a EmptyString = a.
Proof.
  induction a as [|x a IH]; [reflexivity|].
  change (String x (String.append a EmptyString) = String x a). now f_equal.
Qed.

(** ** Slugs and short suffixes *)

Lemma ascii_dash_eqb (c : ascii) : Ascii.eqb c "-"%char = true <-> c = "-"%char.
Proof. apply Ascii.eqb_eq. Qed.

Lemma toLower_dash (c : ascii) : Ascii.eqb (toLower c) "-"%char = Ascii.eqb c "-"%char.
Proof. destruct c as [[] [] [] [] [] [] [] []]; reflexivity. Qed.

Lemma toLower_slug (c : ascii) :
  isAlnum c || Ascii.eqb c "-"%char = true -> isSlugChar (toLower c) = true.
Proof. destruct c as [[] [] [] [] [] [] [] []]; vm_compute; congruence. Qed.

Lemma toLower_fixed (c : ascii) : isSlugChar c = true -> toLower c = c.
Proof. destruct c as [[] [] [] [] [] [] [] []]; vm_compute; congruence. Qed.

Lemma slugChar_alnum (c : ascii) :
  isSlugChar c = true -> isAlnum c = negb (Ascii.eqb c "-"%char).
Proof. destruct c as [[] [] [] [] [] [] [] []]; vm_compute; congruence. Qed.

Lemma alnum_not_dash (c : ascii) : isAlnum c = true -> Ascii.eqb c "-"%char = false.
Proof. destruct c as [[] [] [] [] [] [] [] []]; vm_compute; congruence. Qed.

Lemma dashRuns_shape (inRun : bool) (s : string) :
  allChars dashOrAlnum (dashRuns inRun s) = true /\ wellDashed inRun (dashRuns inRun s) = true.
Proof.
  revert inRun. induction s as [|c s IH]; intros inRun; simpl; [auto|].
  destruct (isAlnum c) eqn:Ea.
  - simpl. unfold dashOrAlnum at 1. rewrite Ea, (alnum_not_dash c Ea). simpl.
    destruct (IH false) as [H1 H2]. now rewrite H1, H2.
  - destruct inRun.
    + apply IH.
    + simpl. destruct (IH true) as [H1 H2]. now rewrite H1, H2.
Qed.

Lemma dropLeadingDashes_shape (s : string) :
  allChars dashOrAlnum s = true -> wellDashed false s = true ->
  allChars dashOrAlnum (dropLeadingDashes s) = true
  /\ wellDashed true (dropLeadingDashes s) = true.
Proof.
  induction s as [|c s IH]; simpl; [auto|].
  intros Hall Hwd. apply andb_true_iff in Hall as [Hc Hall].
  destruct (Ascii.eqb c "-"%char) eqn:Ed; simpl in *.
  - clear IH. revert Hall Hwd. induction s as [|d s IHs]; simpl; [auto|].
    intros Hall Hwd. apply andb_true_iff in Hall as [Hd Hall].
    destruct (Ascii.eqb d "-"%char) eqn:Edd; simpl in *; [discriminate|].
    rewrite Edd. simpl. now rewrite Hd, Hall.
  - rewrite Ed. simpl. now rewrite Hc, Hall.
Qed.

Lemma dropTrailingDashes_shape (afterDash : bool) (s : string) :
  allChars dashOrAlnum s = true -> wellDashed afterDash s = true ->
  allChars dashOrAlnum (dropTrailingDashes s) = true
  /\ wellDashed afterDash (dropTrailingDashes s) = true
  /\ endsInDash (dropTrailingDashes s) = false.
Proof.
  revert afterDash. induction s as [|c s IH]; intros afterDash; simpl; [auto|].
  intros Hall Hwd. apply andb_true_iff in Hall as [Hc Hall].
  destruct (Ascii.eqb c "-"%char) eqn:Ed; simpl in *.
  - apply andb_true_iff in Hwd as [Hb Hwd].
    destruct (IH true Hall Hwd) as [H1 [H2 H3]].
    destruct (String.eqb_spec (dropTrailingDashes s) EmptyString) as [E|N]; simpl; [auto|].
    rewrite ?Ed, ?Hc, ?H1, ?Hb, ?H2. simpl.
    destruct (dropTrailingDashes s); [contradiction|auto].
  - destruct (IH false Hall Hwd) as [H1 [H2 H3]].
    rewrite ?Ed, ?Hc, ?H1, ?H2. simpl.
    destruct (dropTrailingDashes s); rewrite ?Ed; auto.
Qed.

Lemma toLowerCase_shape (afterDash : bool) (s : string) :
  allChars dashOrAlnum s = true ->
  allChars isSlugChar (toLowerCase s) = true
  /\ wellDashed afterDash (toLowerCase s) = wellDashed afterDash s
  /\ endsInDash (toLowerCase s) = endsInDash s.
Proof.
  revert afterDash. induction s as [|c s IH]; intros afterDash; simpl; [auto|].
  intros Hall. apply andb_true_iff in Hall as [Hc Hall].
  rewrite (toLower_slug c Hc), toLower_dash. simpl.
  destruct (IH true Hall) as [H1 [H2 H3]]. destruct (IH false Hall) as [_ [H2' _]].
  rewrite H1, H2, H2'. repeat split.
  destruct s; simpl in *; [rewrite ?toLower_dash; reflexivity|exact H3].
Qed.

Lemma slug_fixed_dashRuns (inRun : bool) (s : string) :
  allChars isSlugChar s = true -> wellDashed inRun s = true -> dashRuns inRun s = s.
Proof.
  revert inRun. induction s as [|c s IH]; intros inRun; simpl; [reflexivity|].
  intros Hall Hwd. apply andb_true_iff in Hall as [Hc Hall].
  rewrite (slugChar_alnum c Hc).
  destruct (Ascii.eqb c "-"%char) eqn:Ed; simpl in *.
  - apply andb_true_iff in Hwd as [Hb Hwd]. destruct inRun; [discriminate|].
    apply ascii_dash_eqb in Ed. subst c. now rewrite (IH true Hall Hwd).
  - now rewrite (IH false Hall Hwd).
Qed.

Lemma slug_fixed_dropLeading (s : string) :
  wellDashed true s = true -> dropLeadingDashes s = s.
Proof.
  destruct s as [|c s]; simpl; [reflexivity|].
  destruct (Ascii.eqb c "-"%char); [discriminate|reflexivity].
Qed.

Lemma slug_fixed_dropTrailing (s : string) :
  endsInDash s = false -> dropTrailingDashes s = s.
Proof.
  induction s as [|c s IH]; simpl; [reflexivity|].
  intros He. destruct s as [|d s].
  - simpl. rewrite He. reflexivity.
  - rewrite (IH He). destruct (Ascii.eqb c "-"%char); reflexivity.
Qed.

Lemma slug_fixed_toLowerCase (s : string) :
  allChars isSlugChar s = true -> toLowerCase s = s.
Proof.
  induction s as [|c s IH]; simpl; [reflexivity|].
  intros Hall. apply andb_true_iff in Hall as [Hc Hall].
  now rewrite (toLower_fixed c Hc), (IH Hall).
Qed.

(** X2. Every identifier is slugified to a slug: lower-case letters,
    digits and single dashes, with no dash at either end. A slug is left as
    it is, so slugifying twice is slugifying once. *)
Theorem slugifyIdentifier_is_slug :
  (forall value, isSlug (slugifyIdentifier value) = true)
  /\ (forall s, isSlug s = true -> slugifyIdentifier s = s)
  /\ (forall value, slugifyIdentifier (slugifyIdentifier value) = slugifyIdentifier value).
Proof.
  assert (Hslug : forall value, isSlug (slugifyIdentifier value) = true).
  { intros value. unfold slugifyIdentifier, isSlug.
    destruct (dashRuns_shape false value) as [A1 A2].
    destruct (dropLeadingDashes_shape _ A1 A2) as [B1 B2].
    destruct (dropTrailingDashes_shape true _ B1 B2) as [C1 [C2 C3]].
    destruct (toLowerCase_shape true _ C1) as [D1 [D2 D3]].
    now rewrite D1, D2, C2, D3, C3. }
  assert (Hfix : forall s, isSlug s = true -> slugifyIdentifier s = s).
  { intros s Hs. unfold isSlug in Hs.
    apply andb_true_iff in Hs as [Hs He]. apply andb_true_iff in Hs as [Hall Hwd].
    apply negb_true_iff in He.
    assert (wellDashed false s = true) as Hwd0.
    { destruct s as [|c s]; simpl in *; [reflexivity|].
      destruct (Ascii.eqb c "-"%char); [discriminate|assumption]. }
    unfold slugifyIdentifier.
    rewrite (slug_fixed_dashRuns false s Hall Hwd0), (slug_fixed_dropLeading s Hwd),
      (slug_fixed_dropTrailing s He). now apply slug_fixed_toLowerCase. }
  split; [exact Hslug|]. split; [exact Hfix|].
  intros value. apply Hfix, Hslug.
Qed.

(** X3. The short suffix of an evidence identifier has at most twelve
    characters, and for an identifier with the [did:fide:0x] prefix it is the
    first twelve characters after the prefix. The output path of a prompt
    depends on the evidence identifier through this suffix only: two evidence
    identifiers that agree on it get the same path. *)
Theorem shortFideSuffix_bounds :
  (forall value, (String.length (shortFideSuffix value) <= 12)%nat)
  /\ (forall hex, shortFideSuffix (String.append "did:fide:0x" hex) = Js.take 12 hex)
  /\ (forall consideration statementId evidence1 evidence2,
        shortFideSuffix evidence1 = shortFideSuffix evidence2 ->
        defaultEvalPromptAtomicOutPath consideration statementId evidence1
        = defaultEvalPromptAtomicOutPath consideration statementId evidence2).
Proof.
  split; [|split].
  - intros value. unfold shortFideSuffix. apply take_length.
  - intros hex. unfold shortFideSuffix.
    rewrite (startsWith_append "did:fide:0x" hex).
    now rewrite (slice_append "did:fide:0x" hex).
  - intros consideration statementId e1 e2 E.
    unfold defaultEvalPromptAtomicOutPath. now rewrite E.
Qed.

(** ** Compact terms *)

(** Case analysis on the base that an IRI starts with; a compacted term
    starts with none. *)
Ltac by_known_base iri :=
  repeat match goal with
  | |- context [Js.startsWith iri ?base] =>
      destruct (Js.startsWith iri base) eqn:?; [reflexivity|]
  end.

(** X4. Compacting an IRI is idempotent: the compact form of a term starts
    with one of the prefixes [fide:], [schema:], [rdfs:], [owl:], [prov:],
    [rdf:], [xsd:], [org:], [sec:], none of which is a base the function
    knows, so compacting it again changes nothing. *)
Theorem toKnownCurie_idempotent (iri : string) :
  toKnownCurie (toKnownCurie iri) = toKnownCurie iri.
Proof.
  unfold toKnownCurie at 2 3. unfold rebase.
  by_known_base iri.
  unfold toKnownCurie, rebase.
  repeat match goal with
  | H : Js.startsWith iri _ = false |- _ => rewrite H; clear H
  end.
  reflexivity.
Qed.

(** The term of a key is a fixed point of the compaction. *)
Lemma toKnownCurie_of_term (key : string) :
  toKnownCurie (toKnownCurie key) = toKnownCurie key.
Proof.
  unfold toKnownCurie at 2 3. unfold rebase.
  by_known_base key.
  unfold toKnownCurie, rebase.
  repeat match goal with
  | H : Js.startsWith key _ = false |- _ => rewrite H; clear H
  end.
  reflexivity.
Qed.

Lemma entryFor_term (key : string) (node : Json) (d : PromptDefinitionEntry) :
  entryFor key node = Some d ->
  term d = toKnownCurie key
  /\ (kind d = entity_type <-> Js.startsWith (term d) "fide:" = true).
Proof.
  unfold entryFor. destruct node as [| | | |items|record]; try discriminate.
  destruct (stringField "@id" record) as [id|]; [|discriminate].
  destruct (String.eqb id EmptyString); [discriminate|].
  destruct (String.eqb_spec id key) as [->|_]; simpl.
  - intros E. inversion E. simpl. split; [reflexivity|].
    destruct (Js.startsWith (toKnownCurie key) "fide:"); [tauto|].
    destruct (Js.includes (toKnownCurie key) ":"); split; discriminate.
  - destruct (String.eqb_spec (toKnownCurie id) key) as [<-|_]; [|discriminate].
    intros E. inversion E. simpl. split; [now rewrite toKnownCurie_of_term|].
    destruct (Js.startsWith (toKnownCurie id) "fide:"); [tauto|].
    destruct (Js.includes (toKnownCurie id) ":"); split; discriminate.
Qed.

Lemma indexNode_termsMatchKeys index node :
  termsMatchKeys index -> termsMatchKeys (indexNode index node).
Proof.
  intros Hinv key d. rewrite indexNode_lookup.
  destruct (entryFor key node) as [d'|] eqn:E; simpl.
  - intros Ed. inversion Ed; subst. now apply (entryFor_term key node).
  - apply Hinv.
Qed.

Lemma fold_indexNode_termsMatchKeys graph index :
  termsMatchKeys index -> termsMatchKeys (fold_left indexNode graph index).
Proof.
  revert index. induction graph as [|node graph IH]; intros index Hinv; simpl; [assumption|].
  apply IH. now apply indexNode_termsMatchKeys.
Qed.

Lemma buildVocabularyIndex_termsMatchKeys files start index :
  termsMatchKeys start ->
  buildVocabularyIndex files start = Some index -> termsMatchKeys index.
Proof.
  revert start. induction files as [|[parsed|] files IH]; intros start Hstart Hb; simpl in Hb.
  - inversion Hb. now subst.
  - destruct (graphOf parsed) as [graph|]; [|discriminate].
    eapply IH; [|exact Hb]. now apply fold_indexNode_termsMatchKeys.
  - eapply IH; eassumption.
Qed.

(** X5. In the vocabulary index built from any snapshots, the term of
    every entry is the compact form of the key it is stored under, whether
    the key is the node's identifier or its compact form, and the entry's
    kind is [entity_type] exactly when that term starts with [fide:]. *)
Theorem vocabulary_index_terms_match_keys
    (files : list (option Json)) (index : gmap string PromptDefinitionEntry)
    (key : string) (d : PromptDefinitionEntry) :
  buildVocabularyIndex files ∅ = Some index ->
  index !! key = Some d ->
  term d = toKnownCurie key
  /\ (kind d = entity_type <-> Js.startsWith (term d) "fide:" = true).
Proof.
  intros Hbuild. revert key d. change (termsMatchKeys index).
  apply (buildVocabularyIndex_termsMatchKeys files ∅); [|assumption].
  intros k e Hk. rewrite lookup_empty in Hk. discriminate.
Qed.

Lemma vocabulary_index_terms_match_keys_witness :
  exists index,
    buildVocabularyIndex [Some Example.firstSnapshot; None; Some Example.secondSnapshot] ∅
    = Some index
    /\ (exists d, index !! "schema:name" = Some d /\ term d = toKnownCurie "schema:name").
Proof.
  eexists. split; [reflexivity|].
  eexists. split; [rewrite !fold_indexNode_lookup; reflexivity|].
  refine (proj1 (vocabulary_index_terms_match_keys
                   [Some Example.firstSnapshot; None; Some Example.secondSnapshot]
                   _ "schema:name" _ eq_refl _)).
  rewrite !fold_indexNode_lookup. reflexivity.
Defined.

Lemma split_lacks (c : ascii) (s : string) : lacks c s = true -> Js.split c s = [s].
Proof.
  induction s as [|x s IH]; simpl; [reflexivity|].
  intros H. apply andb_true_iff in H as [Hx Hs]. apply negb_true_iff in Hx.
  now rewrite Hx, (IH Hs).
Qed.

Lemma split_at_separator (c : ascii) (p s : string) :
  lacks c p = true ->
  Js.split c (String.append p (String c s)) = p :: Js.split c s.
Proof.
  induction p as [|x p IH]; simpl.
  - intros _. now rewrite Ascii.eqb_refl.
  - intros H. apply andb_true_iff in H as [Hx Hp]. apply negb_true_iff in Hx.
    now rewrite Hx, (IH Hp).
Qed.

(** X6. For each of the nine prefixes that [curieToIri] knows and every
    non-empty local name without a colon, the compact term is expanded to the
    prefix's base followed by the local name, and compacting that IRI gives
    the term back. *)
Theorem curie_roundtrip (prefix base local : string) :
  In (prefix, base) curieBases ->
  local <> EmptyString ->
  lacks ":"%char local = true ->
  let term' := String.append prefix (String.append ":" local) in
  curieToIri term' = Some (String.append base local)
  /\ toKnownCurie (String.append base local) = term'.
Proof.
  intros Hin Hne Hlacks. cbv zeta.
  assert (Hlocal : String.eqb local EmptyString = false) by now apply String.eqb_neq.
  unfold curieBases in Hin. simpl in Hin.
  repeat destruct Hin as [Hin|Hin]; try contradiction; inversion Hin; subst; clear Hin;
    (split;
     [ unfold curieToIri;
       match goal with
       | |- context [Js.split _ (String.append ?p (String.append ":" local))] =>
           change (String.append ":" local) with (String ":"%char local);
           rewrite (split_at_separator ":"%char p local eq_refl), (split_lacks _ _ Hlacks)
       end;
       cbn [orb String.eqb Ascii.eqb Bool.eqb]; rewrite Hlocal; reflexivity
     | unfold toKnownCurie, rebase;
       match goal with
       | |- context [String.append ?b local] =>
           repeat match goal with
           | |- context [Js.startsWith (String.append b local) ?other] =>
               lazymatch other with
               | b => rewrite (startsWith_append b local), (slice_append b local); reflexivity
               | _ => change (Js.startsWith (String.append b local) other) with false;
                      cbv iota
               end
           end
       end ]).
Qed.

Lemma curie_roundtrip_witness :
  In ("prov", "http://www.w3.org/ns/prov#") curieBases
  /\ curieToIri "prov:hadPrimarySource" = Some "http://www.w3.org/ns/prov#hadPrimarySource"
  /\ toKnownCurie "http://www.w3.org/ns/prov#hadPrimarySource" = "prov:hadPrimarySource".
Proof.
  split; [unfold curieBases; simpl; tauto|].
  apply (curie_roundtrip "prov" "http://www.w3.org/ns/prov#" "hadPrimarySource").
  - unfold curieBases; simpl; tauto.
  - discriminate.
  - reflexivity.
Defined.

(** ** The command line *)

Lemma prefix_single (c b : ascii) (s : string) :
  String.prefix (String c EmptyString) (String b s) = Ascii.eqb c b.
Proof.
  simpl. destruct (ascii_dec c b) as [->|N].
  - rewrite Ascii.eqb_refl. now destruct s.
  - symmetry. now apply Ascii.eqb_neq.
Qed.

Lemma append_nil_l (s : string) : String.append EmptyString s = s.
Proof. reflexivity. Qed.

Lemma append_cons (x : ascii) (k s : string) :
  String.append (String x k) s = String x (String.append k s).
Proof. reflexivity. Qed.

Lemma index_of_separator (c : ascii) (k v : string) :
  lacks c k = true ->
  String.index 0 (String c EmptyString) (String.append k (String c v)) = Some (String.length k).
Proof.
  induction k as [|x k IH]; intros Hk.
  - rewrite append_nil_l. cbn [String.index]. now rewrite prefix_single, Ascii.eqb_refl.
  - simpl in Hk. apply andb_true_iff in Hk as [Hx Hk]. apply negb_true_iff in Hx.
    rewrite append_cons. cbn [String.index String.length].
    rewrite prefix_single, (Ascii.eqb_sym c x), Hx, (IH Hk). reflexivity.
Qed.

Lemma index_of_absent (c : ascii) (k : string) :
  lacks c k = true -> String.index 0 (String c EmptyString) k = None.
Proof.
  induction k as [|x k IH]; intros Hk; [reflexivity|].
  simpl in Hk. apply andb_true_iff in Hk as [Hx Hk]. apply negb_true_iff in Hx.
  cbn [String.index]. now rewrite prefix_single, (Ascii.eqb_sym c x), Hx, (IH Hk).
Qed.

Section ParseArgsFacts.
Variables (k : string) (value : FlagValue) (token : string).

(** [token] is a flag token that sets [k] to [value] whatever follows it
    when it is the last token, and that no flag takes as its value. *)
Hypothesis token_dashed : Js.startsWith token "--" = true.
Hypothesis token_alone : forall positionals flags,
  parseArgsFrom [token] positionals flags
  = {| pa_positionals := positionals; pa_flags := <[k := value]> flags |}.

Lemma token_not_empty : String.eqb token EmptyString = false.
Proof. destruct token; [discriminate token_dashed|reflexivity]. Qed.

Lemma parseArgsFrom_last_token (n : nat) :
  forall args positionals flags, (List.length args <= n)%nat ->
  parseArgsFrom (args ++ [token]) positionals flags
  = {| pa_positionals := pa_positionals (parseArgsFrom args positionals flags);
       pa_flags := <[k := value]> (pa_flags (parseArgsFrom args positionals flags)) |}.
Proof.
  induction n as [|n IH]; intros args positionals flags Hlen.
  - destruct args; [|simpl in Hlen; lia].
    change ([] ++ [token]) with [token]. now rewrite token_alone.
  - destruct args as [|first rest];
      [change ([] ++ [token]) with [token]; now rewrite token_alone|].
    simpl in Hlen.
    change ((first :: rest) ++ [token]) with (first :: (rest ++ [token])).
    cbn [parseArgsFrom].
    destruct (negb (Js.startsWith first "--")).
    { apply IH. lia. }
    destruct (String.index 0 "=" (Js.slice 2 first)) as [eqIndex|].
    { apply IH. lia. }
    destruct rest as [|next rest'].
    + change ([] ++ [token]) with [token]. cbv iota.
      rewrite token_not_empty, token_dashed. simpl orb. cbv iota.
      now rewrite token_alone.
    + change ((next :: rest') ++ [token]) with (next :: (rest' ++ [token])). cbv iota.
      destruct (String.eqb next EmptyString || Js.startsWith next "--").
      * change (next :: rest' ++ [token]) with ((next :: rest') ++ [token]).
        apply IH. simpl in *. lia.
      * apply IH. simpl in *. lia.
Qed.

End ParseArgsFacts.

Lemma slice_two_dashes (s : string) : Js.slice 2 (String.append "--" s) = s.
Proof. reflexivity. Qed.

Lemma slice_past_separator (c : ascii) (k v : string) :
  Js.slice (S (String.length k)) (String.append k (String c v)) = v.
Proof. induction k as [|x k IH]; [reflexivity|]. rewrite append_cons. exact IH. Qed.

Lemma assignment_token_alone (k v : string) :
  lacks "="%char k = true ->
  forall positionals flags,
    parseArgsFrom [String.append "--" (String.append k (String "="%char v))] positionals flags
    = {| pa_positionals := positionals; pa_flags := <[k := FlagString v]> flags |}.
Proof.
  intros Hk positionals flags.
  cbn [parseArgsFrom].
  rewrite (startsWith_append "--"), !slice_two_dashes. simpl negb. cbv iota.
  rewrite (index_of_separator "="%char k v Hk).
  now rewrite (take_append k), slice_past_separator.
Qed.

Lemma bare_token_alone (k : string) :
  lacks "="%char k = true ->
  forall positionals flags,
    parseArgsFrom [String.append "--" k] positionals flags
    = {| pa_positionals := positionals; pa_flags := <[k := FlagBool true]> flags |}.
Proof.
  intros Hk positionals flags.
  cbn [parseArgsFrom].
  rewrite (startsWith_append "--"), !slice_two_dashes. simpl negb. cbv iota.
  now rewrite (index_of_absent "="%char k Hk).
Qed.

(** X7. Whatever tokens come before it, a last token [--key=value], with
    no equals sign in the key, leaves the flag [key] set to the string
    [value]: later assignments override earlier ones, and no earlier flag
    takes the token as its own value. The positionals are those of the tokens
    before it. *)
Theorem parseArgs_last_assignment_wins (args : list string) (k v : string) :
  lacks "="%char k = true ->
  let parsed := parseArgs (args ++ [String.append "--" (String.append k (String "="%char v))]) in
  getStringFlag (pa_flags parsed) k = Some v
  /\ pa_positionals parsed = pa_positionals (parseArgs args)
  /\ (forall other, other <> k ->
        pa_flags parsed !! other = pa_flags (parseArgs args) !! other).
Proof.
  intros Hk. cbv zeta. unfold parseArgs.
  rewrite (parseArgsFrom_last_token k (FlagString v) _
             (startsWith_append "--" _) (assignment_token_alone k v Hk)
             (List.length args) args [] ∅ (le_n _)).
  cbn [pa_flags pa_positionals]. unfold getStringFlag.
  rewrite lookup_insert_eq. split; [reflexivity|]. split; [reflexivity|].
  intros other Hne. now rewrite lookup_insert_ne.
Qed.

Lemma parseArgs_last_assignment_wins_witness :
  lacks "="%char "consideration" = true
  /\ getStringFlag
       (pa_flags (parseArgs (["prompt-atomic"; "--consideration"; "name_alignment"; "--json"]
                               ++ ["--consideration=citation_chain"])))
       "consideration" = Some "citation_chain".
Proof.
  split; [reflexivity|].
  exact (proj1 (parseArgs_last_assignment_wins
                  ["prompt-atomic"; "--consideration"; "name_alignment"; "--json"]
                  "consideration" "citation_chain" eq_refl)).
Defined.

Lemma parseArgsFrom_positionals (n : nat) :
  forall args positionals flags, (List.length args <= n)%nat ->
  exists extra,
    pa_positionals (parseArgsFrom args positionals flags) = positionals ++ extra
    /\ sublist extra args
    /\ Forall (fun token => Js.startsWith token "--" = false) extra.
Proof.
  induction n as [|n IH]; intros args positionals flags Hlen.
  - destruct args; [|simpl in Hlen; lia].
    exists []. simpl. rewrite app_nil_r. repeat split; constructor.
  - destruct args as [|first rest].
    { exists []. simpl. rewrite app_nil_r. repeat split; constructor. }
    simpl in Hlen. cbn [parseArgsFrom].
    destruct (Js.startsWith first "--") eqn:Hdash; simpl negb; cbv iota.
    + destruct (String.index 0 "=" (Js.slice 2 first)) as [eqIndex|].
      * destruct (IH rest positionals
                    (<[Js.take eqIndex (Js.slice 2 first)
                       := FlagString (Js.slice (S eqIndex) (Js.slice 2 first))]> flags))
          as [extra [E [Hsub Hall]]]; [lia|].
        exists extra. split; [exact E|]. split; [now apply sublist_cons|exact Hall].
      * destruct rest as [|next rest'].
        { exists []. simpl. rewrite app_nil_r. repeat split; constructor. apply sublist_nil_l. }
        destruct (String.eqb next EmptyString || Js.startsWith next "--").
        -- destruct (IH (next :: rest') positionals (<[Js.slice 2 first := FlagBool true]> flags))
             as [extra [E [Hsub Hall]]]; [simpl in *; lia|].
           exists extra. split; [exact E|]. split; [now apply sublist_cons|exact Hall].
        -- destruct (IH rest' positionals (<[Js.slice 2 first := FlagString next]> flags))
             as [extra [E [Hsub Hall]]]; [simpl in *; lia|].
           exists extra. split; [exact E|].
           split; [now apply sublist_cons, sublist_cons|exact Hall].
    + destruct (IH rest (positionals ++ [first]) flags) as [extra [E [Hsub Hall]]]; [lia|].
      exists (first :: extra). split; [|split].
      * rewrite E, <- app_assoc. reflexivity.
      * now apply sublist_skip.
      * constructor; assumption.
Qed.

(** X8. The positionals that [parseArgs] returns are tokens of the command
    line, in their order, and none of them starts with two dashes. *)
Theorem parseArgs_positionals (args : list string) :
  sublist (pa_positionals (parseArgs args)) args
  /\ Forall (fun token => Js.startsWith token "--" = false) (pa_positionals (parseArgs args)).
Proof.
  unfold parseArgs.
  destruct (parseArgsFrom_positionals (List.length args) args [] ∅ (le_n _))
    as [extra [E [Hsub Hall]]].
  rewrite E. simpl. auto.
Qed.

Section ValidationFacts.
Context {fcp : Fcp} {host : Host} {renderer : Renderer}.

(** X9. A run without a usable [--statement] flag ends with exit code 1
    and the missing-flag message before anything is loaded: that is so when
    the flag is absent, empty or a bare boolean flag, and in particular when
    [--statement] is the last token of the command line, whatever comes
    before it. *)
Theorem runPromptAtomic_requires_statement (wires : list StatementWire) :
  (forall flags,
     Js.truthy (getStringFlag flags "statement") = false ->
     runPromptAtomic flags wires
     = Failed "Missing required flag: --statement <owl-sameAs-statement-fide-id>" [])
  /\ (forall args,
        runPromptAtomic (pa_flags (parseArgs (args ++ ["--statement"]))) wires
        = Failed "Missing required flag: --statement <owl-sameAs-statement-fide-id>" []).
Proof.
  assert (Hmissing : forall flags,
     Js.truthy (getStringFlag flags "statement") = false ->
     runPromptAtomic flags wires
     = Failed "Missing required flag: --statement <owl-sameAs-statement-fide-id>" []).
  { intros flags Hfalsy. unfold runPromptAtomic.
    destruct (getStringFlag flags "statement") as [wanted|]; [|reflexivity].
    now rewrite Hfalsy. }
  split; [exact Hmissing|].
  intros args. apply Hmissing. unfold parseArgs.
  rewrite (parseArgsFrom_last_token "statement" (FlagBool true) "--statement"
             eq_refl (bare_token_alone "statement" eq_refl)
             (List.length args) args [] ∅ (le_n _)).
  cbn [pa_flags]. unfold getStringFlag. now rewrite lookup_insert_eq.
Qed.

(** X10. A run given [--out] with a value that is not empty, a run given
    an unknown [--consideration], and a run given [--evidence-statement]
    without a consideration all end with exit code 1 and no file written,
    whatever the statements are: the flags are checked before the statements
    are loaded. A bare [--out], stored as a boolean, and an empty [--out=]
    are not refused: the run is the run without the flag. *)
Theorem runPromptAtomic_rejects_flags
    (flags : gmap string FlagValue) (wires : list StatementWire) :
  (Js.truthy (getStringFlag flags "out") = true
   \/ (Js.truthy (getStringFlag flags "consideration") = true
       /\ normalizeAtomicConsideration (getStringFlag flags "consideration") = None)
   \/ (Js.truthy (getStringFlag flags "evidence-statement") = true
       /\ normalizeAtomicConsideration (getStringFlag flags "consideration") = None) ->
   exists message, runPromptAtomic flags wires = Failed message [])
  /\ (Js.truthy (getStringFlag flags "out") = false ->
      runPromptAtomic flags wires = runPromptAtomic (delete "out" flags) wires).
Proof.
  split.
  - intros Hbad. unfold runPromptAtomic.
    destruct (getStringFlag flags "statement") as [wanted|]; [|eauto].
    destruct (negb (Js.truthy (Some wanted))); [eauto|].
    destruct (Js.truthy (getStringFlag flags "consideration")
              && negb (bool_decide (is_Some (normalizeAtomicConsideration
                                               (getStringFlag flags "consideration"))))) eqn:Hc;
      [eauto|].
    destruct (Js.truthy (getStringFlag flags "out")) eqn:Ho; [eauto|].
    destruct (Js.truthy (getStringFlag flags "evidence-statement")
              && negb (bool_decide (is_Some (normalizeAtomicConsideration
                                               (getStringFlag flags "consideration"))))) eqn:He;
      [eauto|].
    exfalso. destruct Hbad as [Hout|[[Ht Hn]|[Ht Hn]]].
    + discriminate.
    + rewrite Ht, Hn in Hc. discriminate.
    + rewrite Ht, Hn in He. discriminate.
  - intros Hout.
    assert (Hget : forall key, key <> "out" ->
              getStringFlag (delete "out" flags) key = getStringFlag flags key).
    { intros key Hkey. unfold getStringFlag. rewrite lookup_delete_ne by congruence.
      reflexivity. }
    assert (Hgone : Js.truthy (getStringFlag (delete "out" flags) "out") = false).
    { unfold getStringFlag. now rewrite lookup_delete_eq. }
    assert (Hjson : hasFlag (delete "out" flags) "json" = hasFlag flags "json").
    { unfold hasFlag. now rewrite lookup_delete_ne by discriminate. }
    unfold runPromptAtomic, runConsiderations.
    rewrite !(Hget "statement"), !(Hget "consideration"), !(Hget "evidence-statement")
      by discriminate.
    rewrite Hgone, Hout, Hjson. reflexivity.
Qed.

End ValidationFacts.

Lemma runPromptAtomic_rejects_flags_witness :
  Js.truthy (getStringFlag (<["out" := FlagString "prompt.md"]> Example.nameAlignmentFlags) "out")
  = true
  /\ (exists message,
        runPromptAtomic (fcp := Example.standInFcp) (host := Example.codeUnitHost)
          (renderer := Example.plainRenderer)
          (<["out" := FlagString "prompt.md"]> Example.nameAlignmentFlags) Example.wires
        = Failed message [])
  /\ Js.truthy (getStringFlag (<["out" := FlagBool true]> Example.nameAlignmentFlags) "out")
     = false
  /\ runPromptAtomic (fcp := Example.standInFcp) (host := Example.codeUnitHost)
       (renderer := Example.plainRenderer)
       (<["out" := FlagBool true]> Example.nameAlignmentFlags) Example.wires
     = runPromptAtomic (fcp := Example.standInFcp) (host := Example.codeUnitHost)
         (renderer := Example.plainRenderer)
         (delete "out" (<["out" := FlagBool true]> Example.nameAlignmentFlags)) Example.wires
  /\ exitCode
       (runPromptAtomic (fcp := Example.standInFcp) (host := Example.codeUnitHost)
          (renderer := Example.plainRenderer)
          (<["out" := FlagBool true]> Example.nameAlignmentFlags) Example.wires)
     = Some 0.
Proof.
  split; [reflexivity|]. split.
  - apply (proj1 (runPromptAtomic_rejects_flags (fcp := Example.standInFcp)
                    (host := Example.codeUnitHost) (renderer := Example.plainRenderer)
                    _ Example.wires)).
    left. reflexivity.
  - split; [reflexivity|]. split; [|vm_compute; reflexivity].
    apply (proj2 (runPromptAtomic_rejects_flags (fcp := Example.standInFcp)
                    (host := Example.codeUnitHost) (renderer := Example.plainRenderer)
                    _ Example.wires)).
    reflexivity.
Defined.

(** ** The files of a run *)

Lemma length_append (a b : string) :
  String.length (String.append a b) = (String.length a + String.length b)%nat.
Proof.
  induction a as [|x a IH]; [reflexivity|].
  rewrite append_cons. simpl. now rewrite IH.
Qed.

Lemma endsWith_append (a p : string) : Js.endsWith (String.append a p) p = true.
Proof.
  unfold Js.endsWith. rewrite length_append.
  replace (String.length a + String.length p - String.length p)%nat with (String.length a) by lia.
  rewrite slice_append, String.eqb_refl, andb_true_r.
  apply Nat.leb_le. lia.
Qed.

Lemma outPath_shape (tag statementId evidenceId : string) :
  Js.startsWith (defaultEvalPromptAtomicOutPath tag statementId evidenceId) promptsRoot = true
  /\ Js.endsWith (defaultEvalPromptAtomicOutPath tag statementId evidenceId) ".md" = true.
Proof.
  unfold defaultEvalPromptAtomicOutPath, joinPath.
  set (slug' := slugifyIdentifier statementId). set (short := shortFideSuffix evidenceId).
  split.
  - change (String.concat "/"
              ["_scratch/evals/prompts"; "temporal-validity/owl-sameAs/Person"; slug';
               String.append tag (String.append "--" (String.append short ".md"))])
      with (String.append promptsRoot
              (String.append slug'
                 (String.append "/"
                    (String.append tag (String.append "--" (String.append short ".md")))))).
    apply startsWith_append.
  - change (String.concat "/"
              ["_scratch/evals/prompts"; "temporal-validity/owl-sameAs/Person"; slug';
               String.append tag (String.append "--" (String.append short ".md"))])
      with (String.append promptsRoot
              (String.append slug'
                 (String.append "/"
                    (String.append tag (String.append "--" (String.append short ".md")))))).
    rewrite <- !append_assoc. apply endsWith_append.
Qed.

Section RunFacts.
Context {fcp : Fcp} {host : Host} {renderer : Renderer}.

Lemma generateAll_shape current target base ctx (selected : list FideIdStatement) :
  forall st st' finished,
    generateAll current target base ctx selected st = (st', finished) ->
    filesMatchPrompts st ->
    filesMatchPrompts st'
    /\ considerationSummaries st' = considerationSummaries st
    /\ exists items,
         generated st' = generated st ++ items
         /\ (List.length items <= List.length selected)%nat
         /\ (finished = true -> List.length items = List.length selected).
Proof.
  induction selected as [|evidence rest IH]; intros st st' finished Hgen Hinv; simpl in Hgen.
  - inversion Hgen; subst. split; [assumption|]. split; [reflexivity|].
    exists []. rewrite app_nil_r. auto.
  - destruct (renderPrompt current target evidence _ ctx) as [prompt|].
    + apply IH in Hgen.
      * destruct Hgen as [Hinv' [Hsums [items [Hitems [Hle Hfin]]]]]. simpl in *.
        split; [assumption|]. split; [assumption|].
        eexists (_ :: items). rewrite Hitems, <- app_assoc. split; [reflexivity|].
        simpl. split; [lia|]. intros Hf. now rewrite (Hfin Hf).
      * destruct Hinv as [Hpaths Hfiles]. unfold filesMatchPrompts. simpl.
        rewrite !map_app, Hpaths. simpl. split; [reflexivity|].
        apply Forall_app. split; [assumption|]. constructor; [|constructor].
        unfold isPromptFile. cbn [fst snd].
        destruct (outPath_shape (considerationTag current) (statementFideId target)
                    (statementFideId evidence)) as [-> ->]. cbn [andb].
        destruct (Js.endsWith prompt Js.newline) eqn:En; [exact En|apply endsWith_append].
    + inversion Hgen; subst. split; [assumption|]. split; [reflexivity|].
      exists []. rewrite app_nil_r. simpl. repeat split; [lia|discriminate].
Qed.

Lemma pushSummary_filesMatchPrompts summary st :
  filesMatchPrompts st -> filesMatchPrompts (pushSummary summary st).
Proof. intros H. exact H. Qed.

Lemma considerationStep_files consideration explicitEvidence target ctx st current :
  filesMatchPrompts st ->
  filesMatchPrompts
    (stateOf (considerationStep consideration explicitEvidence target ctx st current)).
Proof.
  intros Hinv. unfold considerationStep.
  destruct (chooseEvidencePool consideration current target ctx) as [message|summary|pool base];
    [exact Hinv|exact Hinv|].
  destruct (selectEvidence current explicitEvidence pool) as [message|[|e selected]];
    [exact Hinv|destruct consideration; exact Hinv|].
  destruct (generateAll current target base ctx (e :: selected) st) as [st' finished] eqn:Hgen.
  destruct (generateAll_shape _ _ _ _ _ _ _ _ Hgen Hinv) as [Hinv' _].
  destruct finished; exact Hinv'.
Qed.

Lemma considerationLoop_files consideration explicitEvidence target ctx considerations' :
  forall st, filesMatchPrompts st ->
  filesMatchPrompts
    (stateOf (considerationLoop consideration explicitEvidence target ctx considerations' st)).
Proof.
  induction considerations' as [|current rest IH]; intros st Hinv; simpl; [exact Hinv|].
  pose proof (considerationStep_files consideration explicitEvidence target ctx st current Hinv)
    as Hstep.
  destruct (considerationStep consideration explicitEvidence target ctx st current);
    simpl in Hstep; [exact Hstep|exact Hstep|now apply IH].
Qed.

Lemma emptyState_filesMatchPrompts : filesMatchPrompts emptyState.
Proof. split; [reflexivity|constructor]. Qed.

Lemma runConsiderations_files flags consideration explicitEvidence target statements :
  let r := runConsiderations flags consideration explicitEvidence target statements in
  Forall (fun file => isPromptFile file = true) (filesOf r)
  /\ (forall out files, r = Succeeded out files ->
        files <> []
        /\ match out with
           | PrintedPaths paths => paths = map fst files
           | PrintedJson summary =>
               map g_outPath (generatedPrompts summary) = map fst files
               /\ generatedCount summary = List.length files
           end).
Proof.
  cbv zeta. unfold runConsiderations.
  pose proof (considerationLoop_files consideration explicitEvidence target
                (buildPersonPromptContextStatements target statements)
                (match consideration with Some c => [c] | None => ALL_ATOMIC_CONSIDERATIONS end)
                emptyState emptyState_filesMatchPrompts) as Hinv.
  destruct (considerationLoop _ _ _ _ _ emptyState) as [message st|st|st];
    simpl in Hinv; destruct Hinv as [Hpaths Hfiles].
  - split; [exact Hfiles|]. intros out files E. discriminate.
  - split; [exact Hfiles|]. intros out files E. discriminate.
  - destruct (generated st) as [|g gs] eqn:Eg.
    + split; [exact Hfiles|]. intros out files E. discriminate.
    + assert (Hlen : List.length (written st) = List.length (g :: gs)).
      { rewrite <- (length_map fst), Hpaths, length_map. reflexivity. }
      destruct (hasFlag flags "json"); (split; [exact Hfiles|]);
        intros out files E; inversion E; subst; clear E.
      * split; [destruct (written st); [discriminate|discriminate]|].
        simpl. split; [now rewrite Hpaths|now rewrite Hlen].
      * split; [destruct (written st); [discriminate|discriminate]|].
        now rewrite Hpaths.
Qed.

(** X11. Every file that a run of [eval prompt-atomic] writes, whether the
    run ends well or not, is a Markdown file under the prompts directory of
    the method, and its text ends with a line feed. When the run succeeds
    at least one file was written, and the paths it prints, or the prompts of
    the summary it prints, are the paths of the files written, in order. *)
Theorem runPromptAtomic_files (flags : gmap string FlagValue) (wires : list StatementWire) :
  let r := runPromptAtomic flags wires in
  Forall (fun file => isPromptFile file = true) (filesOf r)
  /\ (forall out files, r = Succeeded out files ->
        files <> []
        /\ match out with
           | PrintedPaths paths => paths = map fst files
           | PrintedJson summary =>
               map g_outPath (generatedPrompts summary) = map fst files
               /\ generatedCount summary = List.length files
           end).
Proof.
  cbv zeta. unfold runPromptAtomic.
  assert (Hfail : forall message,
    Forall (fun file => isPromptFile file = true) (filesOf (Failed message []))
    /\ (forall out files, Failed message [] = Succeeded out files ->
          files <> []
          /\ match out with
             | PrintedPaths paths => paths = map fst files
             | PrintedJson summary =>
                 map g_outPath (generatedPrompts summary) = map fst files
                 /\ generatedCount summary = List.length files
             end)).
  { intros message. split; [constructor|]. intros out files E. discriminate. }
  assert (Hthrow :
    Forall (fun file => isPromptFile file = true) (filesOf (Threw []))
    /\ (forall out files, Threw [] = Succeeded out files ->
          files <> []
          /\ match out with
             | PrintedPaths paths => paths = map fst files
             | PrintedJson summary =>
                 map g_outPath (generatedPrompts summary) = map fst files
                 /\ generatedCount summary = List.length files
             end)).
  { split; [constructor|]. intros out files E. discriminate. }
  destruct (getStringFlag flags "statement") as [wanted|]; [|apply Hfail].
  destruct (negb (Js.truthy (Some wanted))); [apply Hfail|].
  destruct (Js.truthy (getStringFlag flags "consideration") && _); [apply Hfail|].
  destruct (Js.truthy (getStringFlag flags "out")); [apply Hfail|].
  destruct (Js.truthy (getStringFlag flags "evidence-statement") && _); [apply Hfail|].
  destruct (wiresToStatements wires) as [statements|]; [|apply Hthrow].
  destruct (Js.find _ statements) as [target|]; [|apply Hfail].
  destruct (negb (String.eqb (predicateRawIdentifier target) OWL_SAME_AS_IRI)); [apply Hfail|].
  destruct (passesPersonMethodCriteria target) as [[reason|]|];
    [apply Hfail| |apply Hthrow].
  apply runConsiderations_files.
Qed.

(** X12. A run succeeds only on a statement that the [--statement] flag
    names, that is among the loaded statements, whose predicate is
    [owl:sameAs] and whose subject identifier parses to the entity type
    [Person]; and only when the [--out] flag carries no string that is not
    empty. *)
Theorem runPromptAtomic_success_needs_person_sameAs
    (flags : gmap string FlagValue) (wires : list StatementWire)
    (out : Stdout) (files : list (string * string)) :
  runPromptAtomic flags wires = Succeeded out files ->
  exists wanted statements target sourceType,
    getStringFlag flags "statement" = Some wanted
    /\ wanted <> EmptyString
    /\ wiresToStatements wires = Some statements
    /\ In target statements
    /\ statementFideId target = wanted
    /\ predicateRawIdentifier target = OWL_SAME_AS_IRI
    /\ parseFideId (subjectFideId target) = Some ("Person", sourceType)
    /\ Js.truthy (getStringFlag flags "out") = false.
Proof.
  unfold runPromptAtomic.
  destruct (getStringFlag flags "statement") as [wanted|]; [|discriminate].
  destruct (Js.truthy (Some wanted)) eqn:Hw; simpl negb; cbv iota; [|discriminate].
  destruct (Js.truthy (getStringFlag flags "consideration") && _); [discriminate|].
  destruct (Js.truthy (getStringFlag flags "out")) eqn:Ho; [discriminate|].
  destruct (Js.truthy (getStringFlag flags "evidence-statement") && _); [discriminate|].
  destruct (wiresToStatements wires) as [statements|]; [|discriminate].
  destruct (Js.find _ statements) as [target|] eqn:Hfind; [|discriminate].
  destruct (String.eqb_spec (predicateRawIdentifier target) OWL_SAME_AS_IRI) as [Hp|];
    simpl negb; cbv iota; [|discriminate].
  unfold passesPersonMethodCriteria. rewrite Hp. simpl negb. cbv iota.
  destruct (parseFideId (subjectFideId target)) as [[subjectType sourceType]|] eqn:Hparse;
    [|discriminate].
  destruct (String.eqb_spec subjectType "Person") as [->|]; simpl negb; cbv iota; [|discriminate].
  intros _. unfold Js.find in Hfind. apply List.find_some in Hfind as [Hin Hid].
  apply eqb_true_iff in Hid.
  exists wanted, statements, target, sourceType.
  repeat split; try assumption; try reflexivity.
  simpl in Hw. apply negb_true_iff in Hw. now apply String.eqb_neq in Hw.
Qed.

End RunFacts.

Lemma runPromptAtomic_success_needs_person_sameAs_witness :
  runPromptAtomic (fcp := Example.standInFcp) (host := Example.codeUnitHost)
    (renderer := Example.plainRenderer) Example.nameAlignmentFlags Example.wires
  = Succeeded
      (PrintedPaths
         ["_scratch/evals/prompts/temporal-validity/owl-sameAs/Person/did-fide-0x00aaaabbbbcccc/name_alignment--00aaaaf00144.md"])
      [("_scratch/evals/prompts/temporal-validity/owl-sameAs/Person/did-fide-0x00aaaabbbbcccc/name_alignment--00aaaaf00144.md",
        String.append "# Atomic Evidence Check: did:fide:0x00aaaaf0014446" Js.newline)]
  /\ exists wanted statements target sourceType,
       getStringFlag Example.nameAlignmentFlags "statement" = Some wanted
       /\ wanted <> EmptyString
       /\ wiresToStatements (fcp := Example.standInFcp) Example.wires = Some statements
       /\ In target statements
       /\ statementFideId target = wanted
       /\ predicateRawIdentifier target = OWL_SAME_AS_IRI
       /\ parseFideId (Fcp := Example.standInFcp) (subjectFideId target)
          = Some ("Person", sourceType)
       /\ Js.truthy (getStringFlag Example.nameAlignmentFlags "out") = false.
Proof.
  assert (E : runPromptAtomic (fcp := Example.standInFcp) (host := Example.codeUnitHost)
    (renderer := Example.plainRenderer) Example.nameAlignmentFlags Example.wires
  = Succeeded
      (PrintedPaths
         ["_scratch/evals/prompts/temporal-validity/owl-sameAs/Person/did-fide-0x00aaaabbbbcccc/name_alignment--00aaaaf00144.md"])
      [("_scratch/evals/prompts/temporal-validity/owl-sameAs/Person/did-fide-0x00aaaabbbbcccc/name_alignment--00aaaaf00144.md",
        String.append "# Atomic Evidence Check: did:fide:0x00aaaaf0014446" Js.newline)])
    by (vm_compute; reflexivity).
  split; [exact E|].
  exact (runPromptAtomic_success_needs_person_sameAs (fcp := Example.standInFcp)
           (host := Example.codeUnitHost) (renderer := Example.plainRenderer) _ _ _ _ E).
Defined.

(** ** The summary of a run *)

Section SummaryFacts.
Context {fcp : Fcp} {host : Host} {renderer : Renderer}.

Lemma chooseEvidencePool_base consideration current target ctx pool base :
  chooseEvidencePool consideration current target ctx = ChoosePool pool base ->
  (List.length base <= 1)%nat.
Proof.
  unfold chooseEvidencePool.
  destruct (isCitationChain current).
  - destruct (anchorCandidates target ctx) as [|anchor rest];
      [destruct consideration; discriminate|].
    destruct (List.filter _ _); [destruct consideration; discriminate|].
    intros E; inversion E; subst. simpl. lia.
  - destruct (pickAtomicEvidencePool current target ctx);
      [destruct consideration; discriminate|].
    intros E; inversion E; subst. simpl. lia.
Qed.

Lemma pickAtomicRequiredAnchor_length consideration target evidence ctx :
  (List.length (pickAtomicRequiredAnchor consideration target evidence ctx) <= 1)%nat.
Proof.
  unfold pickAtomicRequiredAnchor.
  assert (Hfb : forall o : option FideIdStatement, (List.length (optionToList o) <= 1)%nat)
    by (intros [x|]; simpl; lia).
  destruct consideration; try apply Hfb.
  destruct (Js.find _ ctx); [simpl; lia|].
  destruct (Js.sort _ _); [apply Hfb|simpl; lia].
Qed.

Lemma generateAll_prompts considerations' current target base ctx
    (selected : list FideIdStatement) :
  In current considerations' ->
  (List.length base <= 1)%nat ->
  forall st st' finished,
    generateAll current target base ctx selected st = (st', finished) ->
    Forall (promptOf considerations' target) (generated st) ->
    Forall (promptOf considerations' target) (generated st').
Proof.
  intros Hin Hbase.
  induction selected as [|evidence rest IH]; intros st st' finished Hgen Hinv; simpl in Hgen.
  - now inversion Hgen; subst.
  - destruct (renderPrompt current target evidence _ ctx) as [prompt|].
    + apply IH in Hgen; [assumption|]. cbn [generated].
      apply Forall_app. split; [assumption|]. constructor; [|constructor].
      unfold promptOf. cbn [g_consideration g_outPath g_evidenceStatementFideId
                              g_supportingStatementCount].
      split; [assumption|]. split; [reflexivity|].
      destruct (isCitationChain current);
        [assumption|apply pickAtomicRequiredAnchor_length].
    + now inversion Hgen; subst.
Qed.

Lemma sumGenerated_app (a b : list ConsiderationSummary) :
  sumGenerated (a ++ b) = (sumGenerated a + sumGenerated b)%nat.
Proof. induction a as [|x a IH]; simpl; [reflexivity|]. rewrite IH. lia. Qed.

Lemma accounted_skip st done current poolCount reason :
  accounted st done ->
  accounted (pushSummary (skipped current poolCount reason) st) (done ++ [current]).
Proof.
  intros [Hmap [Hsum Hskip]]. unfold accounted, pushSummary. cbn [considerationSummaries generated].
  rewrite map_app, sumGenerated_app, Hmap, Hsum. simpl.
  split; [reflexivity|]. split; [lia|].
  apply Forall_app. split; [assumption|]. constructor; [|constructor]. reflexivity.
Qed.

Lemma considerationStep_accounted considerations' consideration explicitEvidence target ctx
    st st' current done :
  In current considerations' ->
  considerationStep consideration explicitEvidence target ctx st current = StepNext st' ->
  accounted st done /\ Forall (promptOf considerations' target) (generated st) ->
  accounted st' (done ++ [current]) /\ Forall (promptOf considerations' target) (generated st').
Proof.
  intros Hin Hstep [Hacc Hprompts]. unfold considerationStep in Hstep.
  destruct (chooseEvidencePool consideration current target ctx) as [message|summary|pool base]
    eqn:Hchoice; [discriminate| |].
  - inversion Hstep; subst. split; [|exact Hprompts].
    unfold chooseEvidencePool in Hchoice.
    destruct (isCitationChain current).
    + destruct (anchorCandidates target ctx).
      * destruct consideration; [discriminate|]. inversion Hchoice; subst.
        now apply accounted_skip.
      * destruct (List.filter _ _); [|discriminate].
        destruct consideration; [discriminate|]. inversion Hchoice; subst.
        now apply accounted_skip.
    + destruct (pickAtomicEvidencePool current target ctx); [|discriminate].
      destruct consideration; [discriminate|]. inversion Hchoice; subst.
      now apply accounted_skip.
  - destruct (selectEvidence current explicitEvidence pool) as [message|[|e selected]];
      [discriminate| |].
    + destruct consideration; [discriminate|]. inversion Hstep; subst.
      split; [now apply accounted_skip|exact Hprompts].
    + destruct (generateAll current target base ctx (e :: selected) st) as [st'' finished]
        eqn:Hgen.
      destruct finished; [|discriminate]. inversion Hstep; subst. clear Hstep.
      pose proof (generateAll_prompts considerations' _ _ _ _ _ Hin
                    (chooseEvidencePool_base _ _ _ _ _ _ Hchoice) _ _ _ Hgen Hprompts)
        as Hprompts'.
      split; [|exact Hprompts'].
      assert (Hshape : considerationSummaries st'' = considerationSummaries st
                       /\ exists items, generated st'' = generated st ++ items).
      { clear Hprompts Hprompts' Hacc. revert st Hgen.
        generalize (e :: selected) as l.
        induction l as [|x l IH]; intros st Hgen; simpl in Hgen.
        - inversion Hgen; subst. split; [reflexivity|]. exists []. now rewrite app_nil_r.
        - destruct (renderPrompt current target x _ ctx); [|discriminate].
          apply IH in Hgen. cbn [generated considerationSummaries] in Hgen.
          destruct Hgen as [Hs [items Hi]]. split; [assumption|].
          eexists. rewrite Hi, <- app_assoc. reflexivity. }
      destruct Hshape as [Hs [items Hi]].
      destruct Hacc as [Hmap [Hsum Hskip]].
      unfold accounted, pushSummary. cbn [considerationSummaries generated].
      rewrite Hs, map_app, sumGenerated_app, Hmap, Hsum, Hi, !length_app. simpl.
      split; [reflexivity|]. split; [lia|].
      apply Forall_app. split; [assumption|]. constructor; [|constructor].
      cbn [cs_skippedReason]. intros [reason Hnone]. discriminate.
Qed.

Lemma considerationLoop_accounted considerations' consideration explicitEvidence target ctx
    (todo : list AtomicConsideration) :
  (forall c, In c todo -> In c considerations') ->
  forall st st' done,
    considerationLoop consideration explicitEvidence target ctx todo st = StepNext st' ->
    accounted st done /\ Forall (promptOf considerations' target) (generated st) ->
    accounted st' (done ++ todo) /\ Forall (promptOf considerations' target) (generated st').
Proof.
  induction todo as [|current rest IH]; intros Hsub st st' done Hloop Hinv; simpl in Hloop.
  - inversion Hloop; subst. now rewrite app_nil_r.
  - destruct (considerationStep consideration explicitEvidence target ctx st current)
      as [message st1|st1|st1] eqn:Hstep; [discriminate|discriminate|].
    eapply (considerationStep_accounted considerations') in Hstep;
      [|apply Hsub; now left|exact Hinv].
    eapply IH in Hloop; [|intros c Hc; apply Hsub; now right|exact Hstep].
    now rewrite <- app_assoc in Hloop.
Qed.

(** X13. The summary that a successful run prints with [--json] adds up:
    it holds one entry per consideration of the run, in the order of the
    run, all five of them when no consideration was asked for; the prompts
    counted by the entries are the prompts listed, and there is at least
    one; an entry with a reason for skipping counts no prompt; and each
    prompt listed belongs to a consideration of the run, has the path made
    from its consideration, the target and its evidence statement, and
    carries at most one supporting statement. *)
Theorem runPromptAtomic_summary_adds_up
    (flags : gmap string FlagValue) (wires : list StatementWire)
    (summary : RunSummary) (files : list (string * string)) :
  runPromptAtomic flags wires = Succeeded (PrintedJson summary) files ->
  selectedConsiderations summary
  = match normalizeAtomicConsideration (getStringFlag flags "consideration") with
    | Some c => [c]
    | None => ALL_ATOMIC_CONSIDERATIONS
    end
  /\ map cs_consideration (considerations summary) = selectedConsiderations summary
  /\ sumGenerated (considerations summary) = generatedCount summary
  /\ generatedCount summary = List.length (generatedPrompts summary)
  /\ (0 < generatedCount summary)%nat
  /\ Forall (fun entry => is_Some (cs_skippedReason entry) -> cs_generatedCount entry = O)
       (considerations summary)
  /\ (forall item,
        In item (generatedPrompts summary) ->
        In (g_consideration item) (selectedConsiderations summary)
        /\ g_outPath item
           = defaultEvalPromptAtomicOutPath (considerationTag (g_consideration item))
               (targetSameAsStatementFideId summary) (g_evidenceStatementFideId item)
        /\ (g_supportingStatementCount item <= 1)%nat).
Proof.
  unfold runPromptAtomic.
  destruct (getStringFlag flags "statement") as [wanted|]; [|discriminate].
  destruct (negb (Js.truthy (Some wanted))); [discriminate|].
  destruct (Js.truthy (getStringFlag flags "consideration") && _); [discriminate|].
  destruct (Js.truthy (getStringFlag flags "out")); [discriminate|].
  destruct (Js.truthy (getStringFlag flags "evidence-statement") && _); [discriminate|].
  destruct (wiresToStatements wires) as [statements|]; [|discriminate].
  destruct (Js.find _ statements) as [target|]; [|discriminate].
  destruct (negb (String.eqb (predicateRawIdentifier target) OWL_SAME_AS_IRI)); [discriminate|].
  destruct (passesPersonMethodCriteria target) as [[reason|]|]; [discriminate| |discriminate].
  unfold runConsiderations.
  set (cs := match normalizeAtomicConsideration (getStringFlag flags "consideration") with
             | Some c => [c]
             | None => ALL_ATOMIC_CONSIDERATIONS
             end).
  destruct (considerationLoop _ _ target _ cs emptyState) as [message st|st|st] eqn:Hloop;
    [discriminate|discriminate|].
  eapply (considerationLoop_accounted cs) with (done := []) in Hloop;
    [|auto|split; [repeat split; constructor|constructor]].
  destruct Hloop as [[Hmap [Hsum Hskip]] Hprompts]. simpl in Hmap.
  destruct (generated st) as [|g gs] eqn:Eg; [discriminate|].
  destruct (hasFlag flags "json"); [|discriminate].
  intros E. inversion E; subst. clear E.
  cbn [selectedConsiderations considerations generatedCount generatedPrompts
       targetSameAsStatementFideId].
  split; [reflexivity|]. split; [assumption|]. split; [assumption|].
  split; [reflexivity|]. split; [simpl; lia|]. split; [assumption|].
  intros item Hitem.
  rewrite List.Forall_forall in Hprompts. exact (Hprompts item Hitem).
Qed.

End SummaryFacts.

Lemma runPromptAtomic_summary_adds_up_witness :
  runPromptAtomic (fcp := Example.standInFcp) (host := Example.codeUnitHost)
    (renderer := Example.plainRenderer) Runs.allJsonFlags Example.wires
  = Succeeded (PrintedJson Runs.allSummary) [Runs.promptFile]
  /\ map cs_consideration (considerations Runs.allSummary) = ALL_ATOMIC_CONSIDERATIONS
  /\ sumGenerated (considerations Runs.allSummary) = 1%nat.
Proof.
  assert (E : runPromptAtomic (fcp := Example.standInFcp) (host := Example.codeUnitHost)
                (renderer := Example.plainRenderer) Runs.allJsonFlags Example.wires
              = Succeeded (PrintedJson Runs.allSummary) [Runs.promptFile])
    by (vm_compute; reflexivity).
  split; [exact E|].
  pose proof (runPromptAtomic_summary_adds_up (fcp := Example.standInFcp)
                (host := Example.codeUnitHost) (renderer := Example.plainRenderer) _ _ _ _ E)
    as [_ [Hmap [Hsum _]]].
  split; [exact Hmap|exact Hsum].
Defined.

(** ** Evidence pools and anchors *)

Lemma affiliation_predicate_cases (p : string) :
  bool_decide (p ∈ PERSON_AFFILIATION_PREDICATES) = true ->
  p <> PROV_HAD_PRIMARY_SOURCE_IRI /\ p <> OWL_DIFFERENT_FROM_IRI
  /\ p <> SCHEMA_NAME_IRI /\ p <> SCHEMA_VALID_FROM_IRI.
Proof.
  intros Hp. repeat split; intros ->; vm_compute in Hp; discriminate.
Qed.

Section PoolFacts.
Context {fcp : Fcp} {host : Host}.

Lemma pickAtomicEvidencePool_predicate (consideration : AtomicConsideration) target ctx s :
  In s (pickAtomicEvidencePool consideration target ctx) ->
  match consideration with
  | citation_chain => predicateRawIdentifier s = PROV_HAD_PRIMARY_SOURCE_IRI
  | explicit_contradiction => predicateRawIdentifier s = OWL_DIFFERENT_FROM_IRI
  | name_alignment => predicateRawIdentifier s = SCHEMA_NAME_IRI
  | affiliation_overlap =>
      bool_decide (predicateRawIdentifier s ∈ PERSON_AFFILIATION_PREDICATES) = true
  | valid_from_timestamp => predicateRawIdentifier s = SCHEMA_VALID_FROM_IRI
  end.
Proof.
  intros Hin. unfold pickAtomicEvidencePool in Hin.
  destruct consideration; apply filter_In in Hin as [_ Hp].
  - now apply String.eqb_eq.
  - now apply String.eqb_eq.
  - now apply String.eqb_eq.
  - exact Hp.
  - apply andb_true_iff in Hp as [Hp _]. now apply String.eqb_eq.
Qed.

Lemma pickAtomicEvidencePool_disjoint (first second : AtomicConsideration) target ctx s :
  In s (pickAtomicEvidencePool first target ctx) ->
  In s (pickAtomicEvidencePool second target ctx) ->
  second = first.
Proof.
  intros H1 H2.
  apply pickAtomicEvidencePool_predicate in H1.
  apply pickAtomicEvidencePool_predicate in H2.
  destruct first, second; try reflexivity; exfalso;
    first [ rewrite H1 in H2; vm_compute in H2; discriminate
          | rewrite H2 in H1; vm_compute in H1; discriminate ].
Qed.

Lemma evidencePoolOf_sub consideration current target ctx s :
  In s (evidencePoolOf consideration current target ctx) ->
  In s ctx /\ In s (pickAtomicEvidencePool current target ctx).
Proof.
  unfold evidencePoolOf, chooseEvidencePool.
  destruct current; cbn [isCitationChain].
  1: { destruct (anchorCandidates target ctx) as [|anchor rest];
         [destruct consideration; intros []|].
       destruct (List.filter isReportBackedPrimarySource _) as [|e pool] eqn:Ef;
         [destruct consideration; intros []|].
       intros Hin. rewrite <- Ef in Hin.
       apply filter_In in Hin as [Hin Hrep].
       unfold collectPrimarySourceLinksForStatement in Hin.
       apply filter_In in Hin as [Hctx Hp]. apply andb_true_iff in Hp as [Hp _].
       split; [assumption|]. unfold pickAtomicEvidencePool. apply filter_In. now split. }
  all: destruct (pickAtomicEvidencePool _ target ctx) as [|e pool] eqn:Ep;
    [destruct consideration; intros []|];
    intros Hin; split; [|assumption];
    rewrite <- Ep in Hin; unfold pickAtomicEvidencePool in Hin;
    now apply filter_In in Hin as [Hctx _].
Qed.

(** X14. Every statement of the evidence pool of a consideration comes
    from the context of the target and carries the predicate of that
    consideration, so that no statement is in the evidence pool of two
    considerations. *)
Theorem evidence_pools_are_disjoint
    (consideration consideration' : option AtomicConsideration)
    (current second : AtomicConsideration)
    (target : FideIdStatement) (contextStatements : list FideIdStatement)
    (evidence : FideIdStatement) :
  In evidence (evidencePoolOf consideration current target contextStatements) ->
  In evidence contextStatements
  /\ In evidence (pickAtomicEvidencePool current target contextStatements)
  /\ (In evidence (evidencePoolOf consideration' second target contextStatements) ->
      second = current).
Proof.
  intros Hin. apply evidencePoolOf_sub in Hin as [Hctx Hpool].
  split; [assumption|]. split; [assumption|].
  intros Hin'. apply evidencePoolOf_sub in Hin' as [_ Hpool'].
  eapply pickAtomicEvidencePool_disjoint; eassumption.
Qed.

(** X15. The anchor that [pickAtomicRequiredAnchor] gives to a prompt is at
    most one statement, and it comes from the context. It is the statement
    that the evidence is about, or, for [citation_chain] only, a validFrom
    statement that references the target. For the other considerations
    there is no anchor exactly when the context holds no statement that the
    evidence is about. *)
Theorem pickAtomicRequiredAnchor_from_context
    (consideration : AtomicConsideration) (target evidence : FideIdStatement)
    (contextStatements : list FideIdStatement) :
  (forall anchor,
     In anchor (pickAtomicRequiredAnchor consideration target evidence contextStatements) ->
     pickAtomicRequiredAnchor consideration target evidence contextStatements = [anchor]
     /\ In anchor contextStatements
     /\ (statementFideId anchor = subjectFideId evidence
         \/ (consideration = citation_chain
             /\ predicateRawIdentifier anchor = SCHEMA_VALID_FROM_IRI
             /\ matchesStatementReference anchor target = true)))
  /\ (consideration <> citation_chain ->
      (pickAtomicRequiredAnchor consideration target evidence contextStatements = []
       <-> forall statement, In statement contextStatements ->
             statementFideId statement <> subjectFideId evidence)).
Proof.
  assert (Hfb : forall anchor,
    In anchor (optionToList (Js.find (fun statement =>
      String.eqb (statementFideId statement) (subjectFideId evidence)) contextStatements)) ->
    optionToList (Js.find (fun statement =>
      String.eqb (statementFideId statement) (subjectFideId evidence)) contextStatements)
    = [anchor]
    /\ In anchor contextStatements
    /\ (statementFideId anchor = subjectFideId evidence
        \/ (consideration = citation_chain
            /\ predicateRawIdentifier anchor = SCHEMA_VALID_FROM_IRI
            /\ matchesStatementReference anchor target = true))).
  { intros anchor. unfold Js.find.
    destruct (List.find _ contextStatements) as [found|] eqn:Hfind; simpl; [|intros []].
    intros [<-|[]]. apply List.find_some in Hfind as [Hin Hid].
    apply String.eqb_eq in Hid. auto. }
  assert (Hnone :
    optionToList (Js.find (fun statement =>
      String.eqb (statementFideId statement) (subjectFideId evidence)) contextStatements) = []
    <-> forall statement, In statement contextStatements ->
          statementFideId statement <> subjectFideId evidence).
  { unfold Js.find. split.
    - destruct (List.find _ contextStatements) eqn:Hfind; [discriminate|]. intros _ statement Hin Hid.
      pose proof (List.find_none _ _ Hfind statement Hin) as Hno. simpl in Hno.
      apply String.eqb_neq in Hno. contradiction.
    - intros Hall. destruct (List.find _ contextStatements) as [found|] eqn:Hfind; [|reflexivity].
      apply List.find_some in Hfind as [Hin Hid]. apply String.eqb_eq in Hid.
      exfalso. exact (Hall found Hin Hid). }
  split.
  - intros anchor. unfold pickAtomicRequiredAnchor.
    destruct consideration; try apply Hfb.
    destruct (Js.find (fun statement => _ && _) contextStatements) as [direct|] eqn:Hdirect.
    + intros [<-|[]]. unfold Js.find in Hdirect.
      apply List.find_some in Hdirect as [Hin Hboth].
      apply andb_true_iff in Hboth as [Hid _]. apply String.eqb_eq in Hid. auto.
    + destruct (Js.sort byObjectDateThenId _) as [|first rest] eqn:Hsort; [apply Hfb|].
      intros [<-|[]].
      assert (Hin : In first (first :: rest)) by now left.
      rewrite <- Hsort in Hin. apply sort_In in Hin. apply filter_In in Hin as [Hin Hboth].
      apply andb_true_iff in Hboth as [Hp Hm]. apply String.eqb_eq in Hp.
      split; [reflexivity|]. split; [assumption|]. right. auto.
  - intros Hc. unfold pickAtomicRequiredAnchor.
    destruct consideration; try exact Hnone. now contradiction Hc.
Qed.

End PoolFacts.

Lemma evidence_pools_are_disjoint_witness :
  In Example.nameOfAlice
    (evidencePoolOf (fcp := Example.standInFcp) (host := Example.codeUnitHost)
       None name_alignment Example.claim
       (buildPersonPromptContextStatements (fcp := Example.standInFcp)
          Example.claim Example.graph))
  /\ In Example.nameOfAlice
       (buildPersonPromptContextStatements (fcp := Example.standInFcp)
          Example.claim Example.graph).
Proof.
  assert (Hin : In Example.nameOfAlice
    (evidencePoolOf (fcp := Example.standInFcp) (host := Example.codeUnitHost)
       None name_alignment Example.claim
       (buildPersonPromptContextStatements (fcp := Example.standInFcp)
          Example.claim Example.graph)))
    by (vm_compute; left; reflexivity).
  split; [exact Hin|].
  exact (proj1 (evidence_pools_are_disjoint (fcp := Example.standInFcp)
                  (host := Example.codeUnitHost) None None name_alignment citation_chain
                  _ _ _ Hin)).
Defined.

Lemma pickAtomicRequiredAnchor_from_context_witness :
  In Example.validFrom2021
    (pickAtomicRequiredAnchor (fcp := Example.standInFcp) (host := Example.codeUnitHost)
       citation_chain Example.claim Example.reportOf2021 Example.graph)
  /\ pickAtomicRequiredAnchor (fcp := Example.standInFcp) (host := Example.codeUnitHost)
       citation_chain Example.claim Example.reportOf2021 Example.graph
     = [Example.validFrom2021].
Proof.
  assert (Hin : In Example.validFrom2021
    (pickAtomicRequiredAnchor (fcp := Example.standInFcp) (host := Example.codeUnitHost)
       citation_chain Example.claim Example.reportOf2021 Example.graph))
    by (vm_compute; left; reflexivity).
  split; [exact Hin|].
  exact (proj1 (proj1 (pickAtomicRequiredAnchor_from_context (fcp := Example.standInFcp)
                         (host := Example.codeUnitHost) citation_chain Example.claim
                         Example.reportOf2021 Example.graph) _ Hin)).
Defined.

(** ** The closure stays within its input *)

Lemma mapSet_head {V : Type} (k : string) (v : V) (m : list (string * V)) (k0 : string) :
  hd_error (map fst m) = Some k0 -> hd_error (map fst (mapSet k v m)) = Some k0.
Proof.
  destruct m as [|[k1 v1] m]; simpl; [discriminate|].
  intros E. destruct (String.eqb_spec k1 k) as [<-|]; exact E.
Qed.

Lemma setAll_head (l : list FideIdStatement) m (k0 : string) :
  hd_error (map fst m) = Some k0 -> hd_error (map fst (setAll l m)) = Some k0.
Proof.
  unfold setAll. revert m. induction l as [|x l IH]; simpl; intros m E; [exact E|].
  apply IH. now apply mapSet_head.
Qed.

Section ClosureBounds.
Context {fcp : Fcp}.

(** X16. The closure is never empty and begins with the statement
    identifier of the target; every statement of it is the target or one of
    the statements given, so it has at most one statement more than were
    given, and over no statements at all it is the target alone. *)
Theorem closure_stays_in_input (target : FideIdStatement) (allStatements : list FideIdStatement) :
  let closure := buildPersonPromptContextStatements target allStatements in
  (exists first rest, closure = first :: rest /\ statementFideId first = statementFideId target)
  /\ (forall s, In s closure -> s = target \/ In s allStatements)
  /\ (List.length closure <= S (List.length allStatements))%nat
  /\ buildPersonPromptContextStatements target [] = [target].
Proof.
  cbv zeta.
  destruct (closure_hops_core target allStatements) as [Hsub [_ Hnd]]. cbv zeta in Hsub, Hnd.
  assert (Hin : forall s, In s (buildPersonPromptContextStatements target allStatements) ->
                          s = target \/ In s allStatements).
  { intros s Hs. apply Hsub in Hs.
    destruct Hs as [E|[H|[H|[H|[H|[H|[H|H]]]]]]]; [now left|right; apply H..]. }
  split; [|split; [exact Hin|split; [|reflexivity]]].
  - assert (Hhead : hd_error (map statementFideId
                      (buildPersonPromptContextStatements target allStatements))
                    = Some (statementFideId target)).
    { rewrite closure_as_setAll.
      rewrite wellKeyed_ids by (apply setAll_wellKeyed; intros k s []).
      unfold setCalls. cbn [app]. unfold setAll. cbn [fold_left mapSet].
      apply (setAll_head _ [(statementFideId target, target)]). reflexivity. }
    destruct (buildPersonPromptContextStatements target allStatements) as [|first rest];
      [discriminate|].
    exists first, rest. split; [reflexivity|]. simpl in Hhead. congruence.
  - change (S (List.length allStatements)) with (List.length (target :: allStatements)).
    apply List.NoDup_incl_length.
    + eapply List.NoDup_map_inv. exact Hnd.
    + intros s Hs. destruct (Hin s Hs) as [->|H]; [now left|now right].
Qed.

End ClosureBounds.

(** ** The resolver names its anchor *)

Section AnchorFacts.
Context {fcp : Fcp} {host : Host}.

(** X17. A result of the resolver is read off one validFrom row about a
    statement: the anchored claim is the subject of the row, the anchor's
    identifier and first-seen time are the row's, and the primary identifier
    is the identity function applied to the entity type of the
    configuration, the source type [Statement] and the anchored claim. The
    three components of the anchored claim hash to the statement identifier
    of an [owl:sameAs] row of that entity type with the focal identifier as
    subject or object. *)
Theorem findPrimaryFideId_anchor_provenance
    (config : FixtureConfig) (statements : list ScenarioStatement) (focalIdentifier : string)
    (result : PrimaryFideIdResult) :
  findPrimaryFideId config statements focalIdentifier = Some (Some result) ->
  exists row claimRow part0 part1 part2 claimIdentifier,
    In row statements
    /\ predicate_raw_identifier row = "https://schema.org/validFrom"
    /\ subject_type row = "Statement"
    /\ result = anchoredAt row (primaryFideId result)
    /\ calculateFideId (entityType config) "Statement" (subject_raw_identifier row)
       = Some (primaryFideId result)
    /\ Js.split pipe (subject_raw_identifier row) = [part0; part1; part2]
    /\ calculateStatementFideId part0 part1 part2 = Some claimIdentifier
    /\ In claimRow statements
    /\ statement_fide_id claimRow = Some claimIdentifier
    /\ predicate_raw_identifier claimRow = "https://www.w3.org/2002/07/owl#sameAs"
    /\ subject_type claimRow = entityType config
    /\ (subject_raw_identifier claimRow = focalIdentifier
        \/ object_raw_identifier claimRow = focalIdentifier).
Proof.
  unfold findPrimaryFideId. fold (focalClaimIds config statements focalIdentifier).
  set (K := focalClaimIds config statements focalIdentifier).
  destruct (validFromCandidatesOf K statements) as [|c0 cs] eqn:Ecands; [discriminate|].
  destruct (Js.sort compareCandidates (c0 :: cs)) as [|winner others] eqn:Esort; [discriminate|].
  destruct (calculateFideId (entityType config) "Statement" (c_subjectRawIdentifier winner))
    as [primary|] eqn:Eprimary; [|discriminate].
  intros E. inversion E; subst result; clear E. cbn [primaryFideId].
  assert (Hw : In winner (validFromCandidatesOf K statements)).
  { rewrite Ecands. apply (sort_In compareCandidates). rewrite Esort. now left. }
  apply validFromCandidatesOf_In in Hw as [row [Hrow Hc]].
  apply candidateOf_Some_iff in Hc as [[Hp [Hs [_ [p0 [p1 [p2 [id [Esplit [Eid Hk]]]]]]]]] ->].
  unfold K, focalClaimIds in Hk.
  apply sameAsStatementIdSetOf_elem in Hk as [claimRow [Hclaim [Hcid _]]].
  apply filter_In in Hclaim as [Hclaim Hfocal].
  unfold isFocalSameAs in Hfocal.
  apply andb_true_iff in Hfocal as [Hfocal Hends].
  apply andb_true_iff in Hfocal as [Hcp Hct].
  apply String.eqb_eq in Hcp. apply String.eqb_eq in Hct.
  exists row, claimRow, p0, p1, p2, id.
  repeat (split; [first [assumption|reflexivity]|]).
  apply orb_true_iff in Hends as [H|H]; apply String.eqb_eq in H; auto.
Qed.

Lemma rankedBefore_both_ways (a b : Candidate) :
  ConsistentCompare localeCompare ->
  rankedBefore a b -> rankedBefore b a ->
  c_subjectRawIdentifier a = c_subjectRawIdentifier b.
Proof.
  intros Hlc Hab Hba. unfold rankedBefore in Hab, Hba.
  destruct Hab as [Hab|[Et Hab]]; destruct Hba as [Hba|[Et' Hba]]; try lia.
  destruct Hab as [Hab|[Ei Hab]]; destruct Hba as [Hba|[Ei' Hba]].
  - apply (cc_anti _ Hlc) in Hab. lia.
  - rewrite Ei', (proj2 (cc_eq _ Hlc _ _) eq_refl) in Hab. lia.
  - rewrite Ei, (proj2 (cc_eq _ Hlc _ _) eq_refl) in Hba. lia.
  - destruct (Z.eq_dec (localeCompare (c_subjectRawIdentifier a) (c_subjectRawIdentifier b)) 0)
      as [E|N]; [now apply (cc_eq _ Hlc)|].
    assert (Hlt : localeCompare (c_subjectRawIdentifier a) (c_subjectRawIdentifier b) < 0) by lia.
    apply (cc_anti _ Hlc) in Hlt. lia.
Qed.

Lemma focalClaimIds_Permutation config (l l' : list ScenarioStatement) focalIdentifier :
  Permutation l l' ->
  focalClaimIds config l focalIdentifier = focalClaimIds config l' focalIdentifier.
Proof.
  intros Hperm. unfold focalClaimIds. apply set_eq. intros id.
  rewrite !sameAsStatementIdSetOf_elem.
  split; intros [row [Hrow Hid]]; exists row; (split; [|exact Hid]);
    apply filter_In in Hrow as [Hrow Hf]; apply filter_In; (split; [|exact Hf]).
  - eapply Permutation_in; eassumption.
  - eapply Permutation_in; [apply Permutation_sym|]; eassumption.
Qed.

Lemma validFromCandidatesOf_Permutation (K : gset string) (l l' : list ScenarioStatement) :
  Permutation l l' ->
  Permutation (validFromCandidatesOf K l) (validFromCandidatesOf K l').
Proof.
  induction 1 as [|x l l' Hperm IH|x y l|l l' l'' H1 IH1 H2 IH2]; simpl.
  - constructor.
  - destruct (candidateOf K x); [now constructor|assumption].
  - destruct (candidateOf K y), (candidateOf K x); try apply Permutation_refl. apply perm_swap.
  - eapply perm_trans; eassumption.
Qed.

(** X18. Under a host collation that is a consistent comparator, the
    resolver does not depend on the order of the statements: on two lists
    that hold the same statements it is unresolved on both, throws on both,
    or returns the same primary identifier and the same anchored claim. *)
Theorem findPrimaryFideId_order_independent
    (config : FixtureConfig) (statements statements' : list ScenarioStatement)
    (focalIdentifier : string) :
  ConsistentCompare localeCompare ->
  Permutation statements statements' ->
  sameAnchor (findPrimaryFideId config statements focalIdentifier)
             (findPrimaryFideId config statements' focalIdentifier).
Proof.
  intros Hlc Hperm. unfold findPrimaryFideId.
  fold (focalClaimIds config statements focalIdentifier).
  fold (focalClaimIds config statements' focalIdentifier).
  rewrite <- (focalClaimIds_Permutation config _ _ focalIdentifier Hperm).
  set (K := focalClaimIds config statements focalIdentifier).
  pose proof (validFromCandidatesOf_Permutation K _ _ Hperm) as Hcands.
  destruct (validFromCandidatesOf K statements) as [|c0 cs] eqn:E1.
  - apply Permutation_nil in Hcands. rewrite Hcands. exact I.
  - destruct (validFromCandidatesOf K statements') as [|c0' cs'] eqn:E2.
    { apply Permutation_sym, Permutation_nil in Hcands. discriminate. }
    destruct (Js.sort compareCandidates (c0 :: cs)) as [|w ws] eqn:S1;
      [apply sort_nil_iff in S1; discriminate|].
    destruct (Js.sort compareCandidates (c0' :: cs')) as [|w' ws'] eqn:S2;
      [apply sort_nil_iff in S2; discriminate|].
    assert (Hraw : c_subjectRawIdentifier w = c_subjectRawIdentifier w').
    { pose proof (compareCandidates_Ordering Hlc) as Hord.
      apply (rankedBefore_both_ways _ _ Hlc); apply (compareCandidates_le Hlc).
      - apply (sort_head_le compareCandidates Hord _ _ _ S1).
        eapply Permutation_in; [apply Permutation_sym; exact Hcands|].
        apply (sort_In compareCandidates). rewrite S2. now left.
      - apply (sort_head_le compareCandidates Hord _ _ _ S2).
        eapply Permutation_in; [exact Hcands|].
        apply (sort_In compareCandidates). rewrite S1. now left. }
    rewrite <- Hraw.
    destruct (calculateFideId (entityType config) "Statement" (c_subjectRawIdentifier w));
      simpl; auto.
Qed.

End AnchorFacts.

Lemma findPrimaryFideId_anchor_provenance_witness :
  findPrimaryFideId (fcp := Example.standInFcp) (host := Example.codeUnitHost)
    Example.personConfig [Example.sameAsRow; Example.seen2022; Example.seen2021] Example.focal
  = Some (Some (anchoredAt Example.seen2021
                  "did:fide:0xdid-fide-0xaaaa-did-fide-0xbbbb-did-fide-0xcccc"))
  /\ exists row,
       In row [Example.sameAsRow; Example.seen2022; Example.seen2021]
       /\ predicate_raw_identifier row = "https://schema.org/validFrom"
       /\ subject_raw_identifier row = subject_raw_identifier Example.seen2021.
Proof.
  assert (E : findPrimaryFideId (fcp := Example.standInFcp) (host := Example.codeUnitHost)
    Example.personConfig [Example.sameAsRow; Example.seen2022; Example.seen2021] Example.focal
  = Some (Some (anchoredAt Example.seen2021
                  "did:fide:0xdid-fide-0xaaaa-did-fide-0xbbbb-did-fide-0xcccc")))
    by (vm_compute; reflexivity).
  split; [exact E|].
  destruct (findPrimaryFideId_anchor_provenance (fcp := Example.standInFcp)
              (host := Example.codeUnitHost) _ _ _ _ E)
    as [row [claimRow [p0 [p1 [p2 [id [Hin [Hp [_ [Hres _]]]]]]]]]].
  exists row. split; [exact Hin|]. split; [exact Hp|].
  exact (eq_sym (f_equal anchorSameAsStatementRawIdentifier Hres)).
Defined.

Lemma findPrimaryFideId_order_independent_witness :
  ConsistentCompare (localeCompare (Host := Example.codeUnitHost))
  /\ Permutation [Example.sameAsRow; Example.seen2022; Example.seen2021]
                 [Example.seen2022; Example.sameAsRow; Example.seen2021]
  /\ sameAnchor
       (findPrimaryFideId (fcp := Example.standInFcp) (host := Example.codeUnitHost)
          Example.personConfig [Example.sameAsRow; Example.seen2022; Example.seen2021]
          Example.focal)
       (findPrimaryFideId (fcp := Example.standInFcp) (host := Example.codeUnitHost)
          Example.personConfig [Example.seen2022; Example.sameAsRow; Example.seen2021]
          Example.focal).
Proof.
  split; [exact codeUnitCompare_consistent|]. split; [apply perm_swap|].
  apply (findPrimaryFideId_order_independent (fcp := Example.standInFcp)
           (host := Example.codeUnitHost)).
  - exact codeUnitCompare_consistent.
  - apply perm_swap.
Defined.

(** ** Fixtures *)

Lemma uniqueInOrder_from (values acc : list string) :
  let result :=
    fold_left (fun seen value =>
      if existsb (String.eqb value) seen then seen else seen ++ [value]) values acc in
  (List.NoDup acc -> List.NoDup result)
  /\ (forall v, In v result <-> In v acc \/ In v values).
Proof.
  revert acc. induction values as [|x values IH]; intros acc; cbn [fold_left].
  - split; [auto|]. intros v. simpl. intuition.
  - destruct (IH (if existsb (String.eqb x) acc then acc else acc ++ [x])) as [Hnd Hin].
    cbv zeta in Hnd, Hin.
    destruct (existsb (String.eqb x) acc) eqn:Ex.
    + apply existsb_exists in Ex as [y [Hy Exy]]. apply String.eqb_eq in Exy. subst y.
      split; [exact Hnd|]. intros v. rewrite Hin. simpl.
      split; [intros [H|H]; auto|intros [H|[<-|H]]; auto].
    + assert (Hx : ~ In x acc).
      { intros Hx. assert (existsb (String.eqb x) acc = true) as Hex.
        { apply existsb_exists. exists x. split; [assumption|apply String.eqb_refl]. }
        congruence. }
      split.
      * intros Hacc. apply Hnd. apply List.NoDup_app; [assumption|repeat constructor; intros []|].
        intros y Hy [<-|[]]. contradiction.
      * intros v. rewrite Hin, in_app_iff. simpl. intuition.
Qed.

Lemma uniqueInOrder_distinct (values acc : list string) :
  List.NoDup (acc ++ values) ->
  fold_left (fun seen value =>
    if existsb (String.eqb value) seen then seen else seen ++ [value]) values acc
  = acc ++ values.
Proof.
  revert acc. induction values as [|x values IH]; intros acc Hnd; cbn [fold_left].
  - now rewrite app_nil_r.
  - assert (Hx : existsb (String.eqb x) acc = false).
    { destruct (existsb (String.eqb x) acc) eqn:Ex; [|reflexivity].
      apply existsb_exists in Ex as [y [Hy Exy]]. apply String.eqb_eq in Exy. subst y.
      apply List.NoDup_remove_2 in Hnd. exfalso. apply Hnd. apply in_app_iff. now left. }
    rewrite Hx, IH; [now rewrite <- app_assoc|]. now rewrite <- app_assoc.
Qed.

Lemma filter_all {A : Type} (p : A -> bool) (l : list A) :
  (forall x, In x l -> p x = true) -> List.filter p l = l.
Proof.
  induction l as [|x l IH]; intros Hall; simpl; [reflexivity|].
  rewrite (Hall x) by now left. f_equal. apply IH. intros y Hy. apply Hall. now right.
Qed.

Section FixtureFacts.
Context {fcp : Fcp} {text : HostText}.

Lemma toUnique_In (values : list string) (v : string) :
  In v (toUnique values) <-> In v values /\ (0 < String.length (jsTrim v))%nat.
Proof.
  unfold toUnique, uniqueInOrder.
  destruct (uniqueInOrder_from
              (List.filter (fun value => (0 <? String.length (jsTrim value))%nat) values) [])
    as [_ Hin]. cbv zeta in Hin.
  rewrite Hin, filter_In, Nat.ltb_lt. simpl. intuition.
Qed.

(** X19. [toUnique] keeps exactly the values that are not blank, each
    once; applying it twice changes nothing more. *)
Theorem toUnique_distinct_nonblank (values : list string) :
  List.NoDup (toUnique values)
  /\ (forall v, In v (toUnique values)
                <-> In v values /\ (0 < String.length (jsTrim v))%nat)
  /\ toUnique (toUnique values) = toUnique values.
Proof.
  assert (Hnd : List.NoDup (toUnique values)).
  { unfold toUnique, uniqueInOrder.
    apply (proj1 (uniqueInOrder_from _ [])). constructor. }
  split; [exact Hnd|]. split; [apply toUnique_In|].
  unfold toUnique at 1. rewrite filter_all.
  - apply (uniqueInOrder_distinct _ []). exact Hnd.
  - intros v Hv. apply toUnique_In in Hv as [_ Hv]. now apply Nat.ltb_lt.
Qed.

(** X20. [findFocalIdentifier] answers [null] exactly when every row of
    the configured entity type has a blank subject; any identifier it
    returns is the subject of a row of that entity type. *)
Theorem findFocalIdentifier_is_a_subject
    (config : FixtureConfig) (statements : list ScenarioStatement) :
  (findFocalIdentifier config statements = None
   <-> forall row, In row statements -> subject_type row = entityType config ->
         String.length (jsTrim (subject_raw_identifier row)) = O)
  /\ (forall focal, findFocalIdentifier config statements = Some focal ->
        exists row, In row statements
                    /\ subject_type row = entityType config
                    /\ subject_raw_identifier row = focal).
Proof.
  unfold findFocalIdentifier.
  set (subjects := map subject_raw_identifier
         (List.filter (fun row => String.eqb (subject_type row) (entityType config)) statements)).
  assert (Hsubject : forall v, In v subjects ->
            exists row, In row statements /\ subject_type row = entityType config
                        /\ subject_raw_identifier row = v).
  { intros v Hv. unfold subjects in Hv. apply in_map_iff in Hv as [row [E Hrow]].
    apply filter_In in Hrow as [Hrow Ht]. apply String.eqb_eq in Ht. eauto. }
  pose proof (toUnique_In subjects) as Hmem.
  destruct (toUnique subjects) as [|first rest] eqn:Ecands.
  - split; [|discriminate].
    split; [|reflexivity]. intros _ row Hrow Ht.
    destruct (String.length (jsTrim (subject_raw_identifier row))) eqn:El; [reflexivity|].
    exfalso. apply (proj2 (Hmem (subject_raw_identifier row))).
    split; [|lia]. unfold subjects. apply in_map. apply filter_In.
    split; [assumption|now apply String.eqb_eq].
  - assert (Hcand : forall v, In v (first :: rest) ->
              exists row, In row statements /\ subject_type row = entityType config
                          /\ subject_raw_identifier row = v).
    { intros v Hv. apply Hmem in Hv as [Hv _]. now apply Hsubject. }
    assert (Hfirst : (0 < String.length (jsTrim first))%nat)
      by (apply (Hmem first); now left).
    set (byIdentifier :=
      match selectIdentifierContains config with
      | Some wanted =>
          if Js.truthy (Some wanted)
          then match Js.find (fun value => Js.includes value wanted) (first :: rest) with
               | Some found => if Js.truthy (Some found) then Some found else None
               | None => None
               end
          else None
      | None => None
      end).
    set (byName :=
      match selectNameContains config with
      | Some wanted =>
          if Js.truthy (Some wanted)
          then
            match map subject_raw_identifier
                    (List.filter (fun row =>
                       String.eqb (subject_type row) (entityType config)
                       && String.eqb (predicate_raw_identifier row) "https://schema.org/name"
                       && Js.includes (jsToLowerCase (object_raw_identifier row))
                            (jsToLowerCase wanted)) statements) with
            | found :: _ => if Js.truthy (Some found) then Some found else None
            | [] => None
            end
          else None
      | None => None
      end).
    assert (HbyIdentifier : forall found, byIdentifier = Some found -> In found (first :: rest)).
    { intros found. unfold byIdentifier.
      destruct (selectIdentifierContains config) as [wanted|]; [|discriminate].
      destruct (Js.truthy (Some wanted)); [|discriminate].
      destruct (Js.find _ (first :: rest)) as [hit|] eqn:Hfind; [|discriminate].
      destruct (Js.truthy (Some hit)); [|discriminate].
      intros E. inversion E; subst. unfold Js.find in Hfind.
      now apply List.find_some in Hfind as [Hin _]. }
    assert (HbyName : forall found, byName = Some found ->
              exists row, In row statements /\ subject_type row = entityType config
                          /\ subject_raw_identifier row = found).
    { intros found. unfold byName.
      destruct (selectNameContains config) as [wanted|]; [|discriminate].
      destruct (Js.truthy (Some wanted)); [|discriminate].
      destruct (map subject_raw_identifier (List.filter (fun row => _ && _ && _) statements))
        as [|hit others] eqn:Hrows; [discriminate|].
      destruct (Js.truthy (Some hit)); [|discriminate].
      intros E. inversion E; subst.
      assert (Hin : In found (found :: others)) by now left.
      rewrite <- Hrows in Hin. apply in_map_iff in Hin as [row [Eraw Hrow]].
      apply filter_In in Hrow as [Hrow Hp].
      apply andb_true_iff in Hp as [Hp _]. apply andb_true_iff in Hp as [Ht _].
      apply String.eqb_eq in Ht. eauto. }
    split.
    + split.
      * destruct byIdentifier; [discriminate|]. destruct byName; discriminate.
      * intros Hall. exfalso.
        destruct (Hcand first) as [row [Hrow [Ht Eraw]]]; [now left|].
        specialize (Hall row Hrow Ht). rewrite Eraw in Hall. lia.
    + intros focal.
      destruct byIdentifier as [found|] eqn:E1.
      * intros E. inversion E; subst. apply Hcand. now apply HbyIdentifier.
      * destruct byName as [found|] eqn:E2.
        -- intros E. inversion E; subst. now apply HbyName.
        -- intros E. inversion E; subst. apply Hcand. now left.
Qed.

Lemma wiresToStatements_shape (wires : list StatementWire) (statements : list FideIdStatement) :
  wiresToStatements wires = Some statements ->
  Forall2 (fun wire statement =>
    calculateStatementFideId (w_s wire) (w_p wire) (w_o wire) = Some (statementFideId statement)
    /\ subjectFideId statement = w_s wire /\ predicateFideId statement = w_p wire
    /\ objectFideId statement = w_o wire
    /\ rawTripleOf statement = rawTripleOfWire wire) wires statements.
Proof.
  revert statements. induction wires as [|w wires IH]; intros statements; simpl.
  - intros E. inversion E. constructor.
  - destruct (calculateStatementFideId (w_s w) (w_p w) (w_o w)) as [sid|] eqn:Esid;
      [|discriminate].
    destruct (wiresToStatements wires) as [sts|]; [|discriminate].
    intros E. inversion E; subst. constructor; [|now apply IH].
    simpl. repeat split. exact Esid.
Qed.

(** X21. Loading a fixture keeps its rows: when [fixtureStateToWires]
    returns, there is one wire per row, in order, with the raw identifiers of
    the row and the identifiers the identity function gives for them, the
    predicate always as a network-resource concept; it throws exactly when
    the identity function throws on a subject, predicate or object of some
    row. The statements that [wiresToStatements] then makes of the wires keep
    the raw identifiers of the rows, in order, and each carries the statement
    identifier of its three identifiers. *)
Theorem fixture_rows_become_statements (rows : list ScenarioStatement) :
  (forall wires, fixtureStateToWires rows = Some wires ->
     Forall2 wireOfRow rows wires
     /\ map rawTripleOfWire wires = map rawTripleOfRow rows
     /\ (forall statements, wiresToStatements wires = Some statements ->
           map rawTripleOf statements = map rawTripleOfRow rows
           /\ Forall (fun statement =>
                calculateStatementFideId (subjectFideId statement) (predicateFideId statement)
                  (objectFideId statement) = Some (statementFideId statement)) statements))
  /\ (fixtureStateToWires rows = None
      <-> exists row, In row rows
            /\ (calculateFideId (subject_type row)
                  (inferSourceType (subject_type row) (subject_raw_identifier row))
                  (subject_raw_identifier row) = None
                \/ calculateFideId "Concept" "NetworkResource" (predicate_raw_identifier row)
                   = None
                \/ calculateFideId (object_type row)
                     (inferSourceType (object_type row) (object_raw_identifier row))
                     (object_raw_identifier row) = None)).
Proof.
  split.
  - intros wires Hwires.
    assert (Hshape : Forall2 wireOfRow rows wires
                     /\ map rawTripleOfWire wires = map rawTripleOfRow rows).
    { revert wires Hwires. induction rows as [|row rows IH]; intros wires; simpl.
      - intros E. inversion E. split; [constructor|reflexivity].
      - destruct (calculateFideId (subject_type row) _ _) as [s|] eqn:Es; [|discriminate].
        destruct (calculateFideId "Concept" "NetworkResource" _) as [p|] eqn:Ep; [|discriminate].
        destruct (calculateFideId (object_type row) _ _) as [o|] eqn:Eo; [|discriminate].
        destruct (fixtureStateToWires rows) as [ws|]; [|discriminate].
        intros E. inversion E; subst. destruct (IH ws eq_refl) as [H2 Hraw].
        split; [constructor; [repeat split; assumption|assumption]|].
        simpl. now rewrite Hraw. }
    destruct Hshape as [H2 Hraw]. split; [exact H2|]. split; [exact Hraw|].
    intros statements Hst. apply wiresToStatements_shape in Hst.
    rewrite <- Hraw. clear Hraw H2 Hwires.
    induction Hst as [|wire statement wires statements [Hid [Hs [Hp [Ho Ht]]]] Hrest IH].
    + split; [reflexivity|constructor].
    + destruct IH as [IHraw IHids]. split; [simpl; now rewrite Ht, IHraw|].
      constructor; [now rewrite Hs, Hp, Ho|assumption].
  - induction rows as [|row rows IH]; simpl.
    + split; [discriminate|]. intros [row [[] _]].
    + destruct (calculateFideId (subject_type row) _ _) as [s|] eqn:Es;
        [|split; [intros _; exists row; split; [now left|now left]|reflexivity]].
      destruct (calculateFideId "Concept" "NetworkResource" _) as [p|] eqn:Ep;
        [|split; [intros _; exists row; split; [now left|right; now left]|reflexivity]].
      destruct (calculateFideId (object_type row) _ _) as [o|] eqn:Eo;
        [|split; [intros _; exists row; split; [now left|right; now right]|reflexivity]].
      destruct (fixtureStateToWires rows) as [ws|].
      * split; [discriminate|]. intros [r [[<-|Hr] Hbad]].
        -- destruct Hbad as [H|[H|H]]; congruence.
        -- destruct IH as [_ IH]. assert (@None (list StatementWire) = None) as Habs by reflexivity.
           assert (Hex : exists row0, In row0 rows /\ _) by (exists r; split; [exact Hr|exact Hbad]).
           specialize (IH Hex). discriminate.
      * split; [|reflexivity]. intros _. destruct IH as [IH _].
        destruct (IH eq_refl) as [r [Hr Hbad]]. exists r. split; [now right|exact Hbad].
Qed.

End FixtureFacts.

(** ** Labels *)

Lemma lacks_append (c : ascii) (a b : string) :
  lacks c (String.append a b) = lacks c a && lacks c b.
Proof.
  induction a as [|x a IH]; [reflexivity|].
  rewrite append_cons. simpl. now rewrite IH, andb_assoc.
Qed.

Lemma prefix_lacks (c : ascii) (p s : string) :
  String.prefix p s = true -> lacks c s = true -> lacks c p = true.
Proof.
  revert s. induction p as [|x p IH]; intros [|y s]; simpl; try discriminate; try reflexivity.
  destruct (Ascii.ascii_dec x y) as [->|]; [|discriminate].
  intros Hp Hs. apply andb_true_iff in Hs as [Hy Hs]. rewrite Hy. simpl. now apply (IH s).
Qed.

Lemma index_lacks (c : ascii) (p s : string) :
  lacks c p = false -> lacks c s = true -> String.index 0 p s = None.
Proof.
  intros Hp. induction s as [|y s IH]; intros Hs.
  - destruct p; [discriminate|reflexivity].
  - cbn [String.index].
    destruct (String.prefix p (String y s)) eqn:Epre.
    + rewrite (prefix_lacks c _ _ Epre Hs) in Hp. discriminate.
    + simpl in Hs. apply andb_true_iff in Hs as [_ Hs]. now rewrite (IH Hs).
Qed.

Lemma lastIndexOf_lacks (c : ascii) (s : string) : lacks c s = true -> lastIndexOf c s = None.
Proof.
  induction s as [|x s IH]; simpl; [reflexivity|].
  intros H. apply andb_true_iff in H as [Hx Hs]. apply negb_true_iff in Hx.
  now rewrite (IH Hs), Hx.
Qed.

Lemma lastIndexOf_lt (c : ascii) (s : string) (i : nat) :
  lastIndexOf c s = Some i -> (i < String.length s)%nat.
Proof.
  revert i. induction s as [|x s IH]; simpl; intros i; [discriminate|].
  destruct (lastIndexOf c s) as [j|].
  - intros E. inversion E; subst. specialize (IH j eq_refl). lia.
  - destruct (Ascii.eqb x c); [|discriminate]. intros E. inversion E. lia.
Qed.

Lemma lastIndexOf_append (c : ascii) (p s : string) :
  lacks c s = true ->
  lastIndexOf c (String.append p (String c s)) = Some (String.length p).
Proof.
  intros Hs. induction p as [|x p IH].
  - rewrite append_nil_l. simpl. now rewrite (lastIndexOf_lacks c s Hs), Ascii.eqb_refl.
  - rewrite append_cons. simpl. now rewrite IH.
Qed.

Lemma take_slice (n : nat) (s : string) : String.append (Js.take n s) (Js.slice n s) = s.
Proof.
  revert s. induction n as [|n IH]; intros [|x s]; try reflexivity.
  simpl Js.take. simpl Js.slice. rewrite append_cons. now rewrite IH.
Qed.

Lemma slice_succ (n : nat) (s : string) : Js.slice 1 (Js.slice n s) = Js.slice (S n) s.
Proof.
  revert s. induction n as [|n IH]; intros [|x s]; try reflexivity.
  change (Js.slice (S n) (String x s)) with (Js.slice n s).
  change (Js.slice (S (S n)) (String x s)) with (Js.slice (S n) s).
  apply IH.
Qed.

Lemma length_slice (n : nat) (s : string) :
  String.length (Js.slice n s) = (String.length s - n)%nat.
Proof. revert s. induction n as [|n IH]; intros [|x s]; simpl; auto. Qed.

(** X22. The label of a value is [owl:sameAs] or an ending of the value,
    and it is empty only for the empty value. For a value with a fragment
    that is not the same-as predicate, the label is the fragment; for a path
    with no fragment mark it is the last segment. *)
Theorem makeLabel_is_an_ending (value : string) :
  (makeLabel value = "owl:sameAs"
   \/ exists before, value = String.append before (makeLabel value))
  /\ (value <> EmptyString -> makeLabel value <> EmptyString)
  /\ (forall base fragment,
        value = String.append base (String "#"%char fragment) ->
        fragment <> EmptyString -> lacks "#"%char fragment = true ->
        Js.includes value "owl#sameAs" = false ->
        makeLabel value = fragment)
  /\ (forall base name,
        value = String.append base (String "/"%char name) ->
        name <> EmptyString -> lacks "/"%char name = true -> lacks "#"%char value = true ->
        makeLabel value = name).
Proof.
  assert (Hnonempty : forall n s, (n < String.length s)%nat -> Js.slice n s <> EmptyString).
  { intros n s Hn E. pose proof (length_slice n s) as Hl. rewrite E in Hl. simpl in Hl. lia. }
  assert (Hlen : forall s, s <> EmptyString -> (0 < String.length s)%nat).
  { intros [|x s] Hs; [contradiction|simpl; lia]. }
  split; [|split; [|split]].
  - unfold makeLabel.
    destruct (Js.includes value "owl#sameAs"); [now left|right].
    assert (Hafter : exists before,
      value = String.append before
                match lastIndexOf "/"%char value with
                | Some slashIndex =>
                    if (S slashIndex <? String.length value)%nat
                    then Js.slice (S slashIndex) value else value
                | None => value
                end).
    { destruct (lastIndexOf "/"%char value) as [i|]; [|now exists EmptyString].
      destruct (S i <? String.length value)%nat; [|now exists EmptyString].
      exists (Js.take (S i) value). now rewrite take_slice. }
    destruct (lastIndexOf "#"%char value) as [i|]; [|exact Hafter].
    destruct (S i <? String.length value)%nat; [|exact Hafter].
    exists (Js.take (S i) value). now rewrite take_slice.
  - intros Hvalue. unfold makeLabel.
    destruct (Js.includes value "owl#sameAs"); [discriminate|].
    assert (Hafter :
      match lastIndexOf "/"%char value with
      | Some slashIndex =>
          if (S slashIndex <? String.length value)%nat
          then Js.slice (S slashIndex) value else value
      | None => value
      end <> EmptyString).
    { destruct (lastIndexOf "/"%char value) as [i|]; [|exact Hvalue].
      destruct (S i <? String.length value)%nat eqn:Ei; [|exact Hvalue].
      apply Hnonempty. now apply Nat.ltb_lt. }
    destruct (lastIndexOf "#"%char value) as [i|]; [|exact Hafter].
    destruct (S i <? String.length value)%nat eqn:Ei; [|exact Hafter].
    apply Hnonempty. now apply Nat.ltb_lt.
  - intros base fragment -> Hfragment Hlacks Hincludes. unfold makeLabel.
    rewrite Hincludes, (lastIndexOf_append "#"%char base fragment Hlacks).
    assert (Hs : (S (String.length base)
                  <? String.length (String.append base (String "#"%char fragment)))%nat = true).
    { apply Nat.ltb_lt. rewrite length_append. simpl. specialize (Hlen _ Hfragment). lia. }
    rewrite Hs. now rewrite <- slice_succ, slice_append.
  - intros base name -> Hname Hlacks Hhash. unfold makeLabel.
    assert (Hincludes : Js.includes (String.append base (String "/"%char name)) "owl#sameAs"
                        = false).
    { unfold Js.includes.
      now rewrite (index_lacks "#"%char "owl#sameAs" _ eq_refl Hhash). }
    rewrite Hincludes, (lastIndexOf_lacks "#"%char _ Hhash),
      (lastIndexOf_append "/"%char base name Hlacks).
    assert (Hs : (S (String.length base)
                  <? String.length (String.append base (String "/"%char name)))%nat = true).
    { apply Nat.ltb_lt. rewrite length_append. simpl. specialize (Hlen _ Hname). lia. }
    rewrite Hs. now rewrite <- slice_succ, slice_append.
Qed.

Lemma makeLabel_is_an_ending_witness :
  makeLabel "https://www.w3.org/ns/prov#hadPrimarySource" = "hadPrimarySource"
  /\ makeLabel "https://schema.org/name" = "name".
Proof.
  split.
  - apply (proj1 (proj2 (proj2 (makeLabel_is_an_ending
                                  "https://www.w3.org/ns/prov#hadPrimarySource")))
             "https://www.w3.org/ns/prov" "hadPrimarySource");
      [reflexivity|discriminate|reflexivity|reflexivity].
  - apply (proj2 (proj2 (proj2 (makeLabel_is_an_ending "https://schema.org/name")))
             "https://schema.org" "name");
      [reflexivity|discriminate|reflexivity|reflexivity].
Defined.

(** ** Tables *)

Lemma replaceAllChar_lacks (c : ascii) (by' s : string) :
  lacks c by' = true -> lacks c (replaceAllChar c by' s) = true.
Proof.
  intros Hby. induction s as [|x s IH]; simpl; [reflexivity|].
  destruct (Ascii.eqb x c) eqn:Ex.
  - now rewrite lacks_append, Hby, IH.
  - simpl. now rewrite Ex, IH.
Qed.

Lemma concat_lacks (c : ascii) (separator : string) (cells : list string) :
  lacks c separator = true ->
  Forall (fun cell => lacks c cell = true) cells ->
  lacks c (String.concat separator cells) = true.
Proof.
  intros Hsep. induction 1 as [|cell cells Hcell Hcells IH]; [reflexivity|].
  destruct cells as [|next cells]; [exact Hcell|].
  change (String.concat separator (cell :: next :: cells))
    with (String.append cell (String.append separator (String.concat separator (next :: cells)))).
  now rewrite !lacks_append, Hcell, Hsep, IH.
Qed.

Lemma tableRow_shape (cells : list string) :
  Forall (fun cell => lacks lineFeed cell = true) cells ->
  lacks lineFeed (tableRow cells) = true
  /\ Js.startsWith (tableRow cells) "| " = true
  /\ Js.endsWith (tableRow cells) " |" = true.
Proof.
  intros Hcells. unfold tableRow. split; [|split].
  - rewrite !lacks_append, (concat_lacks lineFeed " | " cells eq_refl Hcells). reflexivity.
  - apply startsWith_append.
  - rewrite <- append_assoc. apply endsWith_append.
Qed.

(** X23. A Markdown table has one line for the headers, one for the rule
    and one per row, in order; every line begins and ends with a bar, and
    none holds a line feed, whatever the cells hold. *)
Theorem markdownTable_one_line_per_row (headers : list string) (rows : list (list string)) :
  List.length (markdownTable headers rows) = S (S (List.length rows))
  /\ (forall line, In line (markdownTable headers rows) ->
        lacks lineFeed line = true
        /\ Js.startsWith line "| " = true
        /\ Js.endsWith line " |" = true).
Proof.
  assert (Hsafe : forall cells, Forall (fun cell => lacks lineFeed cell = true)
                                  (map safeCell cells)).
  { intros cells. apply Forall_map. apply List.Forall_forall. intros cell _.
    unfold safeCell. now apply replaceAllChar_lacks. }
  unfold markdownTable. split; [simpl; now rewrite length_map|].
  intros line [<-|[<-|Hline]].
  - apply tableRow_shape, Hsafe.
  - apply tableRow_shape. apply Forall_map. apply List.Forall_forall. intros cell _. reflexivity.
  - apply in_map_iff in Hline as [row [<- _]]. apply tableRow_shape, Hsafe.
Qed.

(** ** The claim filter *)

Section ClaimFilterFacts.
Context {text : HostText}.

(** X24. [parseClaimFilter] never returns an empty set: for no text, for
    the empty text and when every comma-separated piece trims to nothing it
    returns [null]; otherwise the set holds exactly the pieces, trimmed, that
    are not empty. *)
Theorem parseClaimFilter_never_empty (raw : option string) :
  (forall claims, parseClaimFilter raw = Some claims ->
     claims <> ∅
     /\ exists text', raw = Some text' /\ text' <> EmptyString
          /\ forall claim, claim ∈ claims
               <-> claim <> EmptyString
                   /\ exists piece, In piece (Js.split ","%char text') /\ jsTrim piece = claim)
  /\ (parseClaimFilter raw = None
      <-> raw = None \/ raw = Some EmptyString
          \/ exists text', raw = Some text'
               /\ forall piece, In piece (Js.split ","%char text') -> jsTrim piece = EmptyString).
Proof.
  assert (Hpos : forall value, (0 <? String.length value)%nat = true <-> value <> EmptyString).
  { intros [|x value]; simpl; split; try discriminate; try reflexivity.
    intros H. now contradiction H. }
  destruct raw as [text'|]; cbn [parseClaimFilter];
    [|split; [discriminate|split; [now left|reflexivity]]].
  unfold Js.truthy.
  destruct (String.eqb_spec text' EmptyString) as [->|Htext]; cbn [negb].
  { split; [discriminate|]. split; [right; now left|reflexivity]. }
  set (claims := List.filter (fun value => (0 <? String.length value)%nat)
                   (map jsTrim (Js.split ","%char text'))).
  assert (Hclaims : forall claim, In claim claims
            <-> claim <> EmptyString
                /\ exists piece, In piece (Js.split ","%char text') /\ jsTrim piece = claim).
  { intros claim. unfold claims. rewrite filter_In, in_map_iff, Hpos.
    split; [intros [[piece [E Hin]] Hne]|intros [Hne [piece [Hin E]]]]; eauto. }
  destruct claims as [|claim others] eqn:Eclaims.
  - split; [discriminate|]. split; [|reflexivity]. intros _. right. right.
    exists text'. split; [reflexivity|]. intros piece Hpiece.
    destruct (String.eqb_spec (jsTrim piece) EmptyString) as [E|N]; [exact E|].
    exfalso. apply (proj2 (Hclaims (jsTrim piece))). eauto.
  - split.
    + intros set. intros E. inversion E; subst set. clear E. split.
      * intros Hempty.
        assert (Hin : claim ∈ (list_to_set (claim :: others) : gset string))
          by (apply elem_of_list_to_set; now left).
        cbn [list_to_set foldr] in Hin. rewrite Hempty in Hin.
        now apply not_elem_of_empty in Hin.
      * exists text'. split; [reflexivity|]. split; [exact Htext|].
        intros c. rewrite <- (Hclaims c).
        rewrite elem_of_union, elem_of_singleton, elem_of_list_to_set, list_elem_of_In.
        simpl. split; [intros [->|H]; auto|intros [<-|H]; auto].
    + split; [discriminate|]. intros [H|[H|[t [Et Hall]]]]; [discriminate|congruence|].
      inversion Et; subst t. exfalso.
      destruct (proj1 (Hclaims claim)) as [Hne [piece [Hpiece Etrim]]]; [now left|].
      rewrite (Hall piece Hpiece) in Etrim. now apply Hne.
Qed.

End ClaimFilterFacts.

Lemma parseClaimFilter_never_empty_witness :
  exists claims,
    parseClaimFilter (text := asciiText) (Some "same, different , ,") = Some claims
    /\ claims <> ∅.
Proof.
  eexists. split; [vm_compute; reflexivity|].
  exact (proj1 (proj1 (parseClaimFilter_never_empty (text := asciiText)
                         (Some "same, different , ,")) _ eq_refl)).
Defined.

Lemma findFocalIdentifier_is_a_subject_witness :
  findFocalIdentifier (text := asciiText) Example.personConfig
    [Example.sameAsRow; Example.seen2022; Example.seen2021] = Some "https://x.com/alice"
  /\ exists row,
       In row [Example.sameAsRow; Example.seen2022; Example.seen2021]
       /\ subject_type row = entityType Example.personConfig
       /\ subject_raw_identifier row = "https://x.com/alice".
Proof.
  split; [reflexivity|].
  exact (proj2 (findFocalIdentifier_is_a_subject (text := asciiText) Example.personConfig
                  [Example.sameAsRow; Example.seen2022; Example.seen2021])
           "https://x.com/alice" eq_refl).
Defined.

Lemma fixture_rows_become_statements_witness :
  exists wires statements,
    fixtureStateToWires (fcp := Example.standInFcp) [Example.sameAsRow; Example.seen2021]
    = Some wires
    /\ wiresToStatements (fcp := Example.standInFcp) wires = Some statements
    /\ map rawTripleOf statements = map rawTripleOfRow [Example.sameAsRow; Example.seen2021].
Proof.
  eexists. eexists. split; [vm_compute; reflexivity|]. split; [vm_compute; reflexivity|].
  exact (proj1 (proj2 (proj2 (proj1 (fixture_rows_become_statements
                                       (fcp := Example.standInFcp)
                                       [Example.sameAsRow; Example.seen2021]) _ eq_refl))
                  _ eq_refl)).
Defined.

Lemma runPromptAtomic_requires_statement_witness :
  runPromptAtomic (fcp := Example.standInFcp) (host := Example.codeUnitHost)
    (renderer := Example.plainRenderer)
    (pa_flags (parseArgs (["eval"; "prompt-atomic"; "--json"] ++ ["--statement"])))
    Example.wires
  = Failed "Missing required flag: --statement <owl-sameAs-statement-fide-id>" [].
Proof.
  exact (proj2 (runPromptAtomic_requires_statement (fcp := Example.standInFcp)
                  (host := Example.codeUnitHost) (renderer := Example.plainRenderer)
                  Example.wires) ["eval"; "prompt-atomic"; "--json"]).
Defined.

(** ** Compact terms and their expansion *)

Lemma startsWith_exclusive (s a b : string) :
  Js.startsWith s a = true -> Js.startsWith s b = true ->
  String.prefix a b = true \/ String.prefix b a = true.
Proof.
  unfold Js.startsWith. revert a b.
  induction s as [|x s IH]; intros [|y a] [|z b]; simpl; auto; try discriminate.
  destruct (Ascii.ascii_dec y x) as [->|]; [|discriminate].
  destruct (Ascii.ascii_dec z x) as [->|]; [|discriminate].
  intros Ha Hb. destruct (Ascii.ascii_dec x x) as [_|N]; [|now contradiction N].
  now apply IH.
Qed.

Ltac other_bases H :=
  repeat match goal with
  | |- context [Js.startsWith ?iri ?base] =>
      lazymatch type of H with
      | Js.startsWith iri base = true => rewrite H; cbv iota
      | _ =>
          let E := fresh "E" in
          destruct (Js.startsWith iri base) eqn:E;
          [ exfalso; destruct (startsWith_exclusive _ _ _ H E) as [X|X];
            vm_compute in X; discriminate
          | clear E ]
      end
  end.

(** X25. The two compacting functions agree wherever [toPredicateCurie]
    compacts, but for one base: an IRI under
    [https://www.w3.org/1999/02/22-rdf-syntax-ns#] is compacted to [rdf:] by
    [toPredicateCurie] and left as it is by [toKnownCurie], which knows that
    namespace with the [http] scheme only. [toPredicateCurie] is idempotent. *)
Theorem toPredicateCurie_agrees_with_toKnownCurie (iri : string) :
  (Js.startsWith iri "https://www.w3.org/1999/02/22-rdf-syntax-ns#" = false ->
   toPredicateCurie iri = iri \/ toPredicateCurie iri = toKnownCurie iri)
  /\ (forall local,
        toPredicateCurie (String.append "https://www.w3.org/1999/02/22-rdf-syntax-ns#" local)
        = String.append "rdf:" local
        /\ toKnownCurie (String.append "https://www.w3.org/1999/02/22-rdf-syntax-ns#" local)
           = String.append "https://www.w3.org/1999/02/22-rdf-syntax-ns#" local)
  /\ toPredicateCurie (toPredicateCurie iri) = toPredicateCurie iri.
Proof.
  split; [|split].
  - intros Hrdf. unfold toPredicateCurie, rebase. rewrite Hrdf.
    destruct (Js.startsWith iri "https://schema.org/") eqn:Hschema.
    { right. unfold toKnownCurie, rebase. other_bases Hschema. reflexivity. }
    destruct (Js.startsWith iri "https://www.w3.org/ns/prov#") eqn:Hprov.
    { right. unfold toKnownCurie, rebase. rewrite Hschema. other_bases Hprov. reflexivity. }
    destruct (Js.startsWith iri "https://www.w3.org/2002/07/owl#") eqn:Howl.
    { right. unfold toKnownCurie, rebase. rewrite Hschema, Hprov. other_bases Howl.
      reflexivity. }
    now left.
  - intros local. split.
    + unfold toPredicateCurie, rebase.
      repeat match goal with
      | |- context [Js.startsWith (String.append ?b local) ?base] =>
          lazymatch base with
          | b => rewrite (startsWith_append b local), (slice_append b local); reflexivity
          | _ => change (Js.startsWith (String.append b local) base) with false; cbv iota
          end
      end.
    + unfold toKnownCurie, rebase.
      repeat match goal with
      | |- context [Js.startsWith (String.append ?b local) ?base] =>
          change (Js.startsWith (String.append b local) base) with false; cbv iota
      end.
      reflexivity.
  - unfold toPredicateCurie at 2 3. unfold rebase.
    repeat match goal with
    | |- context [Js.startsWith iri ?base] =>
        destruct (Js.startsWith iri base) eqn:?; [reflexivity|]
    end.
    unfold toPredicateCurie, rebase.
    repeat match goal with
    | H : Js.startsWith iri _ = false |- _ => rewrite H; clear H
    end.
    reflexivity.
Qed.

Lemma toPredicateCurie_agrees_with_toKnownCurie_witness :
  Js.startsWith SCHEMA_NAME_IRI "https://www.w3.org/1999/02/22-rdf-syntax-ns#" = false
  /\ (toPredicateCurie SCHEMA_NAME_IRI = SCHEMA_NAME_IRI
      \/ toPredicateCurie SCHEMA_NAME_IRI = toKnownCurie SCHEMA_NAME_IRI).
Proof.
  split; [reflexivity|].
  apply (proj1 (toPredicateCurie_agrees_with_toKnownCurie SCHEMA_NAME_IRI)). reflexivity.
Defined.

(** X26. An IRI of the OWL or PROV namespace written with the [https]
    scheme is compacted to the same term as with the [http] scheme, and
    expanding the term gives the [http] form, not the IRI that was
    compacted: for these two namespaces expansion does not undo
    compaction. This is so for the [owl:sameAs] predicate of the method. *)
Theorem https_terms_expand_to_http (local : string) :
  local <> EmptyString ->
  lacks ":"%char local = true ->
  toKnownCurie (String.append "https://www.w3.org/2002/07/owl#" local)
  = toKnownCurie (String.append "http://www.w3.org/2002/07/owl#" local)
  /\ curieToIri (toKnownCurie (String.append "https://www.w3.org/2002/07/owl#" local))
     = Some (String.append "http://www.w3.org/2002/07/owl#" local)
  /\ toKnownCurie (String.append "https://www.w3.org/ns/prov#" local)
     = toKnownCurie (String.append "http://www.w3.org/ns/prov#" local)
  /\ curieToIri (toKnownCurie (String.append "https://www.w3.org/ns/prov#" local))
     = Some (String.append "http://www.w3.org/ns/prov#" local)
  /\ curieToIri (toKnownCurie OWL_SAME_AS_IRI) <> Some OWL_SAME_AS_IRI.
Proof.
  intros Hne Hlacks.
  assert (Hlocal : String.eqb local EmptyString = false) by now apply String.eqb_neq.
  assert (Hcompact : forall base prefix,
    In (base, prefix)
      [("https://www.w3.org/2002/07/owl#", "owl:"); ("http://www.w3.org/2002/07/owl#", "owl:");
       ("https://www.w3.org/ns/prov#", "prov:"); ("http://www.w3.org/ns/prov#", "prov:")] ->
    toKnownCurie (String.append base local) = String.append prefix local).
  { intros base prefix Hin. simpl in Hin.
    repeat destruct Hin as [Hin|Hin]; try contradiction; inversion Hin; subst; clear Hin;
      unfold toKnownCurie, rebase;
      match goal with
      | |- context [String.append ?b local] =>
          repeat match goal with
          | |- context [Js.startsWith (String.append b local) ?base] =>
              lazymatch base with
              | b => rewrite (startsWith_append b local), (slice_append b local); reflexivity
              | _ => change (Js.startsWith (String.append b local) base) with false; cbv iota
              end
          end
      end. }
  assert (Hexpand : forall prefix base,
    In (prefix, base) [("owl", "http://www.w3.org/2002/07/owl#");
                       ("prov", "http://www.w3.org/ns/prov#")] ->
    curieToIri (String.append prefix (String ":"%char local)) = Some (String.append base local)).
  { intros prefix base Hin. simpl in Hin.
    repeat destruct Hin as [Hin|Hin]; try contradiction; inversion Hin; subst; clear Hin;
      unfold curieToIri;
      match goal with
      | |- context [Js.split _ (String.append ?p (String ":"%char local))] =>
          rewrite (split_at_separator ":"%char p local eq_refl), (split_lacks _ _ Hlacks)
      end;
      cbn [orb String.eqb Ascii.eqb Bool.eqb]; rewrite Hlocal; reflexivity. }
  rewrite !(Hcompact "https://www.w3.org/2002/07/owl#" "owl:") by (simpl; auto).
  rewrite !(Hcompact "http://www.w3.org/2002/07/owl#" "owl:") by (simpl; auto).
  rewrite !(Hcompact "https://www.w3.org/ns/prov#" "prov:") by (simpl; auto 6).
  rewrite !(Hcompact "http://www.w3.org/ns/prov#" "prov:") by (simpl; auto 6).
  split; [reflexivity|]. split; [apply (Hexpand "owl"); simpl; auto|].
  split; [reflexivity|]. split; [apply (Hexpand "prov"); simpl; auto|].
  vm_compute. discriminate.
Qed.

Lemma https_terms_expand_to_http_witness :
  curieToIri (toKnownCurie (String.append "https://www.w3.org/2002/07/owl#" "differentFrom"))
  = Some (String.append "http://www.w3.org/2002/07/owl#" "differentFrom").
Proof.
  apply (https_terms_expand_to_http "differentFrom"); [discriminate|reflexivity].
Defined.

(** ** A flag and the token after it *)

Lemma parseArgsFrom_flag_value (k v : string) :
  lacks "="%char k = true -> v <> EmptyString -> Js.startsWith v "--" = false ->
  forall n args positionals flags, (List.length args <= n)%nat ->
    parseArgsFrom (args ++ [String.append "--" k; v]) positionals flags
    = {| pa_positionals := pa_positionals (parseArgsFrom args positionals flags);
         pa_flags := <[k := FlagString v]> (pa_flags (parseArgsFrom args positionals flags)) |}.
Proof.
  intros Hk Hv Hdash.
  assert (Hv' : String.eqb v EmptyString = false) by now apply String.eqb_neq.
  assert (Hpair : forall positionals flags,
    parseArgsFrom [String.append "--" k; v] positionals flags
    = {| pa_positionals := positionals; pa_flags := <[k := FlagString v]> flags |}).
  { intros positionals flags. cbn [parseArgsFrom].
    rewrite (startsWith_append "--"), !slice_two_dashes. simpl negb. cbv iota.
    rewrite (index_of_absent "="%char k Hk), Hv', Hdash. reflexivity. }
  induction n as [|n IH]; intros args positionals flags Hlen.
  - destruct args; [|simpl in Hlen; lia]. apply Hpair.
  - destruct args as [|first rest]; [apply Hpair|].
    simpl in Hlen.
    change ((first :: rest) ++ [String.append "--" k; v])
      with (first :: (rest ++ [String.append "--" k; v])).
    cbn [parseArgsFrom].
    destruct (negb (Js.startsWith first "--")).
    { apply IH. lia. }
    destruct (String.index 0 "=" (Js.slice 2 first)) as [eqIndex|].
    { apply IH. lia. }
    destruct rest as [|next rest'].
    + change ([] ++ [String.append "--" k; v]) with [String.append "--" k; v]. cbv iota.
      rewrite (startsWith_append "--" k), orb_true_r. apply Hpair.
    + change ((next :: rest') ++ [String.append "--" k; v])
        with (next :: (rest' ++ [String.append "--" k; v])). cbv iota.
      destruct (String.eqb next EmptyString || Js.startsWith next "--").
      * change (next :: rest' ++ [String.append "--" k; v])
          with ((next :: rest') ++ [String.append "--" k; v]).
        apply IH. simpl in *. lia.
      * apply IH. simpl in *. lia.
Qed.

(** X27. Whatever tokens come before them, a last flag [--key] followed
    by a token that is not empty and does not start with two dashes leaves
    the flag [key] set to that token, which is not taken for a positional;
    the other flags and the positionals are those of the tokens before. A
    last flag [--key] with nothing after it is set as a boolean, which
    [hasFlag] sees and [getStringFlag] does not. *)
Theorem parseArgs_flag_takes_next_token (args : list string) (k v : string) :
  lacks "="%char k = true ->
  (v <> EmptyString -> Js.startsWith v "--" = false ->
   let parsed := parseArgs (args ++ [String.append "--" k; v]) in
   getStringFlag (pa_flags parsed) k = Some v
   /\ pa_positionals parsed = pa_positionals (parseArgs args)
   /\ (forall key, key <> k -> pa_flags parsed !! key = pa_flags (parseArgs args) !! key))
  /\ (let parsed := parseArgs (args ++ [String.append "--" k]) in
      hasFlag (pa_flags parsed) k = true
      /\ getStringFlag (pa_flags parsed) k = None
      /\ pa_positionals parsed = pa_positionals (parseArgs args)).
Proof.
  intros Hk. split.
  - intros Hv Hdash. cbv zeta. unfold parseArgs.
    rewrite (parseArgsFrom_flag_value k v Hk Hv Hdash (List.length args) args [] ∅ (le_n _)).
    cbn [pa_flags pa_positionals]. unfold getStringFlag.
    rewrite lookup_insert_eq. split; [reflexivity|]. split; [reflexivity|].
    intros key Hne. now rewrite lookup_insert_ne.
  - cbv zeta. unfold parseArgs.
    rewrite (parseArgsFrom_last_token k (FlagBool true) _
               (startsWith_append "--" _) (bare_token_alone k Hk)
               (List.length args) args [] ∅ (le_n _)).
    cbn [pa_flags pa_positionals]. unfold getStringFlag, hasFlag.
    rewrite lookup_insert_eq. split; [|split; reflexivity].
    apply bool_decide_eq_true. eexists. reflexivity.
Qed.

Lemma parseArgs_flag_takes_next_token_witness :
  getStringFlag
    (pa_flags (parseArgs (["eval"; "prompt-atomic"; "--json"]
                            ++ [String.append "--" "statement"; "did:fide:0x01"])))
    "statement" = Some "did:fide:0x01".
Proof.
  apply (proj1 (parseArgs_flag_takes_next_token ["eval"; "prompt-atomic"; "--json"]
                  "statement" "did:fide:0x01" eq_refl));
    [discriminate|reflexivity].
Defined.

(** ** The evidence of a prompt *)

Section EvidenceFacts.
Context {fcp : Fcp} {host : Host} {renderer : Renderer}.

Lemma closure_members (target : FideIdStatement) (allStatements : list FideIdStatement) s :
  In s (buildPersonPromptContextStatements target allStatements) ->
  s = target \/ In s allStatements.
Proof.
  intros Hs. destruct (closure_hops_core target allStatements) as [Hsub _].
  apply Hsub in Hs.
  destruct Hs as [E|[H|[H|[H|[H|[H|[H|H]]]]]]]; [now left|right; apply H..].
Qed.

Lemma selectEvidence_selected current explicitEvidence pool selected :
  selectEvidence current explicitEvidence pool = Selected selected ->
  forall evidence, In evidence selected ->
    In evidence pool
    /\ (forall wanted, explicitEvidence = Some wanted -> wanted <> EmptyString ->
          statementFideId evidence = wanted).
Proof.
  unfold selectEvidence.
  destruct explicitEvidence as [wanted|].
  - destruct (Js.truthy (Some wanted)) eqn:Htruthy.
    + destruct (Js.find _ pool) as [matched|] eqn:Hfind; [|discriminate].
      intros E evidence Hin. inversion E; subst. destruct Hin as [<-|[]].
      unfold Js.find in Hfind. apply List.find_some in Hfind as [Hin Hid].
      apply String.eqb_eq in Hid. split; [assumption|].
      intros w Ew _. now inversion Ew; subst.
    + intros E evidence Hin. inversion E; subst. split; [assumption|].
      intros w Ew Hne. inversion Ew; subst. simpl in Htruthy.
      apply negb_false_iff, String.eqb_eq in Htruthy. contradiction.
  - intros E evidence Hin. inversion E; subst. split; [assumption|]. discriminate.
Qed.

Lemma generateAll_evidence (Q : GeneratedPrompt -> Prop) current target base ctx
    (selected : list FideIdStatement) :
  (forall evidence item, In evidence selected ->
     g_consideration item = current ->
     g_evidenceStatementFideId item = statementFideId evidence -> Q item) ->
  forall st st' finished,
    generateAll current target base ctx selected st = (st', finished) ->
    Forall Q (generated st) -> Forall Q (generated st').
Proof.
  induction selected as [|evidence rest IH]; intros HQ st st' finished Hgen Hinv;
    simpl in Hgen.
  - now inversion Hgen; subst.
  - destruct (renderPrompt current target evidence _ ctx) as [prompt|].
    + apply IH in Hgen; [assumption| |].
      * intros e item He. apply HQ. now right.
      * cbn [generated]. apply Forall_app. split; [assumption|].
        constructor; [|constructor]. apply (HQ evidence); [now left|reflexivity..].
    + now inversion Hgen; subst.
Qed.

Lemma considerationStep_evidence consideration explicitEvidence target ctx st st' current :
  considerationStep consideration explicitEvidence target ctx st current = StepNext st' ->
  Forall (pooledEvidence consideration explicitEvidence target ctx) (generated st) ->
  Forall (pooledEvidence consideration explicitEvidence target ctx) (generated st').
Proof.
  intros Hstep Hinv. unfold considerationStep in Hstep.
  destruct (chooseEvidencePool consideration current target ctx) as [message|summary|pool base]
    eqn:Hchoice; [discriminate|now inversion Hstep; subst|].
  destruct (selectEvidence current explicitEvidence pool) as [message|selected] eqn:Hsel;
    [discriminate|].
  destruct selected as [|e selected].
  { destruct consideration; [discriminate|]. now inversion Hstep; subst. }
  destruct (generateAll current target base ctx (e :: selected) st) as [st'' finished] eqn:Hgen.
  destruct finished; [|discriminate]. inversion Hstep; subst. clear Hstep.
  cbn [pushSummary generated].
  eapply generateAll_evidence; [|exact Hgen|exact Hinv].
  intros evidence item Hin Hc Hid.
  destruct (selectEvidence_selected _ _ _ _ Hsel evidence Hin) as [Hpool Hwanted].
  exists evidence. split.
  - unfold evidencePoolOf. now rewrite Hc, Hchoice.
  - split; [now symmetry|]. intros wanted Ew Hne. rewrite Hid. now apply Hwanted.
Qed.

Lemma considerationLoop_evidence consideration explicitEvidence target ctx
    (todo : list AtomicConsideration) :
  forall st st',
    considerationLoop consideration explicitEvidence target ctx todo st = StepNext st' ->
    Forall (pooledEvidence consideration explicitEvidence target ctx) (generated st) ->
    Forall (pooledEvidence consideration explicitEvidence target ctx) (generated st').
Proof.
  induction todo as [|current rest IH]; intros st st' Hloop Hinv; simpl in Hloop.
  - now inversion Hloop; subst.
  - destruct (considerationStep consideration explicitEvidence target ctx st current)
      as [message st1|st1|st1] eqn:Hstep; [discriminate|discriminate|].
    eapply IH; [exact Hloop|]. eapply considerationStep_evidence; eassumption.
Qed.

(** X28. Every prompt listed in the summary of a successful run was made
    for a loaded statement that is in the evidence pool of the prompt's
    consideration over the context of the target; and when
    [--evidence-statement] names a statement, every prompt is for that
    statement. *)
Theorem runPromptAtomic_prompts_have_pooled_evidence
    (flags : gmap string FlagValue) (wires : list StatementWire)
    (summary : RunSummary) (files : list (string * string)) :
  runPromptAtomic flags wires = Succeeded (PrintedJson summary) files ->
  exists statements target,
    wiresToStatements wires = Some statements
    /\ In target statements
    /\ statementFideId target = targetSameAsStatementFideId summary
    /\ forall item, In item (generatedPrompts summary) ->
         exists evidence,
           In evidence statements
           /\ In evidence
                (evidencePoolOf
                   (normalizeAtomicConsideration (getStringFlag flags "consideration"))
                   (g_consideration item) target
                   (buildPersonPromptContextStatements target statements))
           /\ statementFideId evidence = g_evidenceStatementFideId item
           /\ (forall wanted, getStringFlag flags "evidence-statement" = Some wanted ->
                 wanted <> EmptyString -> g_evidenceStatementFideId item = wanted).
Proof.
  unfold runPromptAtomic.
  destruct (getStringFlag flags "statement") as [wanted|]; [|discriminate].
  destruct (negb (Js.truthy (Some wanted))); [discriminate|].
  destruct (Js.truthy (getStringFlag flags "consideration") && _); [discriminate|].
  destruct (Js.truthy (getStringFlag flags "out")); [discriminate|].
  destruct (Js.truthy (getStringFlag flags "evidence-statement") && _); [discriminate|].
  destruct (wiresToStatements wires) as [statements|]; [|discriminate].
  destruct (Js.find _ statements) as [target|] eqn:Hfind; [|discriminate].
  destruct (negb (String.eqb (predicateRawIdentifier target) OWL_SAME_AS_IRI)); [discriminate|].
  destruct (passesPersonMethodCriteria target) as [[reason|]|]; [discriminate| |discriminate].
  unfold Js.find in Hfind. apply List.find_some in Hfind as [Htarget _].
  unfold runConsiderations.
  destruct (considerationLoop _ _ target _ _ emptyState) as [message st|st|st] eqn:Hloop;
    [discriminate|discriminate|].
  apply considerationLoop_evidence in Hloop; [|constructor].
  destruct (generated st) as [|g gs] eqn:Eg; [discriminate|].
  destruct (hasFlag flags "json"); [|discriminate].
  intros E. inversion E; subst. clear E.
  cbn [generatedPrompts targetSameAsStatementFideId].
  exists statements, target. split; [reflexivity|]. split; [assumption|].
  split; [reflexivity|].
  intros item Hitem. rewrite List.Forall_forall in Hloop.
  destruct (Hloop item Hitem) as [evidence [Hpool [Hid Hwanted]]].
  exists evidence. split; [|split; [assumption|split; assumption]].
  assert (Hctx : In evidence (buildPersonPromptContextStatements target statements)).
  { unfold evidencePoolOf, chooseEvidencePool in Hpool.
    destruct (isCitationChain (g_consideration item)).
    - destruct (anchorCandidates target _) as [|anchor others];
        [destruct (normalizeAtomicConsideration _); destruct Hpool|].
      destruct (List.filter isReportBackedPrimarySource _) as [|e pool] eqn:Ef;
        [destruct (normalizeAtomicConsideration _); destruct Hpool|].
      rewrite <- Ef in Hpool. apply filter_In in Hpool as [Hpool _].
      unfold collectPrimarySourceLinksForStatement in Hpool.
      now apply filter_In in Hpool as [Hpool _].
    - destruct (pickAtomicEvidencePool (g_consideration item) target _) as [|e pool] eqn:Ep;
        [destruct (normalizeAtomicConsideration _); destruct Hpool|].
      rewrite <- Ep in Hpool. unfold pickAtomicEvidencePool in Hpool.
      destruct (g_consideration item); now apply filter_In in Hpool as [Hpool _]. }
  destruct (closure_members _ _ _ Hctx) as [->|H]; assumption.
Qed.

End EvidenceFacts.

Lemma runPromptAtomic_prompts_have_pooled_evidence_witness :
  runPromptAtomic (fcp := Example.standInFcp) (host := Example.codeUnitHost)
    (renderer := Example.plainRenderer) Runs.allJsonFlags Example.wires
  = Succeeded (PrintedJson Runs.allSummary) [Runs.promptFile]
  /\ exists statements target,
       wiresToStatements (fcp := Example.standInFcp) Example.wires = Some statements
       /\ In target statements
       /\ statementFideId target = targetSameAsStatementFideId Runs.allSummary.
Proof.
  assert (E : runPromptAtomic (fcp := Example.standInFcp) (host := Example.codeUnitHost)
                (renderer := Example.plainRenderer) Runs.allJsonFlags Example.wires
              = Succeeded (PrintedJson Runs.allSummary) [Runs.promptFile])
    by (vm_compute; reflexivity).
  split; [exact E|].
  destruct (runPromptAtomic_prompts_have_pooled_evidence (fcp := Example.standInFcp)
              (host := Example.codeUnitHost) (renderer := Example.plainRenderer) _ _ _ _ E)
    as [statements [target [Hs [Ht [Hid _]]]]].
  exists statements, target. auto.
Defined.
